(** * MaxScale cluster monitor: a shallow embedding of server/core/monitor.cc

    The development follows the layout of the source file: the ownership
    table ([ThisUnit]), the status bitmap helpers, the event classifier
    ([MonitorServer::get_event_type], [status_changed]), the permission
    check, the disk space check, the journal (write and read path) and the
    tick loop of [MonitorWorkerSimple].

    Conventions.
    - A [uint64_t] status bitmap is a [Z]; bit operations are [Z.land],
      [Z.lor], [Z.lnot] and wrap-around is written out where the source
      truncates.
    - [mxb_assert] is compiled out of release builds; the embedding is the
      release build and an assertion leaves no trace in the model.
    - Library calls (zlib, OpenSSL, the MariaDB connector, the C library's
      file functions) are either modelled by their documented behaviour or
      taken as parameters; each place says which. *)

From Stdlib Require Import ZArith Lia Bool Strings.Byte Floats.SpecFloat.
From stdpp Require Import gmap strings list.

Local Open Scope Z_scope.

(** ** Status bits

    The macros [SERVER_RUNNING], [SERVER_MAINT], ... come from
    include/maxscale/server.hh, which is not part of the sources at hand.
    Their values are parameters: each flag is one bit of the 64-bit status
    word, given by its position. *)

Class ServerBits := {
  pos_RUNNING : N;
  pos_MAINT : N;
  pos_AUTH_ERROR : N;
  pos_MASTER : N;
  pos_SLAVE : N;
  pos_DRAINING : N;
  pos_DISK_SPACE_EXHAUSTED : N;
  pos_WAS_MASTER : N;
  pos_JOINED : N
}.

Definition flag (k : N) : Z := Z.shiftl 1 (Z.of_N k).

Section StatusBits.
Context `{ServerBits}.

Definition SERVER_RUNNING : Z := flag pos_RUNNING.
Definition SERVER_MAINT : Z := flag pos_MAINT.
Definition SERVER_AUTH_ERROR : Z := flag pos_AUTH_ERROR.
Definition SERVER_MASTER : Z := flag pos_MASTER.
Definition SERVER_SLAVE : Z := flag pos_SLAVE.
Definition SERVER_DRAINING : Z := flag pos_DRAINING.
Definition SERVER_DISK_SPACE_EXHAUSTED : Z := flag pos_DISK_SPACE_EXHAUSTED.
Definition SERVER_WAS_MASTER : Z := flag pos_WAS_MASTER.
Definition SERVER_JOINED : Z := flag pos_JOINED.

Definition all_positions : list N :=
    [pos_RUNNING; pos_MAINT; pos_AUTH_ERROR; pos_MASTER; pos_SLAVE;
     pos_DRAINING; pos_DISK_SPACE_EXHAUSTED; pos_WAS_MASTER; pos_JOINED].

  (** Server type specific bits *)
Definition server_type_bits : Z :=
    Z.lor (Z.lor SERVER_MASTER SERVER_SLAVE) SERVER_JOINED.

  (** All server bits *)
Definition all_server_bits : Z :=
    Z.lor (Z.lor (Z.lor (Z.lor SERVER_RUNNING SERVER_MAINT) SERVER_MASTER)
                 SERVER_SLAVE) SERVER_JOINED.
End StatusBits.

(** The flags are distinct bits of a 64-bit word. *)
Class ServerBitsOk (B : ServerBits) : Prop := {
  positions_distinct : NoDup all_positions;
  positions_in_word : Forall (λ k, (k < 64)%N) all_positions
}.

(** A concrete layout, used to run the definitions. *)
Definition sample_bits : ServerBits := {|
  pos_RUNNING := 0; pos_MAINT := 1; pos_AUTH_ERROR := 2; pos_MASTER := 3;
  pos_SLAVE := 4; pos_DRAINING := 5; pos_DISK_SPACE_EXHAUSTED := 6;
  pos_WAS_MASTER := 18; pos_JOINED := 19
|}.

Lemma sample_bits_ok : ServerBitsOk sample_bits.
Proof.
  split; apply (bool_decide_unpack _); vm_compute; exact I.
Defined.

(** The sentinel [static_cast<uint64_t>(-1)]. *)
Definition UINT64_MINUS_ONE : Z := 2 ^ 64 - 1.

(** [uint64_t] bit clearing [x &= ~bits] on a value of the word. *)
Definition clear_bits (x bits : Z) : Z := Z.land x (Z.lnot bits).

(** ** Monitor events *)

Inductive mxs_monitor_event_t :=
| UNDEFINED_EVENT
| MASTER_DOWN_EVENT | MASTER_UP_EVENT
| SLAVE_DOWN_EVENT | SLAVE_UP_EVENT
| SERVER_DOWN_EVENT | SERVER_UP_EVENT
| SYNCED_DOWN_EVENT | SYNCED_UP_EVENT
| LOST_MASTER_EVENT | LOST_SLAVE_EVENT | LOST_SYNCED_EVENT
| NEW_MASTER_EVENT | NEW_SLAVE_EVENT | NEW_SYNCED_EVENT.

Global Instance mxs_monitor_event_eq_dec : EqDecision mxs_monitor_event_t.
Proof. solve_decision. Defined.

(** The local enum of [get_event_type]. *)
Inductive general_event_type :=
| DOWN_EVENT | UP_EVENT | LOSS_EVENT | NEW_EVENT | UNSUPPORTED_EVENT.

(** C truth value of an integer expression. *)
Definition nonzero (x : Z) : bool := negb (x =? 0).

Section Classifier.
Context `{ServerBits}.

  (** [MonitorServer::get_event_type], as a function of [mon_prev_status]
      and [server->status]. *)
Definition get_event_type (mon_prev_status status : Z) : mxs_monitor_event_t :=
    let prev := Z.land mon_prev_status all_server_bits in
    let present := Z.land status all_server_bits in
    if prev =? present then UNDEFINED_EVENT
    else
      let event_type :=
        if Z.land prev SERVER_RUNNING =? 0 then
          if nonzero (Z.land present SERVER_RUNNING) then UP_EVENT
          else UNSUPPORTED_EVENT
        else
          if Z.land present SERVER_RUNNING =? 0 then DOWN_EVENT
          else
            let prev_bits := Z.land prev (Z.lor SERVER_MASTER SERVER_SLAVE) in
            let present_bits := Z.land present (Z.lor SERVER_MASTER SERVER_SLAVE) in
            if (negb (nonzero prev_bits) || negb (nonzero present_bits)
                || (prev_bits =? present_bits))
               && nonzero (Z.land prev server_type_bits)
            then LOSS_EVENT
            else NEW_EVENT
      in
      match event_type with
      | UP_EVENT =>
          if nonzero (Z.land present SERVER_MASTER) then MASTER_UP_EVENT
          else if nonzero (Z.land present SERVER_SLAVE) then SLAVE_UP_EVENT
          else if nonzero (Z.land present SERVER_JOINED) then SYNCED_UP_EVENT
          else SERVER_UP_EVENT
      | DOWN_EVENT =>
          if nonzero (Z.land prev SERVER_MASTER) then MASTER_DOWN_EVENT
          else if nonzero (Z.land prev SERVER_SLAVE) then SLAVE_DOWN_EVENT
          else if nonzero (Z.land prev SERVER_JOINED) then SYNCED_DOWN_EVENT
          else SERVER_DOWN_EVENT
      | LOSS_EVENT =>
          if nonzero (Z.land prev SERVER_MASTER) then LOST_MASTER_EVENT
          else if nonzero (Z.land prev SERVER_SLAVE) then LOST_SLAVE_EVENT
          else if nonzero (Z.land prev SERVER_JOINED) then LOST_SYNCED_EVENT
          else UNDEFINED_EVENT
      | NEW_EVENT =>
          if nonzero (Z.land present SERVER_MASTER) then NEW_MASTER_EVENT
          else if nonzero (Z.land present SERVER_SLAVE) then NEW_SLAVE_EVENT
          else if nonzero (Z.land present SERVER_JOINED) then NEW_SYNCED_EVENT
          else UNDEFINED_EVENT
      | UNSUPPORTED_EVENT => UNDEFINED_EVENT
      end.

  (** [MonitorServer::status_changed]. *)
Definition status_changed (mon_prev_status status : Z) : bool :=
    if negb (mon_prev_status =? UINT64_MINUS_ONE) then
      let old_status := Z.land mon_prev_status all_server_bits in
      let new_status := Z.land status all_server_bits in
      negb (old_status =? new_status)
      && (Z.land (Z.lor old_status new_status) SERVER_MAINT =? 0)
      && (Z.land (Z.lor old_status new_status) SERVER_RUNNING =? SERVER_RUNNING)
    else false.
End Classifier.


(** ** Data model *)

(** [MonitorServer::status_request] values. *)
Inductive status_request_t :=
| NO_CHANGE | MAINT_OFF | MAINT_ON | BEING_DRAINED_OFF | BEING_DRAINED_ON.

Global Instance status_request_eq_dec : EqDecision status_request_t.
Proof. solve_decision. Defined.

Inductive monitor_state_t := MONITOR_STATE_RUNNING | MONITOR_STATE_STOPPED.

Inductive mxs_connect_result_t :=
| MONITOR_CONN_EXISTING_OK | MONITOR_CONN_NEWCONN_OK
| MONITOR_CONN_REFUSED | MONITOR_CONN_TIMEOUT.

(** The error numbers of mysqld_error.h that the monitor distinguishes;
    every other value of [mysql_errno] is [ER_OTHER]. *)
Inductive mysql_errno_t :=
| ER_ACCESS_DENIED_ERROR | ER_DBACCESS_DENIED_ERROR
| ER_ACCESS_DENIED_NO_PASSWORD_ERROR
| ER_TABLEACCESS_DENIED_ERROR | ER_COLUMNACCESS_DENIED_ERROR
| ER_SPECIFIC_ACCESS_DENIED_ERROR | ER_PROCACCESS_DENIED_ERROR
| ER_KILL_DENIED_ERROR | ER_UNKNOWN_TABLE
| ER_OTHER (code : Z).

(** [SERVER::DiskSpaceLimits]: path to maximum percentage, as the sequence
    of entries the container yields when iterated. *)
Abbreviation DiskSpaceLimits := (list (string * Z)).

(** [maxscale::disk::SizesAndName] (sizes are [int64_t]). *)
Record SizesAndName := mkSizesAndName {
  total : Z;
  used : Z;
  available : Z
}.

(** The part of [SERVER] the monitor core touches. *)
Record SERVER := mkSERVER {
  name : string;
  status : Z;
  last_event : mxs_monitor_event_t;
  triggered_at : Z;
  disk_space_limits : DiskSpaceLimits
}.

Record MonitorServer := mkMonitorServer {
  server : SERVER;
  mon_prev_status : Z;
  pending_status : Z;
  mon_err_count : Z;
  status_request : status_request_t;
  ok_to_check_disk_space : bool;
  monitor_limits : DiskSpaceLimits
}.

Record Settings := mkSettings {
  script : string;
  (** the test [event & m_settings.events] *)
  events : mxs_monitor_event_t → bool;
  disk_space_limits_setting : DiskSpaceLimits
}.

(** [Monitor] with the members of [MonitorWorker] and
    [MonitorWorkerSimple] that the modelled functions use. [m_master]
    points into [m_servers]; it is kept as an index. *)
Record Monitor := mkMonitor {
  m_name : string;
  m_settings : Settings;
  m_servers : list MonitorServer;
  (** the 20-byte digest of the journal last written *)
  m_journal_hash : list byte;
  m_status_change_pending : bool;
  m_master : option nat;
  m_state : monitor_state_t;
  m_checked : bool;
  m_ticks : Z
}.

(** Field updates. *)
Definition with_status (s : SERVER) (v : Z) : SERVER :=
  mkSERVER (name s) v (last_event s) (triggered_at s) (disk_space_limits s).

Definition with_event (s : SERVER) (e : mxs_monitor_event_t) (t : Z) : SERVER :=
  mkSERVER (name s) (status s) e t (disk_space_limits s).

Definition with_server (d : MonitorServer) (s : SERVER) : MonitorServer :=
  mkMonitorServer s (mon_prev_status d) (pending_status d) (mon_err_count d)
    (status_request d) (ok_to_check_disk_space d) (monitor_limits d).

Definition with_prev_status (d : MonitorServer) (v : Z) : MonitorServer :=
  mkMonitorServer (server d) v (pending_status d) (mon_err_count d)
    (status_request d) (ok_to_check_disk_space d) (monitor_limits d).

Definition with_pending_status (d : MonitorServer) (v : Z) : MonitorServer :=
  mkMonitorServer (server d) (mon_prev_status d) v (mon_err_count d)
    (status_request d) (ok_to_check_disk_space d) (monitor_limits d).

Definition with_err_count (d : MonitorServer) (v : Z) : MonitorServer :=
  mkMonitorServer (server d) (mon_prev_status d) (pending_status d) v
    (status_request d) (ok_to_check_disk_space d) (monitor_limits d).

Definition with_status_request (d : MonitorServer) (r : status_request_t) : MonitorServer :=
  mkMonitorServer (server d) (mon_prev_status d) (pending_status d) (mon_err_count d)
    r (ok_to_check_disk_space d) (monitor_limits d).

Definition with_ok_to_check_disk_space (d : MonitorServer) (b : bool) : MonitorServer :=
  mkMonitorServer (server d) (mon_prev_status d) (pending_status d) (mon_err_count d)
    (status_request d) b (monitor_limits d).

Definition with_servers (m : Monitor) (l : list MonitorServer) : Monitor :=
  mkMonitor (m_name m) (m_settings m) l (m_journal_hash m)
    (m_status_change_pending m) (m_master m) (m_state m) (m_checked m) (m_ticks m).

Definition with_journal_hash (m : Monitor) (h : (list byte)) : Monitor :=
  mkMonitor (m_name m) (m_settings m) (m_servers m) h
    (m_status_change_pending m) (m_master m) (m_state m) (m_checked m) (m_ticks m).

Definition with_status_change_pending (m : Monitor) (b : bool) : Monitor :=
  mkMonitor (m_name m) (m_settings m) (m_servers m) (m_journal_hash m)
    b (m_master m) (m_state m) (m_checked m) (m_ticks m).

Definition with_master (m : Monitor) (i : option nat) : Monitor :=
  mkMonitor (m_name m) (m_settings m) (m_servers m) (m_journal_hash m)
    (m_status_change_pending m) i (m_state m) (m_checked m) (m_ticks m).

Definition with_state (m : Monitor) (s : monitor_state_t) : Monitor :=
  mkMonitor (m_name m) (m_settings m) (m_servers m) (m_journal_hash m)
    (m_status_change_pending m) (m_master m) s (m_checked m) (m_ticks m).

Definition with_checked (m : Monitor) (b : bool) : Monitor :=
  mkMonitor (m_name m) (m_settings m) (m_servers m) (m_journal_hash m)
    (m_status_change_pending m) (m_master m) (m_state m) b (m_ticks m).

Definition with_ticks (m : Monitor) (t : Z) : Monitor :=
  mkMonitor (m_name m) (m_settings m) (m_servers m) (m_journal_hash m)
    (m_status_change_pending m) (m_master m) (m_state m) (m_checked m) t.

(** Modelled from the spec: [SERVER::set_status(bits)] and
    [SERVER::clear_status(bits)] of include/maxscale/server.hh, which is not
    in src/: the status mutation primitives set, respectively clear, the
    given bits of the bitmap, atomically over the full word. *)
Definition set_status (s : SERVER) (bits : Z) : SERVER :=
  with_status s (Z.lor (status s) bits).

Definition clear_status (s : SERVER) (bits : Z) : SERVER :=
  with_status s (clear_bits (status s) bits).

(** [MonitorServer::stash_current_status] *)
Definition stash_current_status (d : MonitorServer) : MonitorServer :=
  with_pending_status (with_prev_status d (status (server d))) (status (server d)).

(** [MonitorServer::set_pending_status] *)
Definition set_pending_status (d : MonitorServer) (bits : Z) : MonitorServer :=
  with_pending_status d (Z.lor (pending_status d) bits).

(** [MonitorServer::clear_pending_status] *)
Definition clear_pending_status (d : MonitorServer) (bits : Z) : MonitorServer :=
  with_pending_status d (clear_bits (pending_status d) bits).

Section ServerPredicates.
Context `{ServerBits}.

(** Modelled from the spec: [SERVER::is_in_maint()] and [SERVER::is_down()]
    of include/maxscale/server.hh, not in src/: a server is in maintenance
    when its status has [MAINT], and down when it lacks [RUNNING]. *)
Definition is_in_maint (s : SERVER) : bool :=
  nonzero (Z.land (status s) SERVER_MAINT).

Definition is_down (s : SERVER) : bool :=
  Z.land (status s) SERVER_RUNNING =? 0.

(** [MonitorServer::should_print_fail_status] *)
Definition should_print_fail_status (d : MonitorServer) : bool :=
  is_down (server d) && (mon_err_count d =? 0).
End ServerPredicates.

(** What the monitor does to the outside: log lines, scripts, services,
    client hang-ups and journal file operations, in program order. *)
Inductive effect :=
| ERROR_already_monitored (srv owner : string)
| ERROR_disk_space_exhausted (srv path : string) (used_percentage max_percentage : Z)
| WARNING_no_such_disk (path srv : string)
| ERROR_disk_space_unsupported (srv : string)
| ERROR_disk_space_failed (srv : string) (errno : mysql_errno_t)
| ERROR_journal_no_null_terminator
| ERROR_journal_unknown_value
| ERROR_crc32_mismatch
| ERROR_unknown_schema_version (v : byte)
| ERROR_read_journal_length (bytes : nat)
| ERROR_read_journal (expected : Z) (bytes : nat)
| NOTICE_loaded_journal
| NOTICE_state_change (srv : string) (event : mxs_monitor_event_t) (prev next : Z)
| NOTICE_master_switch
| ERROR_connect (srv : string) (rval : mxs_connect_result_t)
| ERROR_open_tmp_file
| ERROR_write_journal
| ERROR_rename_journal
| ERROR_cannot_modify
| WARNING_request_overwritten
| ERROR_not_monitored (srv : string)
| ERROR_permissions_connect (srv : string)
| ERROR_permissions_query (srv : string)
| ERROR_permissions_result (srv : string)
| ERROR_failed_to_start
| ERROR_worker_start
| WARNING_stale_journal
| LAUNCH_SCRIPT (srv : string) (event : mxs_monitor_event_t)
| HANGUP (srv : string)
| SERVICE_ADD_SERVER (srv : string)
| SERVICE_REMOVE_SERVER (srv : string)
| FILE_OPEN_TMP
| FILE_WRITE (data : list byte)
| FILE_RENAME
| FILE_UNLINK_TMP
| FILE_UNLINK_JOURNAL.

(** Is the effect an [MXS_ERROR] line? *)
Definition is_error (e : effect) : bool :=
  match e with
  | ERROR_already_monitored _ _ | ERROR_disk_space_exhausted _ _ _ _
  | ERROR_disk_space_unsupported _ | ERROR_disk_space_failed _ _
  | ERROR_journal_no_null_terminator | ERROR_journal_unknown_value
  | ERROR_crc32_mismatch | ERROR_unknown_schema_version _
  | ERROR_read_journal_length _ | ERROR_read_journal _ _
  | ERROR_connect _ _ | ERROR_open_tmp_file | ERROR_write_journal
  | ERROR_rename_journal | ERROR_cannot_modify | ERROR_not_monitored _
  | ERROR_permissions_connect _ | ERROR_permissions_query _
  | ERROR_permissions_result _ | ERROR_failed_to_start
  | ERROR_worker_start => true
  | _ => false
  end.

(** ** The ownership table ([ThisUnit]) *)

Module ThisUnit.

(** [m_server_owners]: servername -> monitorname. *)
Abbreviation owners_t := (gmap string string).

(** [claim_server]: the result is the return value, the table afterwards
    and the contents of [*existing_owner] afterwards. *)
Definition claim_server (m_server_owners : owners_t)
    (server new_owner existing_owner : string) : bool * owners_t * string :=
  match m_server_owners !! server with
  | Some owner =>
      (* Server is already claimed by a monitor. *)
      (false, m_server_owners, owner)
  | None =>
      (true, <[server := new_owner]> m_server_owners, existing_owner)
  end.

(** [release_server] *)
Definition release_server (m_server_owners : owners_t) (server : string) : owners_t :=
  delete server m_server_owners.

(** [claimed_by]: the empty string when the server has no owner. *)
Definition claimed_by (m_server_owners : owners_t) (server : string) : string :=
  match m_server_owners !! server with
  | Some owner => owner
  | None => ""
  end.

End ThisUnit.

(** Modelled from the spec: the [MonitorServer] constructor; the member
    initialisers are in include/maxscale/monitor.hh, not in src/. The
    previous status starts as the sentinel -1, the pending status and the
    error count as 0, no request is pending and the disk space check is
    allowed. *)
Definition new_MonitorServer (s : SERVER) (limits : DiskSpaceLimits) : MonitorServer :=
  mkMonitorServer s UINT64_MINUS_ONE 0 0 NO_CHANGE true limits.

(** [Monitor::add_server]: the result is the return value, the monitor, the
    ownership table and the effects. *)
Definition add_server (m : Monitor) (this_unit : ThisUnit.owners_t) (srv : SERVER)
    : bool * Monitor * ThisUnit.owners_t * list effect :=
  let '(claimed, owners', existing_owner) :=
    ThisUnit.claim_server this_unit (name srv) (m_name m) "" in
  if claimed then
    let new_server := new_MonitorServer srv (disk_space_limits_setting (m_settings m)) in
    (true, with_servers m (m_servers m ++ [new_server]), owners',
     [SERVICE_ADD_SERVER (name srv)])
  else
    (false, m, owners', [ERROR_already_monitored (name srv) existing_owner]).

(** [Monitor::remove_all_servers] *)
Definition remove_all_servers (m : Monitor) (this_unit : ThisUnit.owners_t)
    : Monitor * ThisUnit.owners_t * list effect :=
  (with_servers m [],
   foldl (λ owners d, ThisUnit.release_server owners (name (server d)))
         this_unit (m_servers m),
   (λ d, SERVICE_REMOVE_SERVER (name (server d))) <$> m_servers m).

(** ** The permission check *)

(** [Monitor::connection_is_ok] *)
Definition connection_is_ok (connect_result : mxs_connect_result_t) : bool :=
  match connect_result with
  | MONITOR_CONN_EXISTING_OK | MONITOR_CONN_NEWCONN_OK => true
  | _ => false
  end.

(** What the backend answers during the permission check of one server: the
    result of [ping_or_connect], [mysql_errno] after a failed connect,
    whether [mxs_mysql_query] returned 0, [mysql_errno] after a failed query,
    and whether [mysql_use_result] gave a result. *)
Record PermissionProbe := mkPermissionProbe {
  pp_connect : mxs_connect_result_t;
  pp_connect_errno : mysql_errno_t;
  pp_query_ok : bool;
  pp_query_errno : mysql_errno_t;
  pp_has_result : bool
}.

(** One iteration of the loop of [test_permissions]: the new [rval] and the
    errors logged. *)
Definition test_permissions_server (rval : bool) (mondb : MonitorServer)
    (p : PermissionProbe) : bool * list effect :=
  if negb (connection_is_ok (pp_connect p)) then
    (match pp_connect_errno p with
     | ER_ACCESS_DENIED_ERROR
     | ER_DBACCESS_DENIED_ERROR
     | ER_ACCESS_DENIED_NO_PASSWORD_ERROR => rval
     | _ => true
     end,
     [ERROR_permissions_connect (name (server mondb))])
  else if negb (pp_query_ok p) then
    (match pp_query_errno p with
     | ER_TABLEACCESS_DENIED_ERROR
     | ER_COLUMNACCESS_DENIED_ERROR
     | ER_SPECIFIC_ACCESS_DENIED_ERROR
     | ER_PROCACCESS_DENIED_ERROR
     | ER_KILL_DENIED_ERROR => false
     | _ => true
     end,
     [ERROR_permissions_query (name (server mondb))])
  else
    (true,
     if pp_has_result p then [] else [ERROR_permissions_result (name (server mondb))]).

Fixpoint test_permissions_loop (rval : bool) (servers : list MonitorServer)
    (probe : string → PermissionProbe) : bool * list effect :=
  match servers with
  | [] => (rval, [])
  | mondb :: rest =>
      let '(rval', log) := test_permissions_server rval mondb (probe (name (server mondb))) in
      let '(rval'', log') := test_permissions_loop rval' rest probe in
      (rval'', log ++ log')
  end.

(** [Monitor::test_permissions]; [skip_permission_checks] is the global
    configuration option, [probe] the backends' answers by server name. *)
Definition test_permissions (m : Monitor) (skip_permission_checks : bool)
    (probe : string → PermissionProbe) : bool * list effect :=
  if bool_decide (m_servers m = []) || skip_permission_checks then (true, [])
  else test_permissions_loop false (m_servers m) probe.

(** [MonitorWorker::start]. [journal_is_stale] is the result of the check of
    the file's age, [has_sufficient_permissions] the result (and the log)
    of the virtual function of that name: the base class returns true, the
    monitor modules return what [test_permissions] gives for their query.
    [worker_start] is the result of [Worker::start], [thread_running] what
    the worker thread has stored in [m_thread_running] by the time it posts
    the semaphore. The result is [started], the monitor and the effects. *)
Definition start (m : Monitor) (journal_is_stale : bool)
    (has_sufficient_permissions : bool * list effect)
    (worker_start thread_running : bool) : bool * Monitor * list effect :=
  let log1 := if journal_is_stale then [WARNING_stale_journal; FILE_UNLINK_JOURNAL] else [] in
  let '(m1, log2) :=
    if negb (m_checked m) then
      let '(ok, plog) := has_sufficient_permissions in
      if negb ok then (m, plog ++ [ERROR_failed_to_start])
      else (with_checked m true, plog)
    else (m, []) in
  if m_checked m1 then
    if negb worker_start then (false, m1, log1 ++ log2 ++ [ERROR_worker_start])
    else if thread_running then (true, with_state m1 MONITOR_STATE_RUNNING, log1 ++ log2)
    else (false, m1, log1 ++ log2)
  else (false, m1, log1 ++ log2).

(** ** The disk space check *)

(** IEEE 754 binary64 arithmetic, as [double] has it: conversion of an
    integer (round to nearest even), and the conversion of a [double] to
    [int32_t], which truncates and is undefined ([None]) out of range. *)
Definition double_of_int (z : Z) : spec_float := binary_normalize 53 1024 z 0 false.

Definition int32_of_double (f : spec_float) : option Z :=
  match f with
  | S754_zero _ => Some 0
  | S754_finite s m e =>
      let a := if 0 <=? e then Z.pos m * 2 ^ e else Z.pos m / 2 ^ (- e) in
      let v := if s then - a else a in
      if (- 2 ^ 31 <=? v) && (v <? 2 ^ 31) then Some v else None
  | _ => None
  end.

(** [((san.total() - san.available()) / (double)san.total()) * 100] *)
Definition used_percentage (san : SizesAndName) : option Z :=
  int32_of_double
    (SFmul 53 1024
       (SFdiv 53 1024 (double_of_int (total san - available san))
                      (double_of_int (total san)))
       (double_of_int 100)).

(** [check_disk_space_exhausted] *)
Definition check_disk_space_exhausted (pMs : MonitorServer) (path : string)
    (san : SizesAndName) (max_percentage : Z) : option (bool * list effect) :=
  p ← used_percentage san;
  Some (if max_percentage <=? p
        then (true, [ERROR_disk_space_exhausted (name (server pMs)) path p max_percentage])
        else (false, [])).

(** The map filled by [disk::get_info_by_path]: a [std::map], given by its
    entries in iteration (key) order. *)
Abbreviation disk_info_t := (list (string * SizesAndName)).

(** [info.find(path)] *)
Definition info_find (info : disk_info_t) (path : string) : option SizesAndName :=
  (λ r, r.2.2) <$> list_find (λ e, e.1 = path) info.

(** The locals of [update_disk_space_status]. *)
Record disk_check_state := mkDiskCheckState {
  disk_space_exhausted : bool;
  star_max_percentage : Z;
  checked_paths : gset string;
  disk_log : list effect
}.

(** The loop over the limits [dst]. *)
Fixpoint check_limits (pMs : MonitorServer) (info : disk_info_t)
    (dst : DiskSpaceLimits) (st : disk_check_state) : option disk_check_state :=
  match dst with
  | [] => Some st
  | (path, max_percentage) :: rest =>
      st' ←
        (if bool_decide (path = "*") then
           Some (mkDiskCheckState (disk_space_exhausted st) max_percentage
                                  (checked_paths st) (disk_log st))
         else
           match info_find info path with
           | Some san =>
               r ← check_disk_space_exhausted pMs path san max_percentage;
               Some (mkDiskCheckState r.1 (star_max_percentage st)
                                      ({[path]} ∪ checked_paths st)
                                      (disk_log st ++ r.2))
           | None =>
               Some (mkDiskCheckState (disk_space_exhausted st) (star_max_percentage st)
                                      (checked_paths st)
                                      (disk_log st ++ [WARNING_no_such_disk path (name (server pMs))]))
           end);
      check_limits pMs info rest st'
  end.

(** The loop over [info] for the wildcard. *)
Fixpoint check_star (pMs : MonitorServer) (info : disk_info_t)
    (st : disk_check_state) : option disk_check_state :=
  match info with
  | [] => Some st
  | (path, san) :: rest =>
      st' ←
        (if bool_decide (path ∉ checked_paths st) then
           r ← check_disk_space_exhausted pMs path san (star_max_percentage st);
           Some (mkDiskCheckState r.1 (star_max_percentage st) (checked_paths st)
                                  (disk_log st ++ r.2))
         else Some st);
      check_star pMs rest st'
  end.

(** The answer of [disk::get_info_by_path]: the map, or [mysql_errno]. *)
Inductive get_info_result :=
| INFO_OK (info : disk_info_t)
| INFO_FAILED (errno : mysql_errno_t).

Section DiskSpace.
Context `{ServerBits}.

(** [MonitorServer::can_update_disk_space_status] *)
Definition can_update_disk_space_status (pMs : MonitorServer) : bool :=
  ok_to_check_disk_space pMs
  && (negb (bool_decide (monitor_limits pMs = []))
      || negb (bool_decide (disk_space_limits (server pMs) = []))).

(** [MonitorServer::update_disk_space_status]; [None] is undefined
    behaviour (a percentage that does not fit [int32_t]). *)
Definition update_disk_space_status (pMs : MonitorServer) (rv : get_info_result)
    : option (MonitorServer * list effect) :=
  match rv with
  | INFO_OK info =>
      (* Server-specific setting takes precedence. *)
      let dst := if bool_decide (disk_space_limits (server pMs) = [])
                 then monitor_limits pMs else disk_space_limits (server pMs) in
      st ← check_limits pMs info dst (mkDiskCheckState false (-1) ∅ []);
      st' ← (if bool_decide (star_max_percentage st ≠ -1)
             then check_star pMs info st else Some st);
      Some (if disk_space_exhausted st'
            then with_pending_status pMs (Z.lor (pending_status pMs) SERVER_DISK_SPACE_EXHAUSTED)
            else with_pending_status pMs (clear_bits (pending_status pMs) SERVER_DISK_SPACE_EXHAUSTED),
            disk_log st')
  | INFO_FAILED errno =>
      Some (match errno with
            | ER_UNKNOWN_TABLE =>
                (* Disable disk space checking for this server. *)
                (with_ok_to_check_disk_space pMs false,
                 [ERROR_disk_space_unsupported (name (server pMs))])
            | _ => (pMs, [ERROR_disk_space_failed (name (server pMs)) errno])
            end)
  end.
End DiskSpace.

(** ** The journal *)

(** Schema version, journals must have a matching version *)
Definition MMB_SCHEMA_VERSION : byte := x02.

(** Constants for byte lengths of the values *)
Definition MMB_LEN_BYTES : Z := 4.
Definition MMB_LEN_SCHEMA_VERSION : Z := 1.
Definition MMB_LEN_CRC32 : Z := 4.
Definition MMB_LEN_VALUE_TYPE : Z := 1.
Definition MMB_LEN_SERVER_STATUS : Z := 8.

(** Type of the stored value *)
Definition SVT_SERVER : byte := x01.
Definition SVT_MASTER : byte := x02.

Global Instance byte_eq_dec : EqDecision byte := Byte.byte_eq_dec.

Definition Z_of_byte (b : byte) : Z := Z.of_N (Byte.to_N b).

(** [(uint8_t)z]: the low eight bits. *)
Definition byte_of_Z (z : Z) : byte :=
  default x00 (Byte.of_N (Z.to_N (z mod 256))).

(** Modelled from the spec: [maxscale::set_byteN], [mxs_set_byte4],
    [maxscale::get_byteN] and [mxs_get_byte4] of include/maxscale/utils.hh,
    not in src/. The journal's integers are little-endian: byte [i] of the
    encoding holds bits [8i .. 8i+7] of the value. *)
Fixpoint set_byteN (value : Z) (bytes : nat) : list byte :=
  match bytes with
  | O => []
  | S n => byte_of_Z value :: set_byteN (Z.shiftr value 8) n
  end.

Fixpoint get_byteN (ptr : list byte) : Z :=
  match ptr with
  | [] => 0
  | b :: rest => Z_of_byte b + Z.shiftl (get_byteN rest) 8
  end.

Definition mxs_set_byte4 (value : Z) : list byte := set_byteN value 4.

(** zlib's [crc32]: the CRC-32 of ISO 3309 (reflected polynomial
    0xEDB88320, the running value complemented on entry and on exit), so
    that [crc32(0L, NULL, 0)] is 0 and [crc32(crc, buf, len)] continues a
    running value. *)
Definition crc32_shift (c : Z) : Z :=
  if Z.odd c then Z.lxor (Z.shiftr c 1) 0xEDB88320 else Z.shiftr c 1.

Definition crc32_byte (c : Z) (b : byte) : Z :=
  Nat.iter 8 crc32_shift (Z.lxor c (Z_of_byte b)).

Definition crc32 (crc : Z) (buf : list byte) : Z :=
  Z.lxor (foldl crc32_byte (Z.lxor crc 0xFFFFFFFF) buf) 0xFFFFFFFF.

(** The C string that starts at offset [p] of a buffer: the bytes before the
    first terminator. *)
Fixpoint until_nul (l : list byte) : list byte :=
  match l with
  | [] => []
  | b :: rest => if bool_decide (b = x00) then [] else b :: until_nul rest
  end.

Definition c_str (buf : list byte) (p : nat) : list byte := until_nul (drop p buf).

(** [strlen(data)] *)
Definition strlen (buf : list byte) (data : nat) : nat := length (c_str buf data).

(** The bytes of a server name as [name()] gives them: a C string. *)
Definition name_bytes (s : string) : list byte :=
  until_nul (String.list_byte_of_string s).

(** The name of a monitored server as the journal stores it. *)
Definition journal_name (db : MonitorServer) : list byte :=
  name_bytes (name (server db)).

(** The entry of one server: type byte, name, terminator, status. *)
Definition store_server_entry (db : MonitorServer) : list byte :=
  [SVT_SERVER] ++ name_bytes (name (server db)) ++ [x00]
  ++ set_byteN (status (server db)) (Z.to_nat MMB_LEN_SERVER_STATUS).

Definition store_master_entry (master : option MonitorServer) : list byte :=
  match master with
  | Some db => [SVT_MASTER] ++ name_bytes (name (server db)) ++ [x00]
  | None => []
  end.

(** [store_data]: the contents of the buffer [data] after the call; [size]
    is the length the caller computed. The CRC-32 covers the [size - 4]
    bytes that follow the length. *)
Definition store_data (servers : list MonitorServer) (master : option MonitorServer)
    (size : Z) : list byte :=
  let body := [MMB_SCHEMA_VERSION] ++ concat (store_server_entry <$> servers)
              ++ store_master_entry master in
  let crc := crc32 (crc32 0 []) (take (Z.to_nat (size - MMB_LEN_CRC32)) body) in
  mxs_set_byte4 size ++ body ++ mxs_set_byte4 crc.

(** The size computation of [store_server_journal], in [uint32_t]. *)
Definition journal_size (servers : list MonitorServer) (master : option MonitorServer) : Z :=
  let size0 := MMB_LEN_SCHEMA_VERSION + MMB_LEN_CRC32 in
  let size1 :=
    foldl (λ size db,
             (size + (MMB_LEN_VALUE_TYPE
                      + Z.of_nat (length (name_bytes (name (server db))))
                      + 1 + MMB_LEN_SERVER_STATUS)) mod 2 ^ 32)
          size0 servers in
  match master with
  | Some db =>
      (size1 + (MMB_LEN_VALUE_TYPE
                + Z.of_nat (length (name_bytes (name (server db)))) + 1)) mod 2 ^ 32
  | None => size1
  end.

(** What happens to the temporary file of one journal write: [open_tmp_file]
    fails, [fwrite] or [fflush] fails, [rename] fails, or all succeed. *)
Inductive io_outcome := IO_OPEN_FAILS | IO_WRITE_FAILS | IO_RENAME_FAILS | IO_OK.

Section JournalWrite.
(** OpenSSL's [SHA1], a parameter. *)
Context (SHA1 : list byte → (list byte)).

(** [Monitor::store_server_journal]. [master] is the server [m_master]
    points to. The result is the monitor (its stored hash), the contents of
    monitor.dat afterwards and the effects. [None] is undefined behaviour:
    the [uint32_t] size wrapped around and [store_data] writes past the
    allocation. *)
Definition store_server_journal (m : Monitor) (master : option MonitorServer)
    (journal_file : option (list byte)) (io : io_outcome)
    : option (Monitor * option (list byte) * list effect) :=
  let size := journal_size (m_servers m) master in
  let buffer_size := (size + MMB_LEN_BYTES) mod 2 ^ 32 in
  let data := store_data (m_servers m) master size in
  if bool_decide (Z.of_nat (length data) = buffer_size) then
    let hash := SHA1 (take (Z.to_nat size) data) in
    if bool_decide (m_journal_hash m ≠ hash) then
      match io with
      | IO_OPEN_FAILS => Some (m, journal_file, [FILE_OPEN_TMP; ERROR_open_tmp_file])
      | IO_WRITE_FAILS =>
          Some (m, journal_file, [FILE_OPEN_TMP; FILE_WRITE data; ERROR_write_journal])
      | IO_RENAME_FAILS =>
          Some (m, journal_file,
                [FILE_OPEN_TMP; FILE_WRITE data; FILE_RENAME; ERROR_rename_journal;
                 FILE_UNLINK_TMP])
      | IO_OK =>
          Some (with_journal_hash m hash, Some data,
                [FILE_OPEN_TMP; FILE_WRITE data; FILE_RENAME])
      end
    else Some (m, journal_file, [])
  else None.
End JournalWrite.

(** The read path works on the buffer [data] of [size] bytes read from the
    file; pointers into it are offsets. *)

(** [has_null_terminator]: is there a terminator in [data, end)? *)
Definition has_null_terminator (buf : list byte) (data end_ : nat) : bool :=
  bool_decide (x00 ∈ take (end_ - data) (drop data buf)).

(** [strcmp(db->server->name(), data) == 0] *)
Definition name_matches (db : MonitorServer) (buf : list byte) (data : nat) : bool :=
  bool_decide (name_bytes (name (server db)) = c_str buf data).

(** The [n] bytes at offset [p]; [None] when they are not all inside the
    buffer (the read is undefined behaviour then). *)
Definition read_bytes (buf : list byte) (p n : nat) : option (list byte) :=
  if bool_decide (p + n ≤ length buf)%nat then Some (take n (drop p buf)) else None.

(** What [process_server] does to the server that matches. *)
Definition load_status (db : MonitorServer) (st : Z) : MonitorServer :=
  set_pending_status (with_server (with_prev_status db st) (set_status (server db) st)) st.

(** The loop of [process_server]: the first server with the stored name
    gets the stored status. *)
Fixpoint process_server_loop (buf : list byte) (data : nat)
    (servers : list MonitorServer) : option (list MonitorServer) :=
  match servers with
  | [] => Some []
  | db :: rest =>
      if name_matches db buf data then
        bytes ← read_bytes buf (data + strlen buf data + 1) (Z.to_nat MMB_LEN_SERVER_STATUS);
        Some (load_status db (get_byteN bytes) :: rest)
      else
        rest' ← process_server_loop buf data rest;
        Some (db :: rest')
  end.

(** [process_server]: the servers and the returned pointer. The parameter
    [end] of the source is not used by it. *)
Definition process_server (servers : list MonitorServer) (buf : list byte) (data : nat)
    : option (list MonitorServer * nat) :=
  servers' ← process_server_loop buf data servers;
  Some (servers', (data + strlen buf data + 1 + Z.to_nat MMB_LEN_SERVER_STATUS)%nat).

(** The loop of [process_master]: the index of the first server with the
    stored name. *)
Fixpoint process_master_loop (buf : list byte) (data : nat)
    (servers : list MonitorServer) (idx : nat) : option nat :=
  match servers with
  | [] => None
  | db :: rest =>
      if name_matches db buf data then Some idx
      else process_master_loop buf data rest (S idx)
  end.

(** [process_master]: [*master] afterwards and the returned pointer. *)
Definition process_master (servers : list MonitorServer) (master : option nat)
    (buf : list byte) (data : nat) : option nat * nat :=
  (match process_master_loop buf data servers 0 with
   | Some i => Some i
   | None => master
   end,
   (data + strlen buf data + 1)%nat).

(** The outcome of [process_data_file]: it returned true, or it logged one
    error and returned false (both with the servers and the master as they
    are then), or a read left the buffer, or the model's fuel ran out. *)
Inductive decode_result :=
| DECODE_OK (servers : list MonitorServer) (master : option nat)
| DECODE_ERROR (e : effect) (servers : list MonitorServer) (master : option nat)
| DECODE_UNDEFINED
| DECODE_OUT_OF_FUEL.

Fixpoint process_data_file_loop (fuel : nat) (buf : list byte) (crc_ptr : nat)
    (servers : list MonitorServer) (master : option nat) (ptr : nat) : decode_result :=
  if bool_decide (ptr < crc_ptr)%nat then
    match fuel with
    | O => DECODE_OUT_OF_FUEL
    | S fuel' =>
        (* All values contain a null terminated string *)
        if negb (has_null_terminator buf ptr crc_ptr) then
          DECODE_ERROR ERROR_journal_no_null_terminator servers master
        else
          match buf !! ptr with
          | None => DECODE_UNDEFINED
          | Some type =>
              let ptr := (ptr + Z.to_nat MMB_LEN_VALUE_TYPE)%nat in
              if bool_decide (type = SVT_SERVER) then
                match process_server servers buf ptr with
                | Some (servers', ptr') =>
                    process_data_file_loop fuel' buf crc_ptr servers' master ptr'
                | None => DECODE_UNDEFINED
                end
              else if bool_decide (type = SVT_MASTER) then
                let '(master', ptr') := process_master servers master buf ptr in
                process_data_file_loop fuel' buf crc_ptr servers master' ptr'
              else
                DECODE_ERROR ERROR_journal_unknown_value servers master
          end
    end
  else DECODE_OK servers master.

(** [process_data_file]: every iteration moves [ptr] forward, so
    [crc_ptr - data] iterations are enough. *)
Definition process_data_file (servers : list MonitorServer) (master : option nat)
    (buf : list byte) (data crc_ptr : nat) : decode_result :=
  process_data_file_loop (crc_ptr - data) buf crc_ptr servers master data.

(** [check_crc32] *)
Definition check_crc32 (data : list byte) (crc_bytes : list byte) : bool :=
  let crc := get_byteN crc_bytes in
  let calculated_crc := crc32 (crc32 0 []) data in
  calculated_crc =? crc.

(** [Monitor::load_server_journal]. [file] is the contents of monitor.dat;
    [None] is the file that does not exist ([fopen] fails with [ENOENT]),
    for which [open_data_file] logs nothing. The other ways in which
    [open_data_file] fails (a path that is too long, [fopen] failing for
    another reason), which log an error and load nothing, are left out of
    the model. The result is the servers, [*master] and the effects; [None]
    is undefined behaviour. The length is read as the machine stores a
    [uint32_t], little-endian; allocation succeeds. *)
Definition load_server_journal (servers : list MonitorServer) (master : option nat)
    (file : option (list byte)) : option (list MonitorServer * option nat * list effect) :=
  match file with
  | None => Some (servers, master, [])
  | Some contents =>
      let bytes := length (take (Z.to_nat MMB_LEN_BYTES) contents) in
      if bool_decide (Z.of_nat bytes = MMB_LEN_BYTES) then
        let size := get_byteN (take (Z.to_nat MMB_LEN_BYTES) contents) in
        let data := take (Z.to_nat size) (drop (Z.to_nat MMB_LEN_BYTES) contents) in
        if bool_decide (Z.of_nat (length data) = size) then
          match data !! 0%nat with
          | None => None
          | Some version =>
              if bool_decide (version = MMB_SCHEMA_VERSION) then
                if bool_decide (size < MMB_LEN_CRC32) then None
                else
                  let crc_ptr := Z.to_nat (size - MMB_LEN_CRC32) in
                  if check_crc32 (take crc_ptr data) (drop crc_ptr data) then
                    match process_data_file servers master data
                            (Z.to_nat MMB_LEN_SCHEMA_VERSION) crc_ptr with
                    | DECODE_OK servers' master' =>
                        Some (servers', master', [NOTICE_loaded_journal])
                    | DECODE_ERROR e servers' master' => Some (servers', master', [e])
                    | DECODE_UNDEFINED | DECODE_OUT_OF_FUEL => None
                    end
                  else Some (servers, master, [ERROR_crc32_mismatch])
              else Some (servers, master, [ERROR_unknown_schema_version version])
          end
        else Some (servers, master, [ERROR_read_journal size (length data)])
      else Some (servers, master, [ERROR_read_journal_length bytes])
  end.

(** ** Admin requests *)

Section AdminRequests.
Context `{ServerBits}.

(** What [check_maintenance_requests] does to one server: the request is
    exchanged for [NO_CHANGE] and applied. *)
Definition apply_status_request (ptr : MonitorServer) : MonitorServer :=
  let admin_msg := status_request ptr in
  let ptr := with_status_request ptr NO_CHANGE in
  match admin_msg with
  | MAINT_ON => with_server ptr (set_status (server ptr) SERVER_MAINT)
  | MAINT_OFF => with_server ptr (clear_status (server ptr) SERVER_MAINT)
  | BEING_DRAINED_ON => with_server ptr (set_status (server ptr) SERVER_DRAINING)
  | BEING_DRAINED_OFF => with_server ptr (clear_status (server ptr) SERVER_DRAINING)
  | NO_CHANGE => ptr
  end.

(** [Monitor::check_maintenance_requests] *)
Definition check_maintenance_requests (m : Monitor) : Monitor :=
  let was_pending := m_status_change_pending m in
  let m := with_status_change_pending m false in
  if was_pending then with_servers m (apply_status_request <$> m_servers m)
  else m.

(** [Monitor::get_monitored_server]: the index of the server. *)
Definition get_monitored_server (m : Monitor) (search_server : string) : option nat :=
  fst <$> list_find (λ d, name (server d) = search_server) (m_servers m).

(** The common body of [set_server_status] and [clear_server_status] while
    the monitor runs: post the request. *)
Definition post_status_request (m : Monitor) (i : nat) (msrv : MonitorServer)
    (request : status_request_t) : Monitor * list effect :=
  let previous_request := status_request msrv in
  let m' := with_servers m (<[i := with_status_request msrv request]> (m_servers m)) in
  (with_status_change_pending m' true,
   if bool_decide (previous_request ≠ NO_CHANGE) then [WARNING_request_overwritten] else []).

(** [Monitor::set_server_status]: the result is [written], the monitor and
    the effects. *)
Definition set_server_status (m : Monitor) (srv : string) (bit : Z)
    : bool * Monitor * list effect :=
  match get_monitored_server m srv ≫= λ i, (i,.) <$> m_servers m !! i with
  | None => (false, m, [ERROR_not_monitored srv])
  | Some (i, msrv) =>
      match m_state m with
      | MONITOR_STATE_RUNNING =>
          if nonzero (Z.land bit (Z.lnot (Z.lor SERVER_MAINT SERVER_DRAINING))) then
            (false, m, [ERROR_cannot_modify])
          else
            let request :=
              if nonzero (Z.land bit SERVER_MAINT) then MAINT_ON else BEING_DRAINED_ON in
            let '(m', log) := post_status_request m i msrv request in
            (true, m', log)
      | MONITOR_STATE_STOPPED =>
          (* The monitor is not running, the bit can be set directly *)
          (true,
           with_servers m (<[i := with_server msrv (set_status (server msrv) bit)]> (m_servers m)),
           [])
      end
  end.

(** [Monitor::clear_server_status] *)
Definition clear_server_status (m : Monitor) (srv : string) (bit : Z)
    : bool * Monitor * list effect :=
  match get_monitored_server m srv ≫= λ i, (i,.) <$> m_servers m !! i with
  | None => (false, m, [ERROR_not_monitored srv])
  | Some (i, msrv) =>
      match m_state m with
      | MONITOR_STATE_RUNNING =>
          if nonzero (Z.land bit (Z.lnot (Z.lor SERVER_MAINT SERVER_DRAINING))) then
            (false, m, [ERROR_cannot_modify])
          else
            let request :=
              if nonzero (Z.land bit SERVER_MAINT) then MAINT_OFF else BEING_DRAINED_OFF in
            let '(m', log) := post_status_request m i msrv request in
            (true, m', log)
      | MONITOR_STATE_STOPPED =>
          (* The monitor is not running, the bit can be cleared directly *)
          (true,
           with_servers m (<[i := with_server msrv (clear_status (server msrv) bit)]> (m_servers m)),
           [])
      end
  end.
End AdminRequests.

(** ** The tick *)

(** What the world answers during one tick. *)
Record TickEnv := mkTickEnv {
  (** [ping_or_connect] on the server of that name: the result and
      [mysql_errno] of the connection afterwards *)
  ping_or_connect : string → mxs_connect_result_t * mysql_errno_t;
  (** [disk::get_info_by_path] on the connection of that server *)
  get_info_by_path : string → get_info_result;
  (** the timer test of [check_disk_space_this_tick] *)
  check_disk_space_this_tick : bool;
  (** [mxs_clock()] *)
  mxs_clock : Z;
  (** the fate of the journal's temporary file *)
  journal_io : io_outcome
}.

Section Tick.
Context `{ServerBits}.
(** OpenSSL's [SHA1]. *)
Context (SHA1 : list byte → (list byte)).
(** [SERVER::is_usable] and [SERVER::is_in_cluster] of
    include/maxscale/server.hh, not in src/; only the hang-up of client
    connections depends on them. *)
Context (is_usable is_in_cluster : SERVER → bool).
(** The pure virtual [update_server_status] of the monitor module. It is
    given [m_master], the position of the server in [m_servers] and the
    server with its pending status, and yields the pending status and
    [m_master] it leaves behind. *)
Context (update_server_status : option nat → nat → MonitorServer → Z * option nat).

(** [MonitorWorker::flush_server_status] *)
Definition flush_server_status (servers : list MonitorServer) : list MonitorServer :=
  (λ pMs, if negb (is_in_maint (server pMs))
          then with_server pMs (with_status (server pMs) (pending_status pMs))
          else pMs) <$> servers.

(** The locals of [detect_handle_state_changes] with the effects so far. *)
Record detect_state := mkDetectState {
  master_down : bool;
  master_up : bool;
  detect_log : list effect
}.

(** The body of the loop of [detect_handle_state_changes] for one server. *)
Definition detect_server (settings : Settings) (clock : Z) (st : detect_state)
    (ptr : MonitorServer) : MonitorServer * detect_state :=
  if status_changed (mon_prev_status ptr) (status (server ptr)) then
    let event := get_event_type (mon_prev_status ptr) (status (server ptr)) in
    let ptr' := with_server ptr (with_event (server ptr) event clock) in
    let log := [NOTICE_state_change (name (server ptr)) event
                  (mon_prev_status ptr) (status (server ptr))] in
    let down := if bool_decide (event = MASTER_DOWN_EVENT) then true else master_down st in
    let up :=
      if bool_decide (event = MASTER_DOWN_EVENT) then master_up st
      else if bool_decide (event = MASTER_UP_EVENT ∨ event = NEW_MASTER_EVENT) then true
      else master_up st in
    let launch :=
      if negb (bool_decide (script settings = "")) && events settings event
      then [LAUNCH_SCRIPT (name (server ptr)) event] else [] in
    (ptr', mkDetectState down up (detect_log st ++ log ++ launch))
  else (ptr, st).

Fixpoint detect_loop (settings : Settings) (clock : Z) (st : detect_state)
    (servers : list MonitorServer) : list MonitorServer * detect_state :=
  match servers with
  | [] => ([], st)
  | ptr :: rest =>
      let '(ptr', st') := detect_server settings clock st ptr in
      let '(rest', st'') := detect_loop settings clock st' rest in
      (ptr' :: rest', st'')
  end.

(** [Monitor::detect_handle_state_changes] *)
Definition detect_handle_state_changes (settings : Settings) (clock : Z)
    (servers : list MonitorServer) : list MonitorServer * list effect :=
  let '(servers', st) := detect_loop settings clock (mkDetectState false false []) servers in
  (servers',
   detect_log st ++ (if master_down st && master_up st then [NOTICE_master_switch] else [])).

(** [Monitor::hangup_failed_servers] *)
Definition hangup_failed_servers (servers : list MonitorServer) : list effect :=
  omap (λ ptr,
          if status_changed (mon_prev_status ptr) (status (server ptr))
             && (negb (is_usable (server ptr)) || negb (is_in_cluster (server ptr)))
          then Some (HANGUP (name (server ptr))) else None) servers.

(** The body of the loop of [MonitorWorkerSimple::tick] for the server at
    position [idx]. *)
Definition tick_server (env : TickEnv) (master : option nat) (idx : nat)
    (pMs : MonitorServer) : option (MonitorServer * option nat * list effect) :=
  if negb (is_in_maint (server pMs)) then
    let pMs := with_prev_status pMs (status (server pMs)) in
    let pMs := with_pending_status pMs (status (server pMs)) in
    let '(rval, errno) := ping_or_connect env (name (server pMs)) in
    r ←
      (if connection_is_ok rval then
         let pMs := clear_pending_status pMs SERVER_AUTH_ERROR in
         let pMs := set_pending_status pMs SERVER_RUNNING in
         d ← (if check_disk_space_this_tick env && can_update_disk_space_status pMs
              then update_disk_space_status pMs (get_info_by_path env (name (server pMs)))
              else Some (pMs, []));
         let '(pending, master') := update_server_status master idx d.1 in
         Some (with_pending_status d.1 pending, master', d.2)
       else
         let bits_to_clear := Z.land (Z.lnot SERVER_WAS_MASTER) UINT64_MINUS_ONE in
         let pMs := clear_pending_status pMs bits_to_clear in
         let pMs :=
           match errno with
           | ER_ACCESS_DENIED_ERROR => set_pending_status pMs SERVER_AUTH_ERROR
           | _ => clear_pending_status pMs SERVER_AUTH_ERROR
           end in
         Some (pMs, master,
               if status_changed (mon_prev_status pMs) (status (server pMs))
                  && should_print_fail_status pMs
               then [ERROR_connect (name (server pMs)) rval] else []));
    let '(pMs, master', log) := r in
    let pMs :=
      if is_down (server pMs) then with_err_count pMs (mon_err_count pMs + 1)
      else with_err_count pMs 0 in
    Some (pMs, master', log)
  else Some (pMs, master, []).

(** The loop over [m_servers]. *)
Fixpoint tick_servers (env : TickEnv) (master : option nat) (idx : nat)
    (servers : list MonitorServer)
    : option (list MonitorServer * option nat * list effect) :=
  match servers with
  | [] => Some ([], master, [])
  | pMs :: rest =>
      r ← tick_server env master idx pMs;
      r' ← tick_servers env r.1.2 (S idx) rest;
      Some (r.1.1 :: r'.1.1, r'.1.2, r.2 ++ r'.2)
  end.

(** The state of a monitor at the end of a phase of the tick, with the
    journal file and the effects so far. *)
Record tick_result := mkTickResult {
  tr_monitor : Monitor;
  tr_journal : option (list byte);
  tr_effects : list effect
}.

(** [MonitorWorkerSimple::tick]; [pre_tick] and [post_tick] are empty. *)
Definition tick (m : Monitor) (env : TickEnv) (journal_file : option (list byte))
    : option tick_result :=
  let m := check_maintenance_requests m in
  r ← tick_servers env (m_master m) 0 (m_servers m);
  let '(servers, master, log1) := r in
  let servers := flush_server_status servers in
  let '(servers, log2) := detect_handle_state_changes (m_settings m) (mxs_clock env) servers in
  let log3 := hangup_failed_servers servers in
  let m := with_master (with_servers m servers) master in
  j ← store_server_journal SHA1 m (master ≫= λ i, servers !! i) journal_file (journal_io env);
  let '(m, journal_file', log4) := j in
  Some (mkTickResult m journal_file' (log1 ++ log2 ++ log3 ++ log4)).

(** [MonitorWorker::run_one_tick] *)
Definition run_one_tick (m : Monitor) (env : TickEnv) (journal_file : option (list byte))
    : option tick_result :=
  r ← tick m env journal_file;
  Some (mkTickResult (with_ticks (tr_monitor r) (m_ticks (tr_monitor r) + 1))
                     (tr_journal r) (tr_effects r)).

(** [MonitorWorkerSimple::pre_loop] *)
Definition pre_loop (m : Monitor) (journal_file : option (list byte))
    : option (Monitor * list effect) :=
  r ← load_server_journal (m_servers m) None journal_file;
  Some (with_master (with_servers m r.1.1) r.1.2, r.2).
End Tick.

(** ** Vocabulary of the statements *)

(** The mask with exactly the bits of [l] set. *)
Definition mask (l : list N) : Z := foldr (λ k m, Z.lor (flag k) m) 0 l.

(** The bits of [x] at the positions [l]. *)
Definition view (l : list N) (x : Z) : list bool :=
  (λ k, Z.testbit x (Z.of_N k)) <$> l.

Section StatusVocabulary.
Context `{ServerBits}.

(** The positions of the bits of [all_server_bits]. *)
Definition reportable_positions : list N :=
    [pos_RUNNING; pos_MAINT; pos_MASTER; pos_SLAVE; pos_JOINED].


(** The five reportable bits of a status word. *)
Definition reportable (x : Z) : list bool := view reportable_positions x.

(** The classifier on the five bits (running, maintenance, master, slave,
    joined) of the two words: what [get_event_type] computes. *)
Definition classify (p c : list bool) : mxs_monitor_event_t :=
  match p, c with
  | [pr; pt; pm; ps; pj], [cr; ct; cm; cs; cj] =>
      if bool_decide (p = c) then UNDEFINED_EVENT
      else if negb pr then
        if cr then
          (if cm then MASTER_UP_EVENT else if cs then SLAVE_UP_EVENT
           else if cj then SYNCED_UP_EVENT else SERVER_UP_EVENT)
        else UNDEFINED_EVENT
      else if negb cr then
        (if pm then MASTER_DOWN_EVENT else if ps then SLAVE_DOWN_EVENT
         else if pj then SYNCED_DOWN_EVENT else SERVER_DOWN_EVENT)
      else if (negb (pm || ps) || negb (cm || cs) || bool_decide ((pm, ps) = (cm, cs)))
              && (pm || ps || pj) then
        (if pm then LOST_MASTER_EVENT else if ps then LOST_SLAVE_EVENT
         else if pj then LOST_SYNCED_EVENT else UNDEFINED_EVENT)
      else
        (if cm then NEW_MASTER_EVENT else if cs then NEW_SLAVE_EVENT
         else if cj then NEW_SYNCED_EVENT else UNDEFINED_EVENT)
  | _, _ => UNDEFINED_EVENT
  end.


(** The bitmap has the flag. *)
Definition has_bit (x bit : Z) : bool := nonzero (Z.land x bit).

(** The bitmap has one of the role bits. *)
Definition has_role (x : Z) : bool := nonzero (Z.land x server_type_bits).
End StatusVocabulary.

(** The error numbers that [test_permissions] takes for a denied login. *)
Definition login_denied (e : mysql_errno_t) : bool :=
  match e with
  | ER_ACCESS_DENIED_ERROR | ER_DBACCESS_DENIED_ERROR
  | ER_ACCESS_DENIED_NO_PASSWORD_ERROR => true
  | _ => false
  end.

(** The error numbers that [test_permissions] takes for a query the monitor
    user may not run. *)
Definition query_denied (e : mysql_errno_t) : bool :=
  match e with
  | ER_TABLEACCESS_DENIED_ERROR | ER_COLUMNACCESS_DENIED_ERROR
  | ER_SPECIFIC_ACCESS_DENIED_ERROR | ER_PROCACCESS_DENIED_ERROR
  | ER_KILL_DENIED_ERROR => true
  | _ => false
  end.

(** A monitor and a server to run the definitions on. *)
Definition sample_settings : Settings := mkSettings "" (λ _, false) [].

Definition sample_monitor (servers : list MonitorServer) : Monitor :=
  mkMonitor "Monitor" sample_settings servers (replicate 20 x00) false None
            MONITOR_STATE_STOPPED false 0.

Definition sample_server (n : string) (st : Z) : MonitorServer :=
  new_MonitorServer (mkSERVER n st UNDEFINED_EVENT 0 []) [].

(** A server with given disk space limits of the monitor and a pending
    status, to run the disk space check on. *)
Definition sample_disk_server (limits : DiskSpaceLimits) (pending : Z) : MonitorServer :=
  mkMonitorServer (mkSERVER "A" 1 UNDEFINED_EVENT 0 []) 1 pending 0 NO_CHANGE true limits.

(** The number of [fwrite] calls among the effects. *)
Definition is_file_write (e : effect) : bool :=
  match e with FILE_WRITE _ => true | _ => false end.

Definition file_writes (log : list effect) : nat :=
  length (filter (λ e, is_file_write e = true) log).

(** The entries of a journal payload, and what decoding one does to the
    servers and to the noted master. *)
Inductive journal_entry :=
| SERVER_ENTRY (n : list byte) (st : Z)
| MASTER_ENTRY (n : list byte).

Definition encode_entry (e : journal_entry) : list byte :=
  match e with
  | SERVER_ENTRY n st =>
      [SVT_SERVER] ++ n ++ [x00] ++ set_byteN st (Z.to_nat MMB_LEN_SERVER_STATUS)
  | MASTER_ENTRY n => [SVT_MASTER] ++ n ++ [x00]
  end.

Definition encode_entries (es : list journal_entry) : list byte :=
  concat (encode_entry <$> es).

(** An entry as the write path produces it: the name has no terminator
    inside and the status is a [uint64_t]. *)
Definition entry_ok (e : journal_entry) : Prop :=
  match e with
  | SERVER_ENTRY n st => (x00 ∉ n) ∧ (0 ≤ st < 2 ^ 64)
  | MASTER_ENTRY n => x00 ∉ n
  end.

(** The first server named [n] gets the status [st]. *)
Fixpoint apply_server (n : list byte) (st : Z) (servers : list MonitorServer)
    : list MonitorServer :=
  match servers with
  | [] => []
  | db :: rest =>
      if bool_decide (name_bytes (name (server db)) = n)
      then load_status db st :: rest
      else db :: apply_server n st rest
  end.

(** The position of the first server named [n], counted from [idx]. *)
Fixpoint find_server (n : list byte) (servers : list MonitorServer) (idx : nat)
    : option nat :=
  match servers with
  | [] => None
  | db :: rest =>
      if bool_decide (name_bytes (name (server db)) = n) then Some idx
      else find_server n rest (S idx)
  end.

Definition apply_entry (s : list MonitorServer * option nat) (e : journal_entry)
    : list MonitorServer * option nat :=
  match e with
  | SERVER_ENTRY n st => (apply_server n st s.1, s.2)
  | MASTER_ENTRY n =>
      (s.1, match find_server n s.1 0 with Some i => Some i | None => s.2 end)
  end.

Definition apply_entries (s : list MonitorServer * option nat)
    (es : list journal_entry) : list MonitorServer * option nat :=
  foldl apply_entry s es.

(** A journal record around a payload: length, schema version, payload and
    the CRC-32 of version and payload. *)
Definition journal_record (payload : list byte) : list byte :=
  mxs_set_byte4 (MMB_LEN_SCHEMA_VERSION + Z.of_nat (length payload) + MMB_LEN_CRC32)
  ++ [MMB_SCHEMA_VERSION] ++ payload
  ++ mxs_set_byte4 (crc32 0 ([MMB_SCHEMA_VERSION] ++ payload)).

(** The entries that [store_data] writes for a snapshot. *)
Definition snapshot_entries (servers : list MonitorServer) (master : option MonitorServer)
    : list journal_entry :=
  ((λ db, SERVER_ENTRY (journal_name db) (status (server db))) <$> servers)
  ++ match master with
     | Some db => [MASTER_ENTRY (journal_name db)]
     | None => []
     end.

(** The server that a master pointer (kept as an index) points to. *)
Definition deref (servers : list MonitorServer) (master : option nat)
    : option MonitorServer :=
  match master with
  | Some i => servers !! i
  | None => None
  end.

(** A legal snapshot: the monitored servers have distinct names, each
    status is a [uint64_t], the master (if any) is one of the servers, and
    the record's length fits the [uint32_t] that holds it. *)
Definition legal_snapshot (servers : list MonitorServer) (master : option nat) : Prop :=
  NoDup (journal_name <$> servers)
  ∧ Forall (λ db, 0 ≤ status (server db) < 2 ^ 64) servers
  ∧ (∀ i, master = Some i → (i < length servers)%nat)
  ∧ MMB_LEN_BYTES + MMB_LEN_SCHEMA_VERSION
    + Z.of_nat (length (encode_entries (snapshot_entries servers (deref servers master))))
    + MMB_LEN_CRC32 < 2 ^ 32.

(** A world in which every probe succeeds, no disk is checked and the
    journal can be written; a module that leaves the pending status and the
    master alone; and stand-ins for the functions that are parameters. *)
Definition sample_env : TickEnv :=
  mkTickEnv (λ _, (MONITOR_CONN_NEWCONN_OK, ER_OTHER 0)) (λ _, INFO_OK []) false 0 IO_OK.

Definition sample_update (master : option nat) (idx : nat) (d : MonitorServer)
    : Z * option nat :=
  (pending_status d, master).

Definition sample_digest (data : list byte) : list byte := take 20 data.

Definition sample_running_monitor (servers : list MonitorServer) : Monitor :=
  with_state (sample_monitor servers) MONITOR_STATE_RUNNING.

(** The state changes among the effects: server and event, in order. *)
Definition state_changes (log : list effect) : list (string * mxs_monitor_event_t) :=
  omap (λ e, match e with
             | NOTICE_state_change srv event _ _ => Some (srv, event)
             | _ => None
             end) log.

(** The status a server that was down has after a successful probe and a
    module that gives it the role [role]. *)
Definition probed_status `{ServerBits} (st role : Z) : Z :=
  Z.lor (Z.lor (clear_bits st SERVER_AUTH_ERROR) SERVER_RUNNING) role.

(** A module for the cold start: the first server is the master and is
    noted as such, every other server is a slave. *)
Definition cold_start_update `{ServerBits} (master : option nat) (idx : nat)
    (d : MonitorServer) : Z * option nat :=
  match idx with
  | O => (Z.lor (pending_status d) SERVER_MASTER, Some 0%nat)
  | S _ => (Z.lor (pending_status d) SERVER_SLAVE, master)
  end.

(** ** Vocabulary for the tick *)

(** Is the effect the error line of [log_connect_error]? *)
Definition is_connect_error (e : effect) : bool :=
  match e with ERROR_connect _ _ => true | _ => false end.

(** The names of the monitored servers, in order. *)
Definition server_names (servers : list MonitorServer) : list string :=
  (λ d, name (server d)) <$> servers.

(** What [flush_server_status] does to one server. *)
Definition flushed `{ServerBits} (pMs : MonitorServer) : MonitorServer :=
  if negb (is_in_maint (server pMs))
  then with_server pMs (with_status (server pMs) (pending_status pMs))
  else pMs.

(** A world in which every connection is refused. *)
Definition sample_env_refused : TickEnv :=
  mkTickEnv (λ _, (MONITOR_CONN_REFUSED, ER_OTHER 2003)) (λ _, INFO_OK []) false 0 IO_OK.

(** The status that the tick loop leaves to a server whose probe failed:
    of the old status only [WAS_MASTER] survives, and [AUTH_ERROR] is set
    when the server refused the login. *)
Definition failed_probe_status `{ServerBits} (st : Z) (errno : mysql_errno_t) : Z :=
  match errno with
  | ER_ACCESS_DENIED_ERROR => Z.lor (Z.land st SERVER_WAS_MASTER) SERVER_AUTH_ERROR
  | _ => Z.land st SERVER_WAS_MASTER
  end.

(** The [*_DOWN] event of a status, by its highest role. *)
Definition down_event `{ServerBits} (st : Z) : mxs_monitor_event_t :=
  if has_bit st SERVER_MASTER then MASTER_DOWN_EVENT
  else if has_bit st SERVER_SLAVE then SLAVE_DOWN_EVENT
  else if has_bit st SERVER_JOINED then SYNCED_DOWN_EVENT
  else SERVER_DOWN_EVENT.

(** The [*_UP] event of a status, by its highest role. *)
Definition up_event `{ServerBits} (st : Z) : mxs_monitor_event_t :=
  if has_bit st SERVER_MASTER then MASTER_UP_EVENT
  else if has_bit st SERVER_SLAVE then SLAVE_UP_EVENT
  else if has_bit st SERVER_JOINED then SYNCED_UP_EVENT
  else SERVER_UP_EVENT.

(** The [LOST_*] event of a status, by its highest role; there is none for
    a status without a role. *)
Definition lost_event `{ServerBits} (st : Z) : mxs_monitor_event_t :=
  if has_bit st SERVER_MASTER then LOST_MASTER_EVENT
  else if has_bit st SERVER_SLAVE then LOST_SLAVE_EVENT
  else if has_bit st SERVER_JOINED then LOST_SYNCED_EVENT
  else UNDEFINED_EVENT.

(** The [NEW_*] event of a status, by its highest role. *)
Definition new_event `{ServerBits} (st : Z) : mxs_monitor_event_t :=
  if has_bit st SERVER_MASTER then NEW_MASTER_EVENT
  else if has_bit st SERVER_SLAVE then NEW_SLAVE_EVENT
  else if has_bit st SERVER_JOINED then NEW_SYNCED_EVENT
  else UNDEFINED_EVENT.

(** The status bits that are not among [all_server_bits]. *)
Definition silent_bits `{ServerBits} : list Z :=
  [SERVER_AUTH_ERROR; SERVER_DRAINING; SERVER_DISK_SPACE_EXHAUSTED; SERVER_WAS_MASTER].

(** ** Taking a monitor out of service *)

(** Modelled from the spec: [Monitor::stop] calls [do_stop], which shuts the
    worker down and joins it ([Worker::shutdown] and [Worker::join] of
    maxbase, not in src/); [state()] is [MONITOR_STATE_STOPPED] afterwards.
    The connections it closes are not part of the model. *)
Definition stop (m : Monitor) : Monitor := with_state m MONITOR_STATE_STOPPED.

(** [Monitor::deactivate] *)
Definition deactivate (m : Monitor) (this_unit : ThisUnit.owners_t)
    : Monitor * ThisUnit.owners_t * list effect :=
  let m :=
    match m_state m with
    | MONITOR_STATE_RUNNING => stop m
    | MONITOR_STATE_STOPPED => m
    end in
  remove_all_servers m this_unit.

(** [Monitor::populate_services] *)
Definition populate_services (m : Monitor) : list effect :=
  (λ pMs, SERVICE_ADD_SERVER (name (server pMs))) <$> m_servers m.

(** [Monitor::get_server_monitor] *)
Definition get_server_monitor (this_unit : ThisUnit.owners_t) (srv : SERVER) : string :=
  ThisUnit.claimed_by this_unit (name srv).

(** The table has the monitor as the owner of each of its servers. *)
Definition owns (m : Monitor) (this_unit : ThisUnit.owners_t) : Prop :=
  Forall (λ d, this_unit !! name (server d) = Some (m_name m)) (m_servers m).

(** The server name of a journal entry. *)
Definition entry_name (e : journal_entry) : list byte :=
  match e with
  | SERVER_ENTRY n _ => n
  | MASTER_ENTRY n => n
  end.

(** The bytes that the entries of servers of these names take in a
    journal: type, name, terminator and status for each. *)
Definition names_size (names : list string) : Z :=
  foldr (λ n acc, Z.of_nat (length (name_bytes n)) + 10 + acc) 0 names.

(** Vocabulary for the state change pass: whether a server counts as
    changed, and the event it gets then. *)
Definition changed `{ServerBits} (ptr : MonitorServer) : bool :=
  status_changed (mon_prev_status ptr) (status (server ptr)).

Definition event_of `{ServerBits} (ptr : MonitorServer) : mxs_monitor_event_t :=
  get_event_type (mon_prev_status ptr) (status (server ptr)).

(** The scripts launched among the effects: server and event, in order. *)
Definition launches (log : list effect) : list (string * mxs_monitor_event_t) :=
  omap (λ e, match e with
             | LAUNCH_SCRIPT srv event => Some (srv, event)
             | _ => None
             end) log.

(** ** The worker's timer *)

(** Modelled from the spec: [Worker::Call::action_t] of maxbase/worker.hh,
    not in src/: a delayed call is run with [EXECUTE] when its time has
    come and with [CANCEL] when it is cancelled. *)
Inductive action_t := EXECUTE | CANCEL.

(** [int64_t] subtraction; overflow is undefined. *)
Definition int64_sub (a b : Z) : option Z :=
  let r := a - b in
  if (- 2 ^ 63 <=? r) && (r <? 2 ^ 63) then Some r else None.

(** What one run of [call_run_one_tick] leaves: the monitor, the journal
    file, the effects, [m_loop_called], and the delay of the next
    [delayed_call], if it makes one. *)
Record worker_call := mkWorkerCall {
  wc_monitor : Monitor;
  wc_journal : option (list byte);
  wc_effects : list effect;
  wc_loop_called : Z;
  wc_next_call : option Z
}.

Section Worker.
Context `{ServerBits}.
Context (SHA1 : list byte → list byte).
Context (is_usable is_in_cluster : SERVER → bool).
Context (update_server_status : option nat → nat → MonitorServer → Z * option nat).

(** [Monitor::server_status_request_waiting] *)
Definition server_status_request_waiting (m : Monitor) : bool := m_status_change_pending m.

(** [MonitorWorker::call_run_one_tick]. [m_loop_called] and
    [settings().interval] are not among the members that [Monitor] keeps
    here and are given. [now1] and [now2] are what [get_time_ms] returns
    before and after the tick, [immediate_tick_required] the answer of the
    virtual function of that name. *)
Definition call_run_one_tick (m : Monitor) (m_loop_called interval : Z)
    (action : action_t) (now1 now2 : Z) (immediate_tick_required : bool)
    (env : TickEnv) (journal_file : option (list byte)) : option worker_call :=
  (* This is both the minimum sleep between two ticks and also the maximum
     time between early wakeup checks. *)
  let base_interval_ms := 100 in
  match action with
  | EXECUTE =>
      elapsed ← int64_sub now1 m_loop_called;
      st ←
        (if (interval <? elapsed)
            || server_status_request_waiting m
            || immediate_tick_required
         then
           r ← run_one_tick SHA1 is_usable is_in_cluster update_server_status
                 m env journal_file;
           Some (r, now1, now2)
         else Some (mkTickResult m journal_file [], m_loop_called, now1));
      let '(r, loop_called, now) := st in
      since ← int64_sub now loop_called;
      ms_to_next_call ← int64_sub interval since;
      let delay :=
        if (ms_to_next_call <=? 0) || (base_interval_ms <=? ms_to_next_call)
        then base_interval_ms else ms_to_next_call in
      Some (mkWorkerCall (tr_monitor r) (tr_journal r) (tr_effects r) loop_called
              (Some delay))
  | CANCEL => Some (mkWorkerCall m journal_file [] m_loop_called None)
  end.
End Worker.

(** ** Connecting to a backend *)

(** What the connector answers during one [ping_or_connect_to_db]: whether
    [mysql_ping] on the connection at hand succeeds, whether [mysql_init]
    gives a handle, and for the n-th call of [mxs_mysql_real_connect]
    whether it succeeds, with the clock readings before and after it. *)
Record ConnectAnswers := mkConnectAnswers {
  ca_ping_ok : bool;
  ca_init_ok : bool;
  ca_connect : nat → bool * Z * Z
}.

(** The loop over the connect attempts: [conn_result] is
    [MONITOR_CONN_NEWCONN_OK] (true) or still [MONITOR_CONN_REFUSED], with
    the times of the last attempt made. *)
Fixpoint connect_attempts_loop (connect : nat → bool * Z * Z) (i n : nat)
    (start end_ : Z) : bool * Z * Z :=
  match n with
  | O => (false, start, end_)
  | S n' =>
      let '(result, start', end') := connect i in
      if result then (true, start', end')
      else connect_attempts_loop connect (S i) n' start' end'
  end.

(** [Monitor::ping_or_connect_to_db]: the result and whether [*ppConn] is
    a handle afterwards. [has_conn] says whether it was one before;
    [connect_attempts] and [connect_timeout] are the [int] settings. The
    comparison of [difftime] with the timeout is exact on the seconds of a
    clock. *)
Definition ping_or_connect_to_db (connect_attempts connect_timeout : Z)
    (has_conn : bool) (a : ConnectAnswers) : mxs_connect_result_t * bool :=
  if has_conn && ca_ping_ok a then (MONITOR_CONN_EXISTING_OK, true)
  else if ca_init_ok a then
    let '(ok, start, end_) :=
      connect_attempts_loop (ca_connect a) 0 (Z.to_nat connect_attempts) 0 0 in
    if ok then (MONITOR_CONN_NEWCONN_OK, true)
    else if connect_timeout <=? end_ - start then (MONITOR_CONN_TIMEOUT, true)
    else (MONITOR_CONN_REFUSED, true)
  else (MONITOR_CONN_REFUSED, false).

(** ** The age of the journal *)

(** The answer of [stat] on the journal file. *)
Inductive stat_result :=
| STAT_OK (st_mtime : Z)
| STAT_ENOENT
| STAT_FAILED (errno : Z).

(** The log lines of [journal_is_stale]. *)
Inductive stale_effect :=
| WARNING_journal_too_old (tdiff max_age : Z)
| ERROR_inspect_journal (errno : Z)
| ERROR_journal_path_too_long.

(** [Monitor::journal_is_stale]. [path_len] is what [get_data_file_path]
    returns, [PATH_MAX] the limit of the platform, [now] the time and
    [max_age] the setting [journal_max_age]. *)
Definition journal_is_stale (PATH_MAX path_len : Z) (st : stat_result) (now max_age : Z)
    : bool * list stale_effect :=
  if path_len <? PATH_MAX then
    match st with
    | STAT_OK st_mtime =>
        let tdiff := now - st_mtime in
        if max_age <=? tdiff then (true, [WARNING_journal_too_old tdiff max_age])
        else (false, [])
    | STAT_ENOENT => (true, [])
    | STAT_FAILED errno => (true, [ERROR_inspect_journal errno])
    end
  else (true, [ERROR_journal_path_too_long]).

(** ** Server lists in the settings *)

(** The log lines of [get_monitored_serverlist]. *)
Inductive serverlist_effect :=
| ERROR_server_not_monitored (srv monitor : string)
| ERROR_invalid_server_name (key name_error : string).

(** The loop of [get_monitored_serverlist] over the servers of the
    setting: the monitored servers found so far, [*error_out] and the log. *)
Fixpoint monitored_serverlist_loop (m : Monitor) (servers : list string)
    (monitored_array : list MonitorServer) (error_out : bool)
    : list MonitorServer * bool * list serverlist_effect :=
  match servers with
  | [] => (monitored_array, error_out, [])
  | elem :: rest =>
      match get_monitored_server m elem ≫= λ i, m_servers m !! i with
      | Some mon_serv =>
          monitored_serverlist_loop m rest (monitored_array ++ [mon_serv]) error_out
      | None =>
          let '(arr, err, log) := monitored_serverlist_loop m rest monitored_array true in
          (arr, err, ERROR_server_not_monitored elem (m_name m) :: log)
      end
  end.

(** [Monitor::get_monitored_serverlist]. [contains] says whether the
    parameters have the key, [servers] is what [get_server_list] makes of
    its value (the names of the servers; empty when a name is not a
    server's, and [name_error] is that name then), [error_out] the value of
    [*error_out] before the call. The result is the array, [*error_out]
    afterwards and the log. *)
Definition get_monitored_serverlist (m : Monitor) (key : string) (contains : bool)
    (servers : list string) (name_error : string) (error_out : bool)
    : list MonitorServer * bool * list serverlist_effect :=
  if negb contains then ([], error_out, [])
  else if negb (bool_decide (servers = [])) then
    let '(monitored_array, err, log) := monitored_serverlist_loop m servers [] error_out in
    (if bool_decide (length monitored_array < length servers)%nat then [] else monitored_array,
     err, log)
  else ([], true, [ERROR_invalid_server_name key name_error]).

(** The server with other disk space limits of the monitor. *)
Definition with_monitor_limits (d : MonitorServer) (limits : DiskSpaceLimits)
    : MonitorServer :=
  mkMonitorServer (server d) (mon_prev_status d) (pending_status d) (mon_err_count d)
    (status_request d) (ok_to_check_disk_space d) limits.

(** What the disk space check decides: the pending status, whether the
    check stays enabled, and the log. *)
Definition disk_verdict (r : option (MonitorServer * list effect))
    : option (Z * bool * list effect) :=
  (λ x, (pending_status x.1, ok_to_check_disk_space x.1, x.2)) <$> r.

(** ** Node lists for the scripts *)

Inductive credentials_approach_t := CREDENTIALS_INCLUDE | CREDENTIALS_EXCLUDE.

Section NodeNames.
(** Members of [SERVER] and [Server] of include/maxscale/server.hh and
    internal/server.hh, not in src/, that the node lists print: the
    address, the port, the ids of the node and of its master, and the
    monitor user and password of the server. Strings are C strings, given
    by their bytes. *)
Context (address : SERVER → list byte) (port : SERVER → Z).
Context (node_id master_id : SERVER → Z).
Context (monitor_user monitor_password : SERVER → list byte).
(** The conversion [%d] of [snprintf] and of the stream. *)
Context (format_int : Z → list byte).
(** [sizeof(arr)] in [append_node_names]: a sum of constants of server.hh. *)
Context (ARR_SIZE : nat).

(** The brackets and separators of the formats. *)
Definition text_of (s : string) : list byte := String.list_byte_of_string s.

(** What [snprintf] leaves in [arr] as a C string: each [%s] prints its
    argument up to its terminator, and the text is cut to the size of the
    array. *)
Definition node_text (username password : list byte) (approach : credentials_approach_t)
    (separator : list byte) (srv : SERVER) : list byte :=
  until_nul
    (take (ARR_SIZE - 1)
       (match approach with
        | CREDENTIALS_EXCLUDE =>
            until_nul separator ++ text_of "[" ++ until_nul (address srv) ++ text_of "]:"
            ++ format_int (port srv)
        | CREDENTIALS_INCLUDE =>
            let server_specific_monuser := monitor_user srv in
            let user := if bool_decide (server_specific_monuser = []) then username
                        else server_specific_monuser in
            let pw := if bool_decide (server_specific_monuser = []) then password
                      else monitor_password srv in
            until_nul separator ++ until_nul user ++ text_of ":" ++ until_nul pw
            ++ text_of "@[" ++ until_nul (address srv) ++ text_of "]:"
            ++ format_int (port srv)
        end)).

(** The loop of [append_node_names]: [dest] as a C string, [len] and
    [separator] are the locals. *)
Fixpoint append_node_names_loop (username password : list byte)
    (servers : list MonitorServer) (dest : list byte) (len : Z) (separator : list byte)
    (status_bits : Z) (approach : credentials_approach_t) : list byte :=
  match servers with
  | [] => dest
  | iter :: rest =>
      if len =? 0 then dest
      else if (status_bits =? 0) || nonzero (Z.land (status (server iter)) status_bits) then
        let arr := node_text username password approach separator (server iter) in
        let arrlen := Z.of_nat (length arr) in
        if arrlen <? len then
          append_node_names_loop username password rest (dest ++ arr) (len - arrlen)
            (text_of ",") status_bits approach
        else
          append_node_names_loop username password rest dest len (text_of ",")
            status_bits approach
      else
        append_node_names_loop username password rest dest len separator status_bits approach
  end.

(** [Monitor::append_node_names]: the C string in [dest] afterwards.
    [status_bits] is the parameter [status]; [username] and [password] are
    those of the connection settings. *)
Definition append_node_names (m : Monitor) (username password : list byte) (len : Z)
    (status_bits : Z) (approach : credentials_approach_t) : list byte :=
  append_node_names_loop username password (m_servers m) [] len [] status_bits approach.

(** [Monitor::find_parent_node] *)
Definition find_parent_node (m : Monitor) (target : MonitorServer) : option MonitorServer :=
  if 0 <? master_id (server target) then
    snd <$> list_find (λ node, node_id (server node) = master_id (server target))
              (m_servers m)
  else None.

(** The loop of [child_nodes]: the contents of the stream and
    [have_content]. *)
Fixpoint child_nodes_loop (servers : list MonitorServer) (parent : MonitorServer)
    (ss : list byte) (have_content : bool) : list byte :=
  match servers with
  | [] => ss
  | node :: rest =>
      if bool_decide (master_id (server node) = node_id (server parent)) then
        let ss := if have_content then ss ++ text_of "," else ss in
        child_nodes_loop rest parent
          (ss ++ text_of "[" ++ until_nul (address (server node)) ++ text_of "]:"
           ++ format_int (port (server node)))
          true
      else child_nodes_loop rest parent ss have_content
  end.

(** [Monitor::child_nodes] *)
Definition child_nodes (m : Monitor) (parent : MonitorServer) : list byte :=
  if 0 <? node_id (server parent) then child_nodes_loop (m_servers m) parent [] false
  else [].

(** The text of one node in [child_nodes]. *)
Definition child_text (node : MonitorServer) : list byte :=
  text_of "[" ++ until_nul (address (server node)) ++ text_of "]:"
  ++ format_int (port (server node)).
End NodeNames.

(** Two nodes to run the node lists on: [A] with node id 1 and no master,
    [B] with node id 2 and master 1, both on port 3306. *)
Definition sample_address (s : SERVER) : list byte := String.list_byte_of_string (name s).
Definition sample_port (_ : SERVER) : Z := 3306.
Definition sample_node_id (s : SERVER) : Z := if String.eqb (name s) "A" then 1 else 2.
Definition sample_master_id (s : SERVER) : Z := if String.eqb (name s) "A" then 0 else 1.
Definition sample_format_int (_ : Z) : list byte := String.list_byte_of_string "3306".

(** A world like [sample_env] in which the disk space check is due and
    every server reports one mount, 95% full; and a new server on which
    the monitor has a limit of 90% for every mount. *)
Definition sample_env_disk : TickEnv :=
  mkTickEnv (λ _, (MONITOR_CONN_NEWCONN_OK, ER_OTHER 0))
            (λ _, INFO_OK [("/a"%string, mkSizesAndName 100 95 5)]) true 0 IO_OK.

Definition sample_limited_server (n : string) (st : Z) : MonitorServer :=
  mkMonitorServer (mkSERVER n st UNDEFINED_EVENT 0 []) UINT64_MINUS_ONE 0 0 NO_CHANGE true
    [("*"%string, 90)].
(** ** Bit-level facts about flags and masks *)

Lemma flag_testbit k i : Z.testbit (flag k) i = (Z.of_N k =? i).
Proof.
  unfold flag. rewrite Z.shiftl_1_l.
  destruct (Z.le_gt_cases 0 i) as [Hi|Hi].
  - apply Z.pow2_bits_eqb. lia.
  - rewrite Z.testbit_neg_r by lia. symmetry. apply Z.eqb_neq. lia.
Qed.

Lemma flag_pos k : 0 < flag k.
Proof. unfold flag. rewrite Z.shiftl_1_l. apply Z.pow_pos_nonneg; lia. Qed.

Lemma land_flag x k :
  Z.land x (flag k) = if Z.testbit x (Z.of_N k) then flag k else 0.
Proof.
  apply Z.bits_inj'. intros i _. rewrite Z.land_spec, flag_testbit.
  destruct (Z.eqb_spec (Z.of_N k) i) as [<-|Hne].
  - destruct (Z.testbit x (Z.of_N k)); simpl.
    + rewrite flag_testbit. symmetry. apply Z.eqb_refl.
    + symmetry. apply Z.bits_0.
  - rewrite andb_false_r. destruct (Z.testbit x (Z.of_N k)).
    + rewrite flag_testbit. symmetry. by apply Z.eqb_neq.
    + symmetry. apply Z.bits_0.
Qed.

Lemma nonzero_land_flag x k :
  nonzero (Z.land x (flag k)) = Z.testbit x (Z.of_N k).
Proof.
  unfold nonzero. rewrite land_flag. pose proof (flag_pos k).
  destruct (Z.testbit x (Z.of_N k)); simpl; [|done].
  apply negb_true_iff, Z.eqb_neq. lia.
Qed.

Lemma land_flag_eqb_0 x k :
  (Z.land x (flag k) =? 0) = negb (Z.testbit x (Z.of_N k)).
Proof. rewrite <- nonzero_land_flag. unfold nonzero. by rewrite negb_involutive. Qed.

Lemma land_flag_eqb_flag x k :
  (Z.land x (flag k) =? flag k) = Z.testbit x (Z.of_N k).
Proof.
  rewrite land_flag. pose proof (flag_pos k).
  destruct (Z.testbit x (Z.of_N k)).
  - apply Z.eqb_refl.
  - apply Z.eqb_neq. lia.
Qed.

Lemma mask_testbit l i :
  Z.testbit (mask l) i = true ↔ ∃ k, k ∈ l ∧ Z.of_N k = i.
Proof.
  induction l as [|k l IH]; simpl.
  - rewrite Z.bits_0. split; [done|].
    intros (k & Hk & _). by apply not_elem_of_nil in Hk.
  - rewrite Z.lor_spec, flag_testbit, orb_true_iff, IH, Z.eqb_eq. split.
    + intros [Heq|(k' & Hk' & Heq)].
      * exists k. split; [left|done].
      * exists k'. split; [by right|done].
    + intros (k' & Hk' & Heq).
      apply elem_of_cons in Hk' as [->|Hk']; [by left|right; by exists k'].
Qed.

Lemma mask_testbit_elem l k : k ∈ l → Z.testbit (mask l) (Z.of_N k) = true.
Proof.
  intros Hk. apply mask_testbit. by exists k.
Qed.

(** Two words agree under a mask iff they agree on each bit of the mask. *)
Lemma land_mask_eq l x y :
  Z.land x (mask l) = Z.land y (mask l) ↔ view l x = view l y.
Proof.
  split.
  - intros Heq. unfold view. apply list_fmap_ext. intros n k Hk. cbv beta.
    apply list_elem_of_lookup_2 in Hk.
    assert (Hb : Z.testbit (Z.land x (mask l)) (Z.of_N k) =
                 Z.testbit (Z.land y (mask l)) (Z.of_N k)) by by rewrite Heq.
    rewrite !Z.land_spec, (mask_testbit_elem l k Hk), !andb_true_r in Hb. done.
  - intros Hv. apply Z.bits_inj'. intros i _. rewrite !Z.land_spec.
    destruct (Z.testbit (mask l) i) eqn:Hi; [|by rewrite !andb_false_r].
    apply mask_testbit in Hi as (k & Hk & <-). rewrite !andb_true_r.
    apply list_elem_of_lookup_1 in Hk as [n Hn].
    assert (Hx : view l x !! n = view l y !! n) by by rewrite Hv.
    unfold view in Hx. rewrite !list_lookup_fmap, Hn in Hx. by inversion Hx.
Qed.

Lemma land_mask_eqb l x y :
  (Z.land x (mask l) =? Z.land y (mask l)) = bool_decide (view l x = view l y).
Proof.
  destruct (Z.eqb_spec (Z.land x (mask l)) (Z.land y (mask l))) as [Heq|Hne].
  - symmetry. apply bool_decide_eq_true. by apply land_mask_eq.
  - symmetry. apply bool_decide_eq_false. intros Hv. by apply Hne, land_mask_eq.
Qed.

Lemma land_mask_eqb_0 l x :
  (Z.land x (mask l) =? 0) = bool_decide (view l x = view l 0).
Proof. rewrite <- land_mask_eqb. by rewrite Z.land_0_l. Qed.

(** Masking twice: the inner mask only matters on the bits of the outer. *)
Lemma land_mask_sub l l' x :
  l' ⊆ l → Z.land (Z.land x (mask l)) (mask l') = Z.land x (mask l').
Proof.
  intros Hsub. rewrite <- Z.land_assoc. f_equal.
  apply Z.bits_inj'. intros i _. rewrite Z.land_spec.
  destruct (Z.testbit (mask l') i) eqn:H2; [|by rewrite andb_false_r].
  rewrite andb_true_r. apply mask_testbit in H2 as (k & Hk & Hi).
  apply mask_testbit. exists k. split; [by apply Hsub|done].
Qed.

Lemma mask_singleton k : mask [k] = flag k.
Proof. simpl. apply Z.lor_0_r. Qed.

Lemma land_mask_flag l k x :
  k ∈ l → Z.land (Z.land x (mask l)) (flag k) = Z.land x (flag k).
Proof.
  intros Hk. rewrite <- mask_singleton. apply land_mask_sub.
  intros k' Hk'. apply list_elem_of_singleton in Hk'. by subst.
Qed.

Lemma testbit_lor_view l x y :
  view l (Z.lor x y) = zip_with orb (view l x) (view l y).
Proof.
  induction l as [|k l IH]; simpl; [done|]. by rewrite Z.lor_spec, IH.
Qed.

Section MaskNames.
Context `{ServerBits}.

Lemma all_server_bits_mask : all_server_bits = mask reportable_positions.
Proof.
    unfold all_server_bits, reportable_positions, mask, SERVER_RUNNING,
      SERVER_MAINT, SERVER_MASTER, SERVER_SLAVE, SERVER_JOINED. simpl.
    rewrite Z.lor_0_r, !Z.lor_assoc. done.
Qed.

Lemma server_type_bits_mask :
    server_type_bits = mask [pos_MASTER; pos_SLAVE; pos_JOINED].
Proof.
    unfold server_type_bits, mask, SERVER_MASTER, SERVER_SLAVE, SERVER_JOINED.
    simpl. rewrite Z.lor_0_r, !Z.lor_assoc. done.
Qed.

Lemma master_slave_mask :
    Z.lor SERVER_MASTER SERVER_SLAVE = mask [pos_MASTER; pos_SLAVE].
Proof.
    unfold mask, SERVER_MASTER, SERVER_SLAVE. simpl. by rewrite Z.lor_0_r.
Qed.
End MaskNames.

(** ** The event classifier *)

Section ClassifierFacts.
Context `{ServerBits}.

Lemma in_reportable_RUNNING : pos_RUNNING ∈ reportable_positions.
Proof. unfold reportable_positions. apply list_elem_of_In. simpl. tauto. Qed.
Lemma in_reportable_MAINT : pos_MAINT ∈ reportable_positions.
Proof. unfold reportable_positions. apply list_elem_of_In. simpl. tauto. Qed.
Lemma in_reportable_MASTER : pos_MASTER ∈ reportable_positions.
Proof. unfold reportable_positions. apply list_elem_of_In. simpl. tauto. Qed.
Lemma in_reportable_SLAVE : pos_SLAVE ∈ reportable_positions.
Proof. unfold reportable_positions. apply list_elem_of_In. simpl. tauto. Qed.
Lemma in_reportable_JOINED : pos_JOINED ∈ reportable_positions.
Proof. unfold reportable_positions. apply list_elem_of_In. simpl. tauto. Qed.

Lemma roles_sub_reportable :
  [pos_MASTER; pos_SLAVE; pos_JOINED] ⊆ reportable_positions.
Proof.
  unfold reportable_positions. intros k Hk%list_elem_of_In.
  apply list_elem_of_In. simpl in *. tauto.
Qed.

Lemma master_slave_sub_reportable :
  [pos_MASTER; pos_SLAVE] ⊆ reportable_positions.
Proof.
  unfold reportable_positions. intros k Hk%list_elem_of_In.
  apply list_elem_of_In. simpl in *. tauto.
Qed.

(** Rewrites the tests of the source into tests of single bits. *)
Ltac bits_of_tests :=
  rewrite ?all_server_bits_mask, ?server_type_bits_mask, ?master_slave_mask;
  unfold nonzero, SERVER_RUNNING, SERVER_MAINT, SERVER_MASTER, SERVER_SLAVE,
    SERVER_JOINED;
  rewrite ?(land_mask_flag _ _ _ in_reportable_RUNNING),
    ?(land_mask_flag _ _ _ in_reportable_MAINT),
    ?(land_mask_flag _ _ _ in_reportable_MASTER),
    ?(land_mask_flag _ _ _ in_reportable_SLAVE),
    ?(land_mask_flag _ _ _ in_reportable_JOINED),
    ?(land_mask_sub _ _ _ roles_sub_reportable),
    ?(land_mask_sub _ _ _ master_slave_sub_reportable),
    ?land_flag_eqb_0, ?land_flag_eqb_flag, ?land_mask_eqb, ?land_mask_eqb_0;
  unfold view; simpl fmap; rewrite ?Z.bits_0.

Lemma get_event_type_classify prev present :
  get_event_type prev present = classify (reportable prev) (reportable present).
Proof.
  unfold get_event_type, classify, reportable. bits_of_tests.
  unfold reportable_positions. simpl fmap.
  destruct (Z.testbit prev (Z.of_N pos_RUNNING)),
    (Z.testbit prev (Z.of_N pos_MAINT)), (Z.testbit prev (Z.of_N pos_MASTER)),
    (Z.testbit prev (Z.of_N pos_SLAVE)), (Z.testbit prev (Z.of_N pos_JOINED)),
    (Z.testbit present (Z.of_N pos_RUNNING)),
    (Z.testbit present (Z.of_N pos_MAINT)), (Z.testbit present (Z.of_N pos_MASTER)),
    (Z.testbit present (Z.of_N pos_SLAVE)), (Z.testbit present (Z.of_N pos_JOINED));
    reflexivity.
Qed.

Lemma status_changed_bits prev curr :
  status_changed prev curr =
    negb (prev =? UINT64_MINUS_ONE)
    && negb (bool_decide (reportable prev = reportable curr))
    && negb (Z.testbit prev (Z.of_N pos_MAINT) || Z.testbit curr (Z.of_N pos_MAINT))
    && (Z.testbit prev (Z.of_N pos_RUNNING) || Z.testbit curr (Z.of_N pos_RUNNING)).
Proof.
  unfold status_changed, reportable.
  destruct (prev =? UINT64_MINUS_ONE); simpl; [done|].
  rewrite all_server_bits_mask, land_mask_eqb.
  unfold SERVER_MAINT, SERVER_RUNNING.
  rewrite land_flag_eqb_0, land_flag_eqb_flag, !Z.lor_spec, !Z.land_spec.
  rewrite (mask_testbit_elem _ _ in_reportable_MAINT),
    (mask_testbit_elem _ _ in_reportable_RUNNING), !andb_true_r.
  reflexivity.
Qed.

(** C2 (amended): [get_event_type] returns [UNDEFINED_EVENT] exactly when
    the two words agree on the reportable bits, or both lack [RUNNING], or
    both have [RUNNING] and neither has a role bit (they differ in [MAINT]
    only). In particular every pair that [status_changed] accepts, which is
    the guard under which [detect_handle_state_changes] calls the
    classifier, gets a defined event. *)
Theorem get_event_type_defined (prev curr : Z) :
  (get_event_type prev curr = UNDEFINED_EVENT ↔
     Z.land prev all_server_bits = Z.land curr all_server_bits
     ∨ (has_bit prev SERVER_RUNNING = false ∧ has_bit curr SERVER_RUNNING = false)
     ∨ (has_bit prev SERVER_RUNNING = true ∧ has_bit curr SERVER_RUNNING = true
        ∧ has_role prev = false ∧ has_role curr = false))
  ∧ (status_changed prev curr = true → get_event_type prev curr ≠ UNDEFINED_EVENT).
Proof.
  rewrite get_event_type_classify, status_changed_bits.
  rewrite all_server_bits_mask, land_mask_eq. fold (reportable prev) (reportable curr).
  unfold has_bit, has_role. rewrite server_type_bits_mask.
  unfold nonzero, SERVER_RUNNING.
  rewrite !land_flag_eqb_0, !land_mask_eqb_0, !negb_involutive.
  unfold reportable, reportable_positions, view. simpl fmap. rewrite !Z.bits_0.
  generalize (negb (prev =? UINT64_MINUS_ONE)). intros b.
  destruct (Z.testbit prev (Z.of_N pos_RUNNING)),
    (Z.testbit prev (Z.of_N pos_MAINT)), (Z.testbit prev (Z.of_N pos_MASTER)),
    (Z.testbit prev (Z.of_N pos_SLAVE)), (Z.testbit prev (Z.of_N pos_JOINED)),
    (Z.testbit curr (Z.of_N pos_RUNNING)),
    (Z.testbit curr (Z.of_N pos_MAINT)), (Z.testbit curr (Z.of_N pos_MASTER)),
    (Z.testbit curr (Z.of_N pos_SLAVE)), (Z.testbit curr (Z.of_N pos_JOINED));
    vm_compute;
    (split;
     [split; [intros; try discriminate; tauto
             | intros [?|[[??]|(?&?&?&?)]]; congruence ]
     | destruct b; intros; congruence ]).
Qed.

(** The sentinel: with [mon_prev_status] at -1 nothing has changed. *)
Lemma status_changed_sentinel status :
  status_changed UINT64_MINUS_ONE status = false.
Proof. unfold status_changed. by rewrite Z.eqb_refl. Qed.
End ClassifierFacts.

(** C2 (as stated) fails: with the flags at their sample positions, the
    previous status 0 and the present status [MAINT] differ on the
    reportable bits, and [get_event_type] returns [UNDEFINED_EVENT]; so do
    [MASTER] against 0 (neither running) and [RUNNING] against
    [RUNNING | MAINT]. *)
Lemma get_event_type_undefined_on_distinct :
  let B := sample_bits in
  (Z.land 0 all_server_bits ≠ Z.land SERVER_MAINT all_server_bits
   ∧ get_event_type 0 SERVER_MAINT = UNDEFINED_EVENT)
  ∧ (Z.land SERVER_MASTER all_server_bits ≠ Z.land 0 all_server_bits
     ∧ get_event_type SERVER_MASTER 0 = UNDEFINED_EVENT)
  ∧ (Z.land SERVER_RUNNING all_server_bits
       ≠ Z.land (Z.lor SERVER_RUNNING SERVER_MAINT) all_server_bits
     ∧ get_event_type SERVER_RUNNING (Z.lor SERVER_RUNNING SERVER_MAINT)
       = UNDEFINED_EVENT).
Proof. vm_compute. repeat split; discriminate. Qed.

(** ** The state change pass and the sentinel *)

Section DetectFacts.
Context `{ServerBits}.

Lemma detect_server_sentinel settings clock st ptr :
  mon_prev_status ptr = UINT64_MINUS_ONE →
  detect_server settings clock st ptr = (ptr, st).
Proof.
  intros Hs. unfold detect_server. by rewrite Hs, status_changed_sentinel.
Qed.

Lemma detect_loop_filter settings clock st servers :
  (detect_loop settings clock st servers).2 =
  (detect_loop settings clock st
     (filter (λ p, mon_prev_status p ≠ UINT64_MINUS_ONE) servers)).2.
Proof.
  revert st. induction servers as [|ptr rest IH]; intros st; [done|].
  rewrite filter_cons. case_decide as Hs.
  - simpl. destruct (detect_server settings clock st ptr) as [ptr' st'].
    specialize (IH st').
    destruct (detect_loop settings clock st' rest) as [rest' st''].
    destruct (detect_loop settings clock st' (filter _ rest)) as [rest2 st2].
    simpl in *. done.
  - simpl.
    rewrite (detect_server_sentinel _ _ _ _ Hs).
    specialize (IH st).
    destruct (detect_loop settings clock st rest) as [rest' st''].
    simpl in *. done.
Qed.

Lemma detect_loop_sentinel_untouched settings clock st servers i ptr :
  servers !! i = Some ptr →
  mon_prev_status ptr = UINT64_MINUS_ONE →
  (detect_loop settings clock st servers).1 !! i = Some ptr.
Proof.
  revert st i. induction servers as [|d rest IH]; intros st i Hi Hs; [done|].
  simpl. destruct (detect_server settings clock st d) as [d' st'] eqn:Hd.
  specialize (IH st').
  destruct (detect_loop settings clock st' rest) as [rest' st''].
  destruct i as [|i]; simpl in *.
  - inversion Hi; subst. rewrite (detect_server_sentinel _ _ _ _ Hs) in Hd.
    by inversion Hd.
  - by apply IH.
Qed.

(** C10: a server whose [mon_prev_status] is still the sentinel -1 never
    counts as changed, whatever its live status: [status_changed] is false,
    the body of the state change loop leaves the server and the loop's
    locals as they are, and the whole pass logs and launches exactly what
    it would without those servers and leaves them untouched. *)
Theorem sentinel_server_has_no_event :
  (∀ status, status_changed UINT64_MINUS_ONE status = false)
  ∧ (∀ settings clock st ptr,
       mon_prev_status ptr = UINT64_MINUS_ONE →
       detect_server settings clock st ptr = (ptr, st))
  ∧ (∀ settings clock servers,
       (detect_handle_state_changes settings clock servers).2 =
       (detect_handle_state_changes settings clock
          (filter (λ p, mon_prev_status p ≠ UINT64_MINUS_ONE) servers)).2
       ∧ ∀ i ptr,
           servers !! i = Some ptr →
           mon_prev_status ptr = UINT64_MINUS_ONE →
           (detect_handle_state_changes settings clock servers).1 !! i = Some ptr).
Proof.
  split; [apply status_changed_sentinel|].
  split; [apply detect_server_sentinel|].
  intros settings clock servers. unfold detect_handle_state_changes. split.
  - pose proof (detect_loop_filter settings clock (mkDetectState false false []) servers) as Hf.
    destruct (detect_loop settings clock _ servers) as [s1 st1].
    destruct (detect_loop settings clock _ (filter _ servers)) as [s2 st2].
    simpl in *. by subst.
  - intros i ptr Hi Hs.
    pose proof (detect_loop_sentinel_untouched settings clock
                  (mkDetectState false false []) servers i ptr Hi Hs) as Hu.
    destruct (detect_loop settings clock _ servers) as [s1 st1]. done.
Qed.
End DetectFacts.

(** ** The ownership table *)

(** C9: the table maps a server name to at most one monitor. A claim on a
    server that has an owner fails, writes that owner's name to
    [existing_owner] and leaves the table as it is, whoever the claimant
    is, the owner included. A claim on a server without an owner succeeds,
    makes the claimant its owner and changes no other entry. [add_server]
    appends the new [MonitorServer] exactly when the claim succeeds, and
    otherwise leaves monitor and table alone and reports the owner. *)
Theorem claim_server_single_owner (owners : gmap string string)
    (srv_name new_owner existing_owner : string) (m : Monitor) (srv : SERVER) :
  (∀ m1 m2, owners !! srv_name = Some m1 → owners !! srv_name = Some m2 → m1 = m2)
  ∧ (∀ owner, owners !! srv_name = Some owner →
       ThisUnit.claim_server owners srv_name new_owner existing_owner
         = (false, owners, owner)
       ∧ ThisUnit.claim_server owners srv_name owner existing_owner
         = (false, owners, owner))
  ∧ (owners !! srv_name = None →
       ∃ owners',
         ThisUnit.claim_server owners srv_name new_owner existing_owner
           = (true, owners', existing_owner)
         ∧ ThisUnit.claimed_by owners' srv_name = new_owner
         ∧ owners' !! srv_name = Some new_owner
         ∧ ∀ other, other ≠ srv_name → owners' !! other = owners !! other)
  ∧ (∀ owner, owners !! name srv = Some owner →
       add_server m owners srv
         = (false, m, owners, [ERROR_already_monitored (name srv) owner]))
  ∧ (owners !! name srv = None →
       add_server m owners srv
         = (true,
            with_servers m (m_servers m ++
              [new_MonitorServer srv (disk_space_limits_setting (m_settings m))]),
            <[name srv := m_name m]> owners,
            [SERVICE_ADD_SERVER (name srv)])).
Proof.
  split; [congruence|]. split; [|split; [|split]].
  - intros owner Ho. unfold ThisUnit.claim_server. by rewrite Ho.
  - intros Ho. exists (<[srv_name := new_owner]> owners).
    unfold ThisUnit.claim_server, ThisUnit.claimed_by. rewrite Ho.
    rewrite lookup_insert_eq. repeat split; [done..|].
    intros other Hne. by rewrite lookup_insert_ne.
  - intros owner Ho. unfold add_server, ThisUnit.claim_server. by rewrite Ho.
  - intros Ho. unfold add_server, ThisUnit.claim_server. by rewrite Ho.
Qed.

(** ** The permission check *)

(** C5 (amended): with one monitored server and the checks not skipped,
    [test_permissions] returns false when the connection fails with one of
    the access-denied errors of the login, and true when it fails for
    another reason; with a connection, it returns false when the query fails
    with a table, column, specific, procedure or kill access-denied error,
    and true when the query fails with another error or succeeds. [start]
    of a monitor not yet checked refuses to start exactly when the module's
    permission check (which returns what [test_permissions] gives) fails. *)
Theorem test_permissions_single_server (m : Monitor) (mondb : MonitorServer)
    (probe : string → PermissionProbe) :
  let p := probe (name (server mondb)) in
  let verdict := (test_permissions (with_servers m [mondb]) false probe).1 in
  (connection_is_ok (pp_connect p) = false →
     verdict = negb (login_denied (pp_connect_errno p)))
  ∧ (connection_is_ok (pp_connect p) = true → pp_query_ok p = false →
     verdict = negb (query_denied (pp_query_errno p)))
  ∧ (connection_is_ok (pp_connect p) = true → pp_query_ok p = true →
     verdict = true)
  ∧ (∀ stale log worker thread,
       m_checked m = false →
       (start m stale (false, log) worker thread).1.1 = false
       ∧ m_state (start m stale (false, log) worker thread).1.2 = m_state m
       ∧ (start m stale (true, log) worker thread).1.1 = worker && thread).
Proof.
  intros p verdict. subst p verdict.
  unfold test_permissions, with_servers. simpl.
  unfold test_permissions_server.
  destruct (probe (name (server mondb))) as [c ce qok qe hr]. simpl.
  split; [|split; [|split]].
  - intros Hc. destruct c; try discriminate; by destruct ce.
  - intros Hc ->. destruct c; try discriminate; by destruct qe.
  - intros Hc ->. by destruct c.
  - intros stale log worker thread Hm. unfold start. rewrite Hm. simpl.
    rewrite Hm. by destruct worker, thread.
Qed.

(** C5 (as stated) fails: one monitored server, the connection succeeds and
    the probe query fails with a table access-denied error; the claim has
    [test_permissions] return OK, the code returns false, and [start]
    refuses. The same holds for the column and the procedure error. *)
Lemma test_permissions_query_denied_is_fatal :
  let m := sample_monitor [sample_server "A" 0] in
  let probe e := λ _ : string,
    mkPermissionProbe MONITOR_CONN_NEWCONN_OK (ER_OTHER 0) false e false in
  test_permissions m false (probe ER_TABLEACCESS_DENIED_ERROR)
    = (false, [ERROR_permissions_query "A"])
  ∧ test_permissions m false (probe ER_COLUMNACCESS_DENIED_ERROR)
    = (false, [ERROR_permissions_query "A"])
  ∧ test_permissions m false (probe ER_PROCACCESS_DENIED_ERROR)
    = (false, [ERROR_permissions_query "A"])
  ∧ (start m false (test_permissions m false (probe ER_TABLEACCESS_DENIED_ERROR))
        true true).1.1 = false.
Proof. vm_compute. done. Qed.

(** ** The disk space check *)

Section DiskSpaceFacts.
Context `{ServerBits}.

Lemma check_star_last pMs init path san st st' :
  checked_paths st = ∅ →
  check_star pMs (init ++ [(path, san)]) st = Some st' →
  ∃ u, used_percentage san = Some u
       ∧ disk_space_exhausted st' = (star_max_percentage st <=? u).
Proof.
  revert st. induction init as [|[p0 san0] init IH]; intros st Hc Hrun.
  - simpl in Hrun. rewrite Hc in Hrun.
    rewrite bool_decide_eq_true_2 in Hrun by set_solver.
    unfold check_disk_space_exhausted in Hrun.
    destruct (used_percentage san) as [u|]; [|done]. simpl in Hrun.
    exists u. split; [done|]. inversion Hrun; subst; simpl.
    by destruct (star_max_percentage st <=? u).
  - simpl in Hrun. rewrite Hc in Hrun.
    rewrite bool_decide_eq_true_2 in Hrun by set_solver.
    destruct (check_disk_space_exhausted pMs p0 san0 (star_max_percentage st))
      as [r|]; [|done]. simpl in Hrun.
    apply IH in Hrun; [|done]. done.
Qed.

(** The wildcard alone: the flag that [update_disk_space_status] leaves in
    the pending status is decided by the mount that comes last in the
    map, whatever the mounts before it use. *)
Lemma update_disk_space_status_wildcard_last pMs threshold init path san pMs' log :
  disk_space_limits (server pMs) = [] →
  monitor_limits pMs = [("*"%string, threshold)] →
  threshold ≠ -1 →
  update_disk_space_status pMs (INFO_OK (init ++ [(path, san)])) = Some (pMs', log) →
  ∃ u, used_percentage san = Some u
       ∧ pending_status pMs' =
         if threshold <=? u
         then Z.lor (pending_status pMs) SERVER_DISK_SPACE_EXHAUSTED
         else clear_bits (pending_status pMs) SERVER_DISK_SPACE_EXHAUSTED.
Proof.
  intros Hs Hm Hne Hrun. unfold update_disk_space_status in Hrun.
  rewrite Hs, Hm in Hrun. simpl in Hrun.
  rewrite bool_decide_eq_true_2 in Hrun by done.
  destruct (check_star pMs _ _) as [st'|] eqn:Hstar; [|done]. simpl in Hrun.
  apply check_star_last in Hstar as (u & Hu & Hex); [|done]. simpl in Hex.
  exists u. split; [done|]. inversion Hrun; subst.
  rewrite Hex. by destruct (threshold <=? u).
Qed.
End DiskSpaceFacts.

(** C4 at a failing input: the wildcard threshold is 90, the mount /a is
    95% full and the mount /b 10%. The check of /a logs that the disk space
    is exhausted, the check of /b then overwrites the flag, and the bit
    [DISK_SPACE_EXHAUSTED] (set before) is cleared from the pending status.
    With explicit limits for /a and /b the outcome depends on the order in
    which the limits are visited. *)
Lemma update_disk_space_status_overwrites_flag :
  let B := sample_bits in
  let info := [("/a"%string, mkSizesAndName 100 95 5);
               ("/b"%string, mkSizesAndName 100 10 90)] in
  used_percentage (mkSizesAndName 100 95 5) = Some 95
  ∧ update_disk_space_status
      (sample_disk_server [("*"%string, 90)] (Z.lor SERVER_RUNNING SERVER_DISK_SPACE_EXHAUSTED))
      (INFO_OK info)
    = Some (sample_disk_server [("*"%string, 90)] SERVER_RUNNING,
            [ERROR_disk_space_exhausted "A" "/a" 95 90])
  ∧ update_disk_space_status
      (sample_disk_server [("/a"%string, 90); ("/b"%string, 90)] SERVER_RUNNING)
      (INFO_OK info)
    = Some (sample_disk_server [("/a"%string, 90); ("/b"%string, 90)] SERVER_RUNNING,
            [ERROR_disk_space_exhausted "A" "/a" 95 90])
  ∧ update_disk_space_status
      (sample_disk_server [("/b"%string, 90); ("/a"%string, 90)] SERVER_RUNNING)
      (INFO_OK info)
    = Some (sample_disk_server [("/b"%string, 90); ("/a"%string, 90)]
              (Z.lor SERVER_RUNNING SERVER_DISK_SPACE_EXHAUSTED),
            [ERROR_disk_space_exhausted "A" "/a" 95 90]).
Proof. vm_compute. done. Qed.

(** The percentage is computed in binary64 and truncated: a mount with 29
    of 100 units used counts as 28% full and does not meet a threshold of
    29. *)
Lemma used_percentage_truncates :
  used_percentage (mkSizesAndName 100 29 71) = Some 28
  ∧ check_disk_space_exhausted (sample_disk_server [] 0) "/a"
      (mkSizesAndName 100 29 71) 29 = Some (false, []).
Proof. vm_compute. done. Qed.

(** ** The hash-gated journal write *)

(** C6: [store_server_journal] touches the file exactly when the hash of
    the encoded snapshot differs from the stored hash. When the write
    succeeds the stored hash becomes that hash and the file holds the
    buffer, so the call of the next tick with the same snapshot does no
    file operation: of two such ticks the first writes once and the second
    not at all. When opening, writing, flushing or renaming fails, the
    stored hash and the file stay as they were, and the next call with the
    same snapshot tries again. *)
Theorem store_server_journal_hash_gated (SHA1 : list byte → list byte) (m : Monitor)
    (master : option MonitorServer) (file : option (list byte)) (io io' : io_outcome)
    (m1 : Monitor) (file1 : option (list byte)) (log1 : list effect) :
  store_server_journal SHA1 m master file io = Some (m1, file1, log1) →
  let size := journal_size (m_servers m) master in
  let data := store_data (m_servers m) master size in
  let hash := SHA1 (take (Z.to_nat size) data) in
  (FILE_OPEN_TMP ∈ log1 ↔ m_journal_hash m ≠ hash)
  ∧ (m_journal_hash m = hash → log1 = [] ∧ m1 = m ∧ file1 = file)
  ∧ (m_journal_hash m ≠ hash → io = IO_OK →
       file1 = Some data ∧ m_journal_hash m1 = hash
       ∧ ∃ log2,
           store_server_journal SHA1 m1 master file1 io' = Some (m1, file1, log2)
           ∧ log2 = [] ∧ file_writes (log1 ++ log2) = 1%nat)
  ∧ (m_journal_hash m ≠ hash → io ≠ IO_OK →
       m1 = m ∧ file1 = file
       ∧ ∃ m2 file2 log2,
           store_server_journal SHA1 m1 master file1 io' = Some (m2, file2, log2)
           ∧ FILE_OPEN_TMP ∈ log2).
Proof.
  intros Hrun size data hash. unfold store_server_journal in Hrun.
  fold size in Hrun. fold data in Hrun. fold hash in Hrun.
  case_bool_decide as Hlen; [|done].
  case_bool_decide as Hhash.
  - split; [|split; [|split]].
    + split; [done|]. intros _.
      destruct io; inversion Hrun; subst; set_solver.
    + done.
    + intros _ ->. inversion Hrun; subst. split; [done|]. split; [done|].
      exists []. split; [|done].
      unfold store_server_journal. simpl. fold size. fold data. fold hash.
      rewrite bool_decide_eq_true_2 by done.
      rewrite bool_decide_eq_false_2 by (intros Hne; by apply Hne).
      done.
    + intros _ Hio. assert (m1 = m ∧ file1 = file) as [-> ->].
      { destruct io; inversion Hrun; subst; done. }
      split; [done|]. split; [done|].
      unfold store_server_journal. fold size. fold data. fold hash.
      rewrite bool_decide_eq_true_2 by done.
      rewrite bool_decide_eq_true_2 by done.
      destruct io'; eexists _, _, _; (split; [reflexivity|set_solver]).
  - inversion Hrun; subst. split; [|split; [|split]].
    + split; [|done]. intros Hin. by apply not_elem_of_nil in Hin.
    + done.
    + done.
    + done.
Qed.

(** C6 on an input: one server, a stored hash of zeros, and (in place of
    SHA-1, about which the theorem assumes nothing) the first bytes of the
    buffer as its digest. *)
Lemma store_server_journal_hash_gated_witness :
  let SHA1 := take 20 in
  let m := sample_monitor [sample_server "A" 1] in
  let size := journal_size (m_servers m) None in
  let data := store_data (m_servers m) None size in
  let hash := SHA1 (take (Z.to_nat size) data) in
  let m1 := with_journal_hash m hash in
  let log1 := [FILE_OPEN_TMP; FILE_WRITE data; FILE_RENAME] in
  store_server_journal SHA1 m None None IO_OK = Some (m1, Some data, log1)
  ∧ (FILE_OPEN_TMP ∈ log1 ↔ m_journal_hash m ≠ hash)
  ∧ (m_journal_hash m = hash → log1 = [] ∧ m1 = m ∧ Some data = None).
Proof.
  intros SHA1 m size data hash m1 log1.
  assert (Hrun : store_server_journal SHA1 m None None IO_OK = Some (m1, Some data, log1))
    by (vm_compute; reflexivity).
  split; [exact Hrun|].
  pose proof (store_server_journal_hash_gated SHA1 m None None IO_OK IO_OK m1
                (Some data) log1 Hrun) as (Hgate & Hskip & _).
  split; [exact Hgate | exact Hskip].
Defined.
(** ** Bytes and little-endian integers *)

Lemma Z_of_byte_range b : 0 ≤ Z_of_byte b < 256.
Proof.
  unfold Z_of_byte. pose proof (Byte.to_N_bounded b). lia.
Qed.

Lemma byte_of_Z_of_byte b : byte_of_Z (Z_of_byte b) = b.
Proof.
  unfold byte_of_Z. rewrite Z.mod_small by apply Z_of_byte_range.
  unfold Z_of_byte. rewrite N2Z.id, Byte.of_to_N. done.
Qed.

Lemma Z_of_byte_of_Z z : Z_of_byte (byte_of_Z z) = z mod 256.
Proof.
  unfold byte_of_Z, Z_of_byte.
  pose proof (Z.mod_pos_bound z 256 ltac:(lia)) as Hr.
  destruct (Byte.of_N (Z.to_N (z mod 256))) as [b|] eqn:Hb.
  - apply Byte.to_of_N in Hb. simpl. rewrite Hb. lia.
  - apply Byte.of_N_None_iff in Hb. lia.
Qed.

Lemma Z_of_byte_inj b1 b2 : Z_of_byte b1 = Z_of_byte b2 → b1 = b2.
Proof.
  intros Heq. rewrite <- (byte_of_Z_of_byte b1), <- (byte_of_Z_of_byte b2).
  by rewrite Heq.
Qed.

Lemma length_set_byteN v n : length (set_byteN v n) = n.
Proof. revert v. induction n as [|n IH]; intros v; simpl; [done|]. by rewrite IH. Qed.

Lemma get_byteN_range l : 0 ≤ get_byteN l < 2 ^ (8 * Z.of_nat (length l)).
Proof.
  induction l as [|b l IH]; [simpl; lia|].
  cbn [get_byteN length]. rewrite Z.shiftl_mul_pow2 by lia.
  pose proof (Z_of_byte_range b).
  replace (8 * Z.of_nat (S (length l))) with (8 + 8 * Z.of_nat (length l)) by lia.
  rewrite Z.pow_add_r by lia. lia.
Qed.

Lemma get_set_byteN v n : get_byteN (set_byteN v n) = v mod 2 ^ (8 * Z.of_nat n).
Proof.
  revert v. induction n as [|n IH]; intros v.
  - simpl. by rewrite Z.mod_1_r.
  - cbn [set_byteN get_byteN]. rewrite IH, Z_of_byte_of_Z.
    rewrite Z.shiftl_mul_pow2, Z.shiftr_div_pow2 by lia.
    replace (8 * Z.of_nat (S n)) with (8 + 8 * Z.of_nat n) by lia.
    rewrite Z.pow_add_r by lia.
    rewrite (Z.rem_mul_r v (2 ^ 8) (2 ^ (8 * Z.of_nat n))) by lia.
    change (2 ^ 8) with 256. lia.
Qed.

Lemma get_byteN_inj l1 l2 :
  length l1 = length l2 → get_byteN l1 = get_byteN l2 → l1 = l2.
Proof.
  revert l2. induction l1 as [|b1 l1 IH]; intros [|b2 l2] Hlen Heq; try done.
  cbn [get_byteN] in Heq. rewrite !Z.shiftl_mul_pow2 in Heq by lia.
  pose proof (Z_of_byte_range b1). pose proof (Z_of_byte_range b2).
  change (2 ^ 8) with 256 in Heq.
  assert (Z_of_byte b1 = Z_of_byte b2) as Hb by lia.
  assert (get_byteN l1 = get_byteN l2) as Hr by lia.
  f_equal; [by apply Z_of_byte_inj|].
  apply IH; [by inversion Hlen|done].
Qed.
(** ** CRC-32 detects the change of one byte *)

Lemma testbit_high c n m : 0 ≤ c < 2 ^ n → n ≤ m → Z.testbit c m = false.
Proof.
  intros [Hc0 Hc] Hm. destruct (decide (c = 0)) as [->|Hne]; [apply Z.bits_0|].
  apply Z.bits_above_log2; [done|].
  assert (0 ≤ n) by (destruct (Z.le_gt_cases 0 n); [done|]; rewrite Z.pow_neg_r in Hc; lia).
  assert (Z.log2 c < n) by (apply Z.log2_lt_pow2; lia). lia.
Qed.

Lemma lxor_range a b n : 0 ≤ a < 2 ^ n → 0 ≤ b < 2 ^ n → 0 ≤ Z.lxor a b < 2 ^ n.
Proof.
  intros Ha Hb.
  assert (0 ≤ n) by (destruct (Z.le_gt_cases 0 n); [done|]; rewrite Z.pow_neg_r in Ha; lia).
  assert (0 ≤ Z.lxor a b) as Hx by (apply Z.lxor_nonneg; lia).
  split; [done|].
  destruct (decide (Z.lxor a b = 0)) as [->|Hne]; [lia|].
  assert (0 < n).
  { destruct (decide (n = 0)) as [->|?]; [|lia].
    assert (a = 0) as -> by lia. assert (b = 0) as -> by lia. done. }
  apply Z.log2_lt_pow2; [lia|].
  pose proof (Z.log2_lxor a b ltac:(lia) ltac:(lia)) as Hl.
  assert (Z.log2 a < n).
  { destruct (decide (a = 0)) as [->|?]; [simpl; lia|]. apply Z.log2_lt_pow2; lia. }
  assert (Z.log2 b < n).
  { destruct (decide (b = 0)) as [->|?]; [simpl; lia|]. apply Z.log2_lt_pow2; lia. }
  lia.
Qed.

Lemma lxor_inj_l a b c : Z.lxor a c = Z.lxor b c → a = b.
Proof.
  intros Heq. apply (f_equal (λ x, Z.lxor x c)) in Heq.
  by rewrite !Z.lxor_assoc, !Z.lxor_nilpotent, !Z.lxor_0_r in Heq.
Qed.

Lemma lxor_inj_r a b c : Z.lxor c a = Z.lxor c b → a = b.
Proof. rewrite !(Z.lxor_comm c). apply lxor_inj_l. Qed.

Lemma shiftr1_range c : 0 ≤ c < 2 ^ 32 → 0 ≤ Z.shiftr c 1 < 2 ^ 31.
Proof.
  intros Hc. rewrite Z.shiftr_div_pow2 by lia. change (2 ^ 1) with 2.
  change (2 ^ 32) with (2 * 2 ^ 31) in Hc.
  split; [apply Z.div_pos; lia|]. apply Z.div_lt_upper_bound; lia.
Qed.

Lemma crc32_shift_range c : 0 ≤ c < 2 ^ 32 → 0 ≤ crc32_shift c < 2 ^ 32.
Proof.
  intros Hc. unfold crc32_shift. pose proof (shiftr1_range c Hc) as Hs.
  destruct (Z.odd c).
  - apply lxor_range; [|done]. change (2 ^ 32) with (2 * 2 ^ 31). lia.
  - change (2 ^ 32) with (2 * 2 ^ 31). lia.
Qed.

Lemma crc32_shift_top c : 0 ≤ c < 2 ^ 32 → Z.testbit (crc32_shift c) 31 = Z.odd c.
Proof.
  intros Hc. unfold crc32_shift. pose proof (shiftr1_range c Hc) as Hs.
  assert (Z.testbit (Z.shiftr c 1) 31 = false) as Ht by (by apply (testbit_high _ 31)).
  destruct (Z.odd c); [|done]. rewrite Z.lxor_spec, Ht. reflexivity.
Qed.

Lemma crc32_shift_inj c d :
  0 ≤ c < 2 ^ 32 → 0 ≤ d < 2 ^ 32 → crc32_shift c = crc32_shift d → c = d.
Proof.
  intros Hc Hd Heq.
  assert (Z.odd c = Z.odd d) as Hodd.
  { rewrite <- (crc32_shift_top c Hc), <- (crc32_shift_top d Hd). by rewrite Heq. }
  unfold crc32_shift in Heq. rewrite <- Hodd in Heq.
  assert (Z.shiftr c 1 = Z.shiftr d 1) as Hs.
  { destruct (Z.odd c); [by apply lxor_inj_l in Heq|done]. }
  rewrite !Z.shiftr_div_pow2 in Hs by lia. change (2 ^ 1) with 2 in Hs.
  rewrite (Z.div_mod c 2), (Z.div_mod d 2) by lia.
  rewrite !Zmod_odd, <- Hodd, Hs. done.
Qed.

Lemma iter_crc32_shift_range n c :
  0 ≤ c < 2 ^ 32 → 0 ≤ Nat.iter n crc32_shift c < 2 ^ 32.
Proof. intros Hc. induction n as [|n IH]; [done|]. simpl. by apply crc32_shift_range. Qed.

Lemma iter_crc32_shift_inj n c d :
  0 ≤ c < 2 ^ 32 → 0 ≤ d < 2 ^ 32 →
  Nat.iter n crc32_shift c = Nat.iter n crc32_shift d → c = d.
Proof.
  intros Hc Hd. induction n as [|n IH]; [done|]. simpl. intros Heq.
  apply IH. apply crc32_shift_inj; [by apply iter_crc32_shift_range..|done].
Qed.

Lemma Z_of_byte_range32 b : 0 ≤ Z_of_byte b < 2 ^ 32.
Proof. pose proof (Z_of_byte_range b). lia. Qed.

Lemma crc32_byte_range c b : 0 ≤ c < 2 ^ 32 → 0 ≤ crc32_byte c b < 2 ^ 32.
Proof.
  intros Hc. unfold crc32_byte. apply iter_crc32_shift_range.
  apply lxor_range; [done|apply Z_of_byte_range32].
Qed.

Lemma crc32_byte_inj c b c' b' :
  0 ≤ c < 2 ^ 32 → 0 ≤ c' < 2 ^ 32 →
  crc32_byte c b = crc32_byte c' b' → Z.lxor c (Z_of_byte b) = Z.lxor c' (Z_of_byte b').
Proof.
  intros Hc Hc'. unfold crc32_byte.
  apply iter_crc32_shift_inj; apply lxor_range; (done || apply Z_of_byte_range32).
Qed.

Lemma foldl_crc32_byte_range l c :
  0 ≤ c < 2 ^ 32 → 0 ≤ foldl crc32_byte c l < 2 ^ 32.
Proof.
  revert c. induction l as [|b l IH]; intros c Hc; [done|].
  simpl. apply IH. by apply crc32_byte_range.
Qed.

Lemma foldl_crc32_byte_inj l c d :
  0 ≤ c < 2 ^ 32 → 0 ≤ d < 2 ^ 32 →
  foldl crc32_byte c l = foldl crc32_byte d l → c = d.
Proof.
  revert c d. induction l as [|b l IH]; intros c d Hc Hd Heq; [done|].
  simpl in Heq. apply IH in Heq; [|by apply crc32_byte_range..].
  apply crc32_byte_inj in Heq; [|done..]. by apply lxor_inj_l in Heq.
Qed.

Lemma crc32_range crc l : 0 ≤ crc < 2 ^ 32 → 0 ≤ crc32 crc l < 2 ^ 32.
Proof.
  intros Hc. unfold crc32.
  apply lxor_range; [|done]. apply foldl_crc32_byte_range.
  apply lxor_range; done.
Qed.

(** Two buffers of the same length that differ in exactly one byte have
    different checksums. *)
Lemma crc32_detects_byte crc l1 b b' l2 :
  0 ≤ crc < 2 ^ 32 → b ≠ b' →
  crc32 crc (l1 ++ b :: l2) ≠ crc32 crc (l1 ++ b' :: l2).
Proof.
  intros Hc Hb Heq. unfold crc32 in Heq. apply lxor_inj_l in Heq.
  rewrite !foldl_app in Heq. simpl in Heq.
  assert (0 ≤ foldl crc32_byte (Z.lxor crc 4294967295) l1 < 2 ^ 32) as Hs.
  { apply foldl_crc32_byte_range. apply lxor_range; done. }
  apply foldl_crc32_byte_inj in Heq; [|by apply crc32_byte_range..].
  apply crc32_byte_inj in Heq; [|done..].
  apply lxor_inj_r in Heq. by apply Z_of_byte_inj in Heq.
Qed.
(** ** The journal decoder *)

Lemma process_server_ptr servers buf data servers' ptr' :
  process_server servers buf data = Some (servers', ptr') →
  ptr' = (data + strlen buf data + 1 + 8)%nat.
Proof.
  unfold process_server. destruct (process_server_loop buf data servers); [|done].
  simpl. intros Heq. by inversion Heq.
Qed.

(** The result of the loop does not depend on the fuel, once there is
    enough of it. *)
Lemma process_data_file_loop_fuel f1 f2 buf crc_ptr servers master ptr :
  (crc_ptr - ptr ≤ f1)%nat → (crc_ptr - ptr ≤ f2)%nat →
  process_data_file_loop f1 buf crc_ptr servers master ptr =
  process_data_file_loop f2 buf crc_ptr servers master ptr.
Proof.
  revert f2 servers master ptr.
  induction f1 as [|f1 IH]; intros f2 servers master ptr H1 H2.
  - destruct f2; simpl; case_bool_decide; (done || lia).
  - destruct f2 as [|f2]; simpl; case_bool_decide as Hlt; try (done || lia).
    destruct (has_null_terminator buf ptr crc_ptr); simpl; [|done].
    destruct (buf !! ptr) as [type|]; [|done].
    case_bool_decide.
    + destruct (process_server servers buf (ptr + Z.to_nat MMB_LEN_VALUE_TYPE))
        as [[servers' ptr']|] eqn:Hps; [|done].
      apply process_server_ptr in Hps. apply IH; lia.
    + case_bool_decide; [|done]. unfold process_master. apply IH; lia.
Qed.

(** The loop never runs out of the fuel that [process_data_file] gives it:
    the function returns. *)
Lemma process_data_file_loop_total f buf crc_ptr servers master ptr :
  (crc_ptr - ptr ≤ f)%nat →
  process_data_file_loop f buf crc_ptr servers master ptr ≠ DECODE_OUT_OF_FUEL.
Proof.
  revert servers master ptr. induction f as [|f IH]; intros servers master ptr Hf.
  - simpl. case_bool_decide; (done || lia).
  - simpl. case_bool_decide as Hlt; [|done].
    destruct (has_null_terminator buf ptr crc_ptr); simpl; [|done].
    destruct (buf !! ptr) as [type|]; [|done].
    case_bool_decide.
    + destruct (process_server servers buf (ptr + Z.to_nat MMB_LEN_VALUE_TYPE))
        as [[servers' ptr']|] eqn:Hps; [|done].
      apply process_server_ptr in Hps. apply IH; lia.
    + case_bool_decide; [|done]. unfold process_master. apply IH; lia.
Qed.

Lemma process_data_file_total servers master buf data crc_ptr :
  process_data_file servers master buf data crc_ptr ≠ DECODE_OUT_OF_FUEL.
Proof. unfold process_data_file. by apply process_data_file_loop_total. Qed.

(** The loop of the source, unrolled once. *)
Lemma process_data_file_unfold servers master buf ptr crc_ptr :
  process_data_file servers master buf ptr crc_ptr =
  if bool_decide (ptr < crc_ptr)%nat then
    if negb (has_null_terminator buf ptr crc_ptr) then
      DECODE_ERROR ERROR_journal_no_null_terminator servers master
    else
      match buf !! ptr with
      | None => DECODE_UNDEFINED
      | Some type =>
          if bool_decide (type = SVT_SERVER) then
            match process_server servers buf (ptr + 1) with
            | Some (servers', ptr') => process_data_file servers' master buf ptr' crc_ptr
            | None => DECODE_UNDEFINED
            end
          else if bool_decide (type = SVT_MASTER) then
            process_data_file servers (process_master servers master buf (ptr + 1)).1
              buf (process_master servers master buf (ptr + 1)).2 crc_ptr
          else DECODE_ERROR ERROR_journal_unknown_value servers master
      end
  else DECODE_OK servers master.
Proof.
  unfold process_data_file at 1.
  destruct (crc_ptr - ptr)%nat as [|f] eqn:Hf.
  - simpl. case_bool_decide; (done || lia).
  - simpl. case_bool_decide as Hlt; [|done].
    destruct (has_null_terminator buf ptr crc_ptr); simpl; [|done].
    destruct (buf !! ptr) as [type|]; [|done].
    change (Z.to_nat MMB_LEN_VALUE_TYPE) with 1%nat.
    case_bool_decide.
    + destruct (process_server servers buf (ptr + 1)) as [[servers' ptr']|] eqn:Hps; [|done].
      apply process_server_ptr in Hps. unfold process_data_file.
      apply process_data_file_loop_fuel; lia.
    + case_bool_decide; [|done]. unfold process_master, process_data_file. simpl.
      apply process_data_file_loop_fuel; lia.
Qed.
Lemma until_nul_app n rest : x00 ∉ n → until_nul (n ++ x00 :: rest) = n.
Proof.
  induction n as [|b n IH]; intros Hn; [done|].
  apply not_elem_of_cons in Hn as [Hb Hn]. cbn [app until_nul].
  case_bool_decide; [congruence|]. by rewrite IH.
Qed.

Lemma until_nul_no_nul l : x00 ∉ until_nul l.
Proof.
  induction l as [|b l IH]; simpl; [apply not_elem_of_nil|].
  case_bool_decide; [apply not_elem_of_nil|].
  apply not_elem_of_cons. done.
Qed.

Lemma name_bytes_no_nul s : x00 ∉ name_bytes s.
Proof. apply until_nul_no_nul. Qed.

Lemma c_str_drop buf p n rest :
  drop p buf = n ++ x00 :: rest → x00 ∉ n → c_str buf p = n.
Proof. intros Hd Hn. unfold c_str. rewrite Hd. by apply until_nul_app. Qed.

Lemma read_bytes_drop buf p bs rest :
  drop p buf = bs ++ rest → (p ≤ length buf)%nat →
  read_bytes buf p (length bs) = Some bs.
Proof.
  intros Hd Hp. unfold read_bytes.
  assert (length (drop p buf) = (length bs + length rest)%nat) as Hl
    by (by rewrite Hd, length_app).
  rewrite length_drop in Hl.
  rewrite bool_decide_eq_true_2 by lia.
  by rewrite Hd, take_app_length.
Qed.

Lemma process_server_loop_apply buf data n st servers bs :
  c_str buf data = n →
  read_bytes buf (data + strlen buf data + 1) (Z.to_nat MMB_LEN_SERVER_STATUS) = Some bs →
  get_byteN bs = st →
  process_server_loop buf data servers = Some (apply_server n st servers).
Proof.
  intros Hc Hr Hg. induction servers as [|db rest IH]; [done|].
  simpl. unfold name_matches. rewrite Hc.
  case_bool_decide.
  - rewrite Hr. simpl. by rewrite Hg.
  - rewrite IH. done.
Qed.

Lemma process_master_loop_find buf data n servers idx :
  c_str buf data = n →
  process_master_loop buf data servers idx = find_server n servers idx.
Proof.
  intros Hc. revert idx. induction servers as [|db rest IH]; intros idx; [done|].
  simpl. unfold name_matches. rewrite Hc. case_bool_decide; [done|]. apply IH.
Qed.

Lemma drop_lookup_head {A} (l : list A) p x rest :
  drop p l = x :: rest → l !! p = Some x.
Proof.
  intros Hd. rewrite <- (Nat.add_0_r p), <- lookup_drop, Hd. done.
Qed.

Lemma drop_le_length {A} (l : list A) p x rest :
  drop p l = x :: rest → (p < length l)%nat.
Proof.
  intros Hd. assert (length (drop p l) = S (length rest)) as Hl by (by rewrite Hd).
  rewrite length_drop in Hl. lia.
Qed.

Lemma drop_app_drop {A} (l : list A) p l1 l2 :
  drop p l = l1 ++ l2 → drop (p + length l1) l = l2.
Proof.
  intros Hd. rewrite <- drop_drop, Hd. apply drop_app_length.
Qed.

Lemma has_null_terminator_drop buf ptr crc_ptr l rest :
  drop ptr buf = l ++ rest → x00 ∈ l → (ptr + length l ≤ crc_ptr)%nat →
  has_null_terminator buf ptr crc_ptr = true.
Proof.
  intros Hd Hin Hle. unfold has_null_terminator. apply bool_decide_eq_true.
  rewrite Hd. rewrite take_app_ge by lia. apply elem_of_app. by left.
Qed.

Lemma length_encode_server n st :
  length (encode_entry (SERVER_ENTRY n st)) = (length n + 10)%nat.
Proof. simpl. rewrite !length_app. simpl. lia. Qed.

Lemma length_encode_master n :
  length (encode_entry (MASTER_ENTRY n)) = (length n + 2)%nat.
Proof. simpl. rewrite !length_app. simpl. lia. Qed.

(** Decoding one well-formed entry. *)
Lemma process_data_file_entry servers master buf ptr crc_ptr e post :
  drop ptr buf = encode_entry e ++ post →
  entry_ok e →
  (ptr + length (encode_entry e) ≤ crc_ptr)%nat →
  process_data_file servers master buf ptr crc_ptr =
  process_data_file (apply_entry (servers, master) e).1 (apply_entry (servers, master) e).2
    buf (ptr + length (encode_entry e)) crc_ptr.
Proof.
  intros Hd Hok Hle. rewrite process_data_file_unfold.
  assert (has_null_terminator buf ptr crc_ptr = true) as Hnul.
  { apply (has_null_terminator_drop buf ptr crc_ptr (encode_entry e) post); [done| |done].
    destruct e; simpl; rewrite !elem_of_cons, ?elem_of_app, ?elem_of_cons; tauto. }
  rewrite Hnul. simpl negb. cbv iota.
  destruct e as [n st|n].
  - destruct Hok as [Hn Hst]. rewrite length_encode_server in Hle |- *.
    rewrite bool_decide_eq_true_2 by lia.
    assert (drop ptr buf = SVT_SERVER :: (n ++ x00 :: set_byteN st 8 ++ post)) as Hd0.
    { rewrite Hd. simpl. by rewrite <- !app_assoc. }
    rewrite (drop_lookup_head _ _ _ _ Hd0).
    rewrite bool_decide_eq_true_2 by done.
    pose proof (drop_le_length _ _ _ _ Hd0) as Hlen.
    assert (drop (ptr + 1) buf = n ++ x00 :: set_byteN st 8 ++ post) as Hd1.
    { apply (drop_app_drop buf ptr [SVT_SERVER]). exact Hd0. }
    assert (c_str buf (ptr + 1) = n) as Hc by (by eapply c_str_drop).
    assert (drop (ptr + 1 + length n + 1) buf = set_byteN st 8 ++ post) as Hd2.
    { rewrite <- Nat.add_assoc.
      replace (length n + 1)%nat with (length (n ++ [x00])) by (rewrite length_app; simpl; lia).
      apply drop_app_drop. rewrite Hd1, <- app_assoc. done. }
    assert (read_bytes buf (ptr + 1 + strlen buf (ptr + 1) + 1)
              (Z.to_nat MMB_LEN_SERVER_STATUS) = Some (set_byteN st 8)) as Hr.
    { unfold strlen. rewrite Hc.
      assert (length (drop (ptr + 1 + length n + 1) buf) = length (set_byteN st 8 ++ post))
        as Hl by (by rewrite Hd2).
      rewrite length_drop, length_app, length_set_byteN in Hl.
      apply (read_bytes_drop buf _ (set_byteN st 8) post Hd2). lia. }
    assert (get_byteN (set_byteN st 8) = st) as Hg.
    { rewrite get_set_byteN. apply Z.mod_small. simpl. lia. }
    unfold process_server.
    rewrite (process_server_loop_apply buf (ptr + 1) n st servers _ Hc Hr Hg).
    simpl. unfold strlen. rewrite Hc.
    change (Z.to_nat MMB_LEN_SERVER_STATUS) with 8%nat.
    f_equal. lia.
  - simpl in Hok. rewrite length_encode_master in Hle |- *.
    rewrite bool_decide_eq_true_2 by lia.
    assert (drop ptr buf = SVT_MASTER :: (n ++ x00 :: post)) as Hd0.
    { rewrite Hd. simpl. by rewrite <- !app_assoc. }
    rewrite (drop_lookup_head _ _ _ _ Hd0).
    rewrite bool_decide_eq_false_2 by done.
    rewrite bool_decide_eq_true_2 by done.
    assert (drop (ptr + 1) buf = n ++ x00 :: post) as Hd1.
    { apply (drop_app_drop buf ptr [SVT_MASTER]). exact Hd0. }
    assert (c_str buf (ptr + 1) = n) as Hc by (by eapply c_str_drop).
    unfold process_master. simpl.
    rewrite (process_master_loop_find buf (ptr + 1) n servers 0 Hc).
    unfold strlen. rewrite Hc. f_equal. lia.
Qed.

Lemma encode_entries_cons e es :
  encode_entries (e :: es) = encode_entry e ++ encode_entries es.
Proof. done. Qed.

Lemma encode_entries_app es1 es2 :
  encode_entries (es1 ++ es2) = encode_entries es1 ++ encode_entries es2.
Proof. unfold encode_entries. by rewrite fmap_app, concat_app. Qed.

Lemma apply_entries_cons s e es :
  apply_entries s (e :: es) = apply_entries (apply_entry s e) es.
Proof. done. Qed.

(** Decoding a run of well-formed entries. *)
Lemma process_data_file_entries es servers master buf ptr crc_ptr post :
  drop ptr buf = encode_entries es ++ post →
  Forall entry_ok es →
  (ptr + length (encode_entries es) ≤ crc_ptr)%nat →
  process_data_file servers master buf ptr crc_ptr =
  process_data_file (apply_entries (servers, master) es).1
    (apply_entries (servers, master) es).2
    buf (ptr + length (encode_entries es)) crc_ptr.
Proof.
  revert servers master ptr.
  induction es as [|e es IH]; intros servers master ptr Hd Hok Hle.
  - simpl. by rewrite Nat.add_0_r.
  - rewrite encode_entries_cons in Hd, Hle |- *. rewrite length_app in Hle |- *.
    apply Forall_cons in Hok as [He Hes].
    rewrite <- app_assoc in Hd.
    assert (ptr + length (encode_entry e) ≤ crc_ptr)%nat as Hle1 by lia.
    rewrite (process_data_file_entry servers master buf ptr crc_ptr e _ Hd He Hle1).
    rewrite apply_entries_cons.
    destruct (apply_entry (servers, master) e) as [servers' master'] eqn:Hae.
    simpl fst. simpl snd.
    rewrite (IH servers' master' (ptr + length (encode_entry e))%nat); [| |done|lia].
    + f_equal. lia.
    + by apply drop_app_drop.
Qed.
(** ** Records: what the write path produces and what the read path does
    with a record *)

Lemma length_journal_entries servers master :
  Z.of_nat (length (encode_entries (snapshot_entries servers master))) =
  foldr (λ db acc, MMB_LEN_VALUE_TYPE + Z.of_nat (length (name_bytes (name (server db))))
                   + 1 + MMB_LEN_SERVER_STATUS + acc)
        (match master with
         | Some db => MMB_LEN_VALUE_TYPE + Z.of_nat (length (name_bytes (name (server db)))) + 1
         | None => 0
         end) servers.
Proof.
  unfold snapshot_entries, journal_name. rewrite encode_entries_app, length_app.
  induction servers as [|db rest IH].
  - simpl. destruct master; simpl; [|done].
    rewrite !length_app. simpl. unfold MMB_LEN_VALUE_TYPE. lia.
  - rewrite fmap_cons, encode_entries_cons, length_app, length_encode_server.
    cbn [foldr]. rewrite <- IH. unfold MMB_LEN_VALUE_TYPE, MMB_LEN_SERVER_STATUS. lia.
Qed.

Lemma journal_sum_nonneg servers tail :
  0 ≤ tail →
  0 ≤ foldr (λ db a, MMB_LEN_VALUE_TYPE + Z.of_nat (length (name_bytes (name (server db))))
                     + 1 + MMB_LEN_SERVER_STATUS + a) tail servers.
Proof.
  intros Htail. induction servers as [|d r IHr]; cbn [foldr]; [done|].
  unfold MMB_LEN_VALUE_TYPE, MMB_LEN_SERVER_STATUS in *. lia.
Qed.

Lemma journal_size_foldl servers acc tail :
  0 ≤ acc → 0 ≤ tail →
  acc + foldr (λ db a, MMB_LEN_VALUE_TYPE + Z.of_nat (length (name_bytes (name (server db))))
                       + 1 + MMB_LEN_SERVER_STATUS + a) tail servers < 2 ^ 32 →
  foldl (λ size db,
           (size + (MMB_LEN_VALUE_TYPE
                    + Z.of_nat (length (name_bytes (name (server db))))
                    + 1 + MMB_LEN_SERVER_STATUS)) mod 2 ^ 32) acc servers + tail
  = acc + foldr (λ db a, MMB_LEN_VALUE_TYPE + Z.of_nat (length (name_bytes (name (server db))))
                         + 1 + MMB_LEN_SERVER_STATUS + a) tail servers.
Proof.
  revert acc. induction servers as [|db rest IH]; intros acc Hacc Htail Hlt; [done|].
  cbn [foldl foldr] in *.
  pose proof (journal_sum_nonneg rest tail Htail) as Hpos.
  unfold MMB_LEN_VALUE_TYPE, MMB_LEN_SERVER_STATUS in *.
  rewrite Z.mod_small by lia.
  rewrite IH; lia.
Qed.

(** Without wrap-around the computed size is the length of what
    [store_data] writes after the length field. *)
Lemma journal_size_exact servers master :
  MMB_LEN_BYTES + MMB_LEN_SCHEMA_VERSION
  + Z.of_nat (length (encode_entries (snapshot_entries servers master)))
  + MMB_LEN_CRC32 < 2 ^ 32 →
  journal_size servers master =
  MMB_LEN_SCHEMA_VERSION
  + Z.of_nat (length (encode_entries (snapshot_entries servers master))) + MMB_LEN_CRC32.
Proof.
  intros Hlt. rewrite length_journal_entries in Hlt |- *. unfold journal_size.
  unfold MMB_LEN_BYTES, MMB_LEN_SCHEMA_VERSION, MMB_LEN_CRC32 in *.
  destruct master as [db|].
  - set (tail := MMB_LEN_VALUE_TYPE + Z.of_nat (length (name_bytes (name (server db)))) + 1) in *.
    assert (0 ≤ tail) by (unfold tail, MMB_LEN_VALUE_TYPE; lia).
    pose proof (journal_sum_nonneg servers tail ltac:(lia)) as Hpos.
    pose proof (journal_size_foldl servers (1 + 4) tail ltac:(lia) ltac:(lia) ltac:(lia)) as Hf.
    rewrite Z.mod_small; lia.
  - pose proof (journal_size_foldl servers (1 + 4) 0 ltac:(lia) ltac:(lia) ltac:(lia)) as Hf.
    lia.
Qed.

Lemma store_data_entries servers master :
  concat (store_server_entry <$> servers) ++ store_master_entry master =
  encode_entries (snapshot_entries servers master).
Proof.
  unfold snapshot_entries. rewrite encode_entries_app. f_equal.
  - unfold encode_entries. rewrite <- list_fmap_compose. done.
  - destruct master; [|done]. unfold encode_entries. simpl. by rewrite app_nil_r.
Qed.

(** What [store_data] writes is the record around the snapshot's entries. *)
Lemma store_data_record servers master :
  MMB_LEN_BYTES + MMB_LEN_SCHEMA_VERSION
  + Z.of_nat (length (encode_entries (snapshot_entries servers master)))
  + MMB_LEN_CRC32 < 2 ^ 32 →
  store_data servers master (journal_size servers master) =
  journal_record (encode_entries (snapshot_entries servers master)).
Proof.
  intros Hlt. rewrite (journal_size_exact _ _ Hlt).
  unfold store_data, journal_record. rewrite store_data_entries.
  set (payload := encode_entries (snapshot_entries servers master)).
  rewrite take_ge
    by (rewrite length_app; simpl length; unfold MMB_LEN_SCHEMA_VERSION, MMB_LEN_CRC32; lia).
  change (crc32 0 []) with 0. by rewrite <- app_assoc.
Qed.

Lemma get_set_byte4 v : 0 ≤ v < 2 ^ 32 → get_byteN (mxs_set_byte4 v) = v.
Proof.
  intros Hv. unfold mxs_set_byte4. rewrite get_set_byteN. apply Z.mod_small.
  simpl. lia.
Qed.

Lemma length_set_byte4 v : length (mxs_set_byte4 v) = 4%nat.
Proof. apply length_set_byteN. Qed.

Lemma length_journal_record payload :
  length (journal_record payload) = (length payload + 9)%nat.
Proof.
  unfold journal_record, mxs_set_byte4. rewrite !length_app, !length_set_byteN.
  simpl. lia.
Qed.

(** The read path on a file that has the layout of a record: a length that
    matches, one byte of version, a payload and four bytes of checksum. *)
Lemma load_record_layout servers master version payload crc_bytes :
  Z.of_nat (length payload) + 9 < 2 ^ 32 →
  length crc_bytes = 4%nat →
  load_server_journal servers master
    (Some (mxs_set_byte4 (MMB_LEN_SCHEMA_VERSION + Z.of_nat (length payload) + MMB_LEN_CRC32)
           ++ [version] ++ payload ++ crc_bytes)) =
  if bool_decide (version = MMB_SCHEMA_VERSION) then
    if crc32 0 ([version] ++ payload) =? get_byteN crc_bytes then
      match process_data_file servers master ([version] ++ payload ++ crc_bytes)
              1 (1 + length payload) with
      | DECODE_OK servers' master' => Some (servers', master', [NOTICE_loaded_journal])
      | DECODE_ERROR e servers' master' => Some (servers', master', [e])
      | DECODE_UNDEFINED | DECODE_OUT_OF_FUEL => None
      end
    else Some (servers, master, [ERROR_crc32_mismatch])
  else Some (servers, master, [ERROR_unknown_schema_version version]).
Proof.
  intros Hlt Hcl. unfold load_server_journal.
  set (size := MMB_LEN_SCHEMA_VERSION + Z.of_nat (length payload) + MMB_LEN_CRC32).
  assert (0 ≤ size < 2 ^ 32 ∧ 5 ≤ size) as [Hsize Hsize5]
    by (unfold size, MMB_LEN_SCHEMA_VERSION, MMB_LEN_CRC32; lia).
  change (Z.to_nat MMB_LEN_BYTES) with (length (mxs_set_byte4 size)).
  rewrite take_app_length, drop_app_length.
  rewrite bool_decide_eq_true_2 by done.
  rewrite (get_set_byte4 size Hsize).
  assert (length ([version] ++ payload ++ crc_bytes) = Z.to_nat size) as Hlen.
  { rewrite !length_app, Hcl. simpl.
    unfold size, MMB_LEN_SCHEMA_VERSION, MMB_LEN_CRC32. lia. }
  rewrite take_ge by lia.
  rewrite bool_decide_eq_true_2 by (rewrite Hlen; lia).
  simpl lookup. cbv iota.
  case_bool_decide as Hv; [|done].
  rewrite bool_decide_eq_false_2 by (unfold MMB_LEN_CRC32; lia).
  assert (Z.to_nat (size - MMB_LEN_CRC32) = length ([version] ++ payload)) as Hcrc.
  { rewrite length_app. simpl. unfold size, MMB_LEN_SCHEMA_VERSION, MMB_LEN_CRC32. lia. }
  rewrite Hcrc. rewrite app_assoc, take_app_length, drop_app_length.
  unfold check_crc32. change (crc32 0 []) with 0.
  destruct (crc32 0 ([version] ++ payload) =? get_byteN crc_bytes); [|done].
  rewrite <- app_assoc.
  change (Z.to_nat MMB_LEN_SCHEMA_VERSION) with 1%nat.
  rewrite length_app. simpl length. done.
Qed.

(** The read path on a record: the length, the schema version and the
    CRC-32 are accepted and the payload is decoded. *)
Lemma load_journal_record servers master payload :
  Z.of_nat (length payload) + 9 < 2 ^ 32 →
  load_server_journal servers master (Some (journal_record payload)) =
  match process_data_file servers master
          ([MMB_SCHEMA_VERSION] ++ payload
           ++ mxs_set_byte4 (crc32 0 ([MMB_SCHEMA_VERSION] ++ payload)))
          1 (1 + length payload) with
  | DECODE_OK servers' master' => Some (servers', master', [NOTICE_loaded_journal])
  | DECODE_ERROR e servers' master' => Some (servers', master', [e])
  | DECODE_UNDEFINED | DECODE_OUT_OF_FUEL => None
  end.
Proof.
  intros Hlt. unfold journal_record.
  rewrite (load_record_layout _ _ _ _ _ Hlt (length_set_byte4 _)).
  rewrite bool_decide_eq_true_2 by done.
  pose proof (crc32_range 0 ([MMB_SCHEMA_VERSION] ++ payload) ltac:(lia)) as Hr.
  rewrite (get_set_byte4 _ Hr), Z.eqb_refl. done.
Qed.

(** Changing one byte of a record, from the version byte on, makes the
    read path refuse it at the version check or at the CRC-32 check, with
    the servers and the master as they were. *)
Lemma load_flipped_record servers master payload i b b' :
  Z.of_nat (length payload) + 9 < 2 ^ 32 →
  (4 ≤ i)%nat →
  journal_record payload !! i = Some b →
  b' ≠ b →
  load_server_journal servers master (Some (<[i := b']> (journal_record payload))) =
  Some (servers, master,
        [if bool_decide (i = 4%nat) then ERROR_unknown_schema_version b'
         else ERROR_crc32_mismatch]).
Proof.
  intros Hlt Hi Hb Hne. unfold journal_record in *.
  set (crc := crc32 0 ([MMB_SCHEMA_VERSION] ++ payload)) in *.
  pose proof (crc32_range 0 ([MMB_SCHEMA_VERSION] ++ payload) ltac:(lia)) as Hr. fold crc in Hr.
  rewrite insert_app_r_alt by (rewrite length_set_byte4; lia).
  rewrite lookup_app_r in Hb by (rewrite length_set_byte4; lia).
  rewrite length_set_byte4 in *.
  destruct (decide (i = 4%nat)) as [->|Hi4].
  - (* the version byte *)
    simpl in Hb. inversion Hb; subst b. simpl insert.
    etrans; [exact (load_record_layout servers master b' payload _ Hlt (length_set_byte4 crc))|].
    rewrite bool_decide_eq_false_2 by done. by rewrite bool_decide_eq_true_2.
  - rewrite (bool_decide_eq_false_2 _ Hi4).
    rewrite insert_app_r_alt by (simpl; lia).
    rewrite lookup_app_r in Hb by (simpl; lia). simpl length in *.
    destruct (decide (i - 4 - 1 < length payload)%nat) as [Hp|Hp].
    + (* a byte of the payload *)
      rewrite insert_app_l by done. rewrite lookup_app_l in Hb by done.
      pose proof (take_drop_middle _ _ _ Hb) as Hmid.
      rewrite insert_take_drop by done.
      set (p1 := take (i - 4 - 1) payload) in *.
      set (p2 := drop (S (i - 4 - 1)) payload) in *.
      assert (length (p1 ++ b' :: p2) = length payload) as Hl'.
      { clearbody p1 p2. rewrite <- Hmid. by rewrite !length_app. }
      rewrite <- Hl'.
      assert (Z.of_nat (length (p1 ++ b' :: p2)) + 9 < 2 ^ 32) as Hlt' by (by rewrite Hl').
      etrans; [exact (load_record_layout servers master MMB_SCHEMA_VERSION (p1 ++ b' :: p2) _
                        Hlt' (length_set_byte4 crc))|].
      cbv beta iota.
      rewrite (get_set_byte4 _ Hr).
      assert (crc32 0 ([MMB_SCHEMA_VERSION] ++ p1 ++ b' :: p2) ≠ crc) as Hcrc.
      { unfold crc. rewrite <- Hmid.
        rewrite !(app_assoc [MMB_SCHEMA_VERSION] p1).
        apply crc32_detects_byte; [lia|done]. }
      apply Z.eqb_neq in Hcrc. by rewrite Hcrc.
    + (* a byte of the checksum *)
      rewrite insert_app_r_alt by lia. rewrite lookup_app_r in Hb by lia.
      pose proof (lookup_lt_Some _ _ _ Hb) as Hlt4.
      assert (length (<[(i - 4 - 1 - length payload)%nat := b']> (mxs_set_byte4 crc)) = 4%nat)
        as Hl4 by (by rewrite length_insert, length_set_byte4).
      etrans; [exact (load_record_layout servers master MMB_SCHEMA_VERSION payload _ Hlt Hl4)|].
      cbv beta iota.
      assert (crc ≠ get_byteN (<[(i - 4 - 1 - length payload)%nat := b']> (mxs_set_byte4 crc)))
        as Hcrc.
      { rewrite <- (get_set_byte4 crc Hr) at 1. intros Heq.
        apply get_byteN_inj in Heq; [|by rewrite length_insert].
        assert (<[(i - 4 - 1 - length payload)%nat := b']> (mxs_set_byte4 crc)
                !! (i - 4 - 1 - length payload)%nat = Some b') as Hb'
          by (by apply list_lookup_insert_eq).
        rewrite <- Heq, Hb in Hb'. by inversion Hb'. }
      apply Z.eqb_neq in Hcrc. fold crc. by rewrite Hcrc.
Qed.
(** ** Loading a snapshot into the monitor it came from *)

Lemma journal_name_load_status db st :
  journal_name (load_status db st) = journal_name db.
Proof. done. Qed.

Lemma apply_server_at pre d0 rest st :
  journal_name d0 ∉ journal_name <$> pre →
  apply_server (journal_name d0) st (pre ++ d0 :: rest) =
  pre ++ load_status d0 st :: rest.
Proof.
  induction pre as [|p pre IH]; intros Hn.
  - simpl. fold (journal_name d0). by rewrite bool_decide_eq_true_2.
  - rewrite fmap_cons in Hn. apply not_elem_of_cons in Hn as [Hp Hn].
    simpl. fold (journal_name p). rewrite bool_decide_eq_false_2 by done.
    by rewrite IH.
Qed.

(** The server entries of a snapshot, applied to servers with the same
    names in the same order: each server gets its own stored status. *)
Lemma apply_server_entries pre s0 servers master :
  journal_name <$> s0 = journal_name <$> servers →
  NoDup ((journal_name <$> pre) ++ (journal_name <$> servers)) →
  apply_entries (pre ++ s0, master)
    ((λ db, SERVER_ENTRY (journal_name db) (status (server db))) <$> servers) =
  (pre ++ zip_with (λ d0 db, load_status d0 (status (server db))) s0 servers, master).
Proof.
  revert pre s0. induction servers as [|db servers IH]; intros pre s0 Hnames Hnd.
  - destruct s0; [|done]. done.
  - destruct s0 as [|d0 s0]; [done|].
    rewrite !fmap_cons in Hnames. injection Hnames as Hn0 Hnames.
    rewrite fmap_cons, apply_entries_cons. cbn [apply_entry fst snd zip_with].
    rewrite fmap_cons in Hnd.
    apply NoDup_app in Hnd as (Hnd1 & Hdisj & Hnd2).
    apply NoDup_cons in Hnd2 as [Hdb Hnd2].
    rewrite <- Hn0.
    rewrite apply_server_at.
    2:{ rewrite Hn0. intros Hin. apply (Hdisj _ Hin). left. }
    replace (pre ++ load_status d0 (status (server db)) :: s0)
      with ((pre ++ [load_status d0 (status (server db))]) ++ s0)
      by (by rewrite <- app_assoc).
    rewrite IH; [by rewrite <- app_assoc|done|].
    rewrite fmap_app. simpl. rewrite journal_name_load_status, Hn0, <- app_assoc.
    simpl. apply NoDup_app. split; [done|]. split.
    + intros x Hx Hin. apply elem_of_cons in Hin as [->|Hin].
      * apply (Hdisj _ Hx). left.
      * apply (Hdisj _ Hx). by right.
    + by apply NoDup_cons.
Qed.

Lemma find_server_nodup l i d k :
  NoDup (journal_name <$> l) → l !! i = Some d →
  find_server (journal_name d) l k = Some (k + i)%nat.
Proof.
  revert i k. induction l as [|x l IH]; intros i k Hnd Hi; [done|].
  rewrite fmap_cons in Hnd. apply NoDup_cons in Hnd as [Hx Hnd].
  destruct i as [|i]; simpl in Hi.
  - inversion Hi; subst. simpl. fold (journal_name d).
    rewrite bool_decide_eq_true_2 by done. f_equal. lia.
  - simpl. fold (journal_name x). rewrite bool_decide_eq_false_2.
    + rewrite (IH i (S k)) by done. f_equal. lia.
    + intros Heq. apply Hx. rewrite Heq. apply list_elem_of_fmap.
      exists d. split; [done|]. by eapply list_elem_of_lookup_2.
Qed.

Lemma journal_name_zip_load s0 servers :
  journal_name <$> s0 = journal_name <$> servers →
  journal_name <$> zip_with (λ d0 db, load_status d0 (status (server db))) s0 servers
  = journal_name <$> servers.
Proof.
  revert s0. induction servers as [|db servers IH]; intros [|d0 s0] Hn; try done.
  rewrite !fmap_cons in Hn. injection Hn as Hn0 Hn.
  cbn [zip_with]. rewrite !fmap_cons, journal_name_load_status, Hn0. f_equal. by apply IH.
Qed.

Lemma snapshot_entries_ok servers master :
  Forall (λ db, 0 ≤ status (server db) < 2 ^ 64) servers →
  Forall entry_ok (snapshot_entries servers master).
Proof.
  intros Hst. unfold snapshot_entries. apply Forall_app. split.
  - apply Forall_fmap. eapply Forall_impl; [exact Hst|].
    intros db Hdb. simpl. split; [apply name_bytes_no_nul|done].
  - destruct master; [|done]. apply Forall_singleton. simpl. apply name_bytes_no_nul.
Qed.

(** The whole snapshot applied: statuses and master. *)
Lemma apply_snapshot_entries s0 servers master :
  legal_snapshot servers master →
  journal_name <$> s0 = journal_name <$> servers →
  apply_entries (s0, None) (snapshot_entries servers (deref servers master)) =
  (zip_with (λ d0 db, load_status d0 (status (server db))) s0 servers, master).
Proof.
  intros (Hnd & Hst & Hm & Hsize) Hnames. unfold snapshot_entries, apply_entries.
  rewrite foldl_app. fold (apply_entries (s0, None)
    ((λ db, SERVER_ENTRY (journal_name db) (status (server db))) <$> servers)).
  pose proof (apply_server_entries [] s0 servers None Hnames Hnd) as Happ.
  simpl in Happ. rewrite Happ.
  destruct master as [i|]; [|done]. simpl deref.
  specialize (Hm i eq_refl).
  destruct (servers !! i) as [db|] eqn:Hdb.
  2:{ apply lookup_ge_None in Hdb. lia. }
  simpl. fold (journal_name db).
  assert (∃ d', zip_with (λ d0 db, load_status d0 (status (server db))) s0 servers !! i = Some d'
                ∧ journal_name d' = journal_name db) as (d' & Hd' & Hn').
  { pose proof (journal_name_zip_load s0 servers Hnames) as Hz.
    assert ((journal_name <$> servers) !! i = Some (journal_name db)) as Hl
      by (by rewrite list_lookup_fmap, Hdb).
    rewrite <- Hz, list_lookup_fmap in Hl.
    destruct (zip_with _ s0 servers !! i) as [d'|]; [|done].
    exists d'. split; [done|]. by inversion Hl. }
  rewrite <- Hn'.
  rewrite (find_server_nodup _ i d' 0); [done| |done].
  by rewrite (journal_name_zip_load s0 servers Hnames).
Qed.
Lemma lor_absorb a b : Z.land a (Z.lnot b) = 0 → Z.lor a b = b.
Proof.
  intros Hsub. apply Z.bits_inj'. intros i Hi. rewrite Z.lor_spec.
  assert (Z.testbit (Z.land a (Z.lnot b)) i = false) as Hb by (rewrite Hsub; apply Z.bits_0).
  rewrite Z.land_spec, Z.lnot_spec in Hb by done.
  destruct (Z.testbit a i), (Z.testbit b i); done.
Qed.

(** C1 (amended): the write path applied to a legal snapshot and the read
    path applied to the result, in a monitor with the same servers, give
    every server the stored status as its previous status and note the
    stored master. The live status gets the stored bits added to the ones
    it has ([set_status] sets bits); it is the stored status when it had no
    other bit, as after a start of the process. And a record in which one
    byte, from the version byte through the CRC field, has another value is
    refused by the version check or the CRC-32 check, and leaves the
    servers and the master as they were. *)
Theorem journal_round_trip (servers s0 : list MonitorServer) (master : option nat) :
  legal_snapshot servers master →
  journal_name <$> s0 = journal_name <$> servers →
  let record := store_data servers (deref servers master)
                  (journal_size servers (deref servers master)) in
  (∃ servers',
     load_server_journal s0 None (Some record)
       = Some (servers', master, [NOTICE_loaded_journal])
     ∧ length servers' = length servers
     ∧ ∀ i d0 db, s0 !! i = Some d0 → servers !! i = Some db →
         ∃ d', servers' !! i = Some d'
           ∧ name (server d') = name (server d0)
           ∧ mon_prev_status d' = status (server db)
           ∧ status (server d') = Z.lor (status (server d0)) (status (server db))
           ∧ (Z.land (status (server d0)) (Z.lnot (status (server db))) = 0 →
              status (server d') = status (server db)))
  ∧ (∀ i b b', (4 ≤ i)%nat → record !! i = Some b → b' ≠ b →
       load_server_journal s0 None (Some (<[i := b']> record))
         = Some (s0, None,
                 [if bool_decide (i = 4%nat) then ERROR_unknown_schema_version b'
                  else ERROR_crc32_mismatch])).
Proof.
  intros Hlegal Hnames record.
  pose proof Hlegal as (Hnd & Hst & Hm & Hsize).
  set (payload := encode_entries (snapshot_entries servers (deref servers master))) in *.
  assert (record = journal_record payload) as Hrec by (by apply store_data_record).
  assert (Z.of_nat (length payload) + 9 < 2 ^ 32) as Hlt
    by (unfold MMB_LEN_BYTES, MMB_LEN_SCHEMA_VERSION, MMB_LEN_CRC32 in Hsize; lia).
  split.
  - exists (zip_with (λ d0 db, load_status d0 (status (server db))) s0 servers).
    assert (length s0 = length servers) as Hlen.
    { rewrite <- (length_fmap journal_name s0), Hnames. apply length_fmap. }
    split; [|split].
    + rewrite Hrec, (load_journal_record _ _ _ Hlt).
      rewrite (process_data_file_entries (snapshot_entries servers (deref servers master))
                 s0 None _ 1 (1 + length payload) (mxs_set_byte4 (crc32 0 ([MMB_SCHEMA_VERSION] ++ payload)))).
      * rewrite (apply_snapshot_entries s0 servers master Hlegal Hnames). cbn [fst snd].
        fold payload. rewrite process_data_file_unfold.
        rewrite bool_decide_eq_false_2 by lia. done.
      * done.
      * by apply snapshot_entries_ok.
      * fold payload. lia.
    + rewrite length_zip_with. lia.
    + intros i d0 db Hd0 Hdb. exists (load_status d0 (status (server db))).
      split; [|split; [done|split; [done|split; [done|]]]].
      * rewrite lookup_zip_with, Hd0. simpl. by rewrite Hdb.
      * intros Hsub. simpl. by apply lor_absorb.
  - intros i b b' Hi Hb Hne. rewrite Hrec in Hb |- *.
    by apply (load_flipped_record s0 None payload i b b').
Qed.

(** C1 on an input: two servers, the first noted as master, loaded into a
    monitor whose servers have status 0. *)
Lemma journal_round_trip_witness :
  let servers := [sample_server "A" 9; sample_server "B" 17] in
  let s0 := [sample_server "A" 0; sample_server "B" 0] in
  let record := store_data servers (deref servers (Some 0%nat))
                  (journal_size servers (deref servers (Some 0%nat))) in
  legal_snapshot servers (Some 0%nat)
  ∧ (∃ servers',
       load_server_journal s0 None (Some record)
         = Some (servers', Some 0%nat, [NOTICE_loaded_journal])
       ∧ length servers' = 2%nat)
  ∧ load_server_journal s0 None (Some (<[6%nat := "B"%byte]> record))
      = Some (s0, None, [ERROR_crc32_mismatch]).
Proof.
  intros servers s0 record.
  assert (legal_snapshot servers (Some 0%nat)) as Hlegal.
  { split; [|split; [|split]].
    - apply (bool_decide_unpack _). vm_compute. exact I.
    - repeat constructor; simpl; lia.
    - intros i Hi. injection Hi as <-. simpl. lia.
    - vm_compute. reflexivity. }
  split; [exact Hlegal|].
  destruct (journal_round_trip servers s0 (Some 0%nat) Hlegal eq_refl)
    as ((servers' & Hload & Hlen & _) & Hflip).
  split.
  - exists servers'. split; [exact Hload|exact Hlen].
  - apply (Hflip 6%nat "A"%byte "B"%byte); [lia|vm_compute; reflexivity|discriminate].
Defined.

(** C1 (as stated) fails for the live status: the snapshot has server A
    with [RUNNING]; at load time A has [MAINT] (set by the administrator
    while the monitor was stopped). After the load the previous status is
    [RUNNING] but the live status is [RUNNING | MAINT], not the stored
    one. *)
Lemma load_server_journal_merges_live_status :
  let B := sample_bits in
  let servers := [sample_server "A" SERVER_RUNNING] in
  let s0 := [sample_server "A" SERVER_MAINT] in
  let record := store_data servers None (journal_size servers None) in
  ∃ d', load_server_journal s0 None (Some record) = Some ([d'], None, [NOTICE_loaded_journal])
        ∧ mon_prev_status d' = SERVER_RUNNING
        ∧ status (server d') = Z.lor SERVER_RUNNING SERVER_MAINT
        ∧ status (server d') ≠ SERVER_RUNNING.
Proof.
  intros B servers s0 record. eexists. split; [vm_compute; reflexivity|].
  vm_compute. repeat split; discriminate.
Qed.
(** ** Anomalies in the payload *)

(** C7 (amended): a payload that consists of well-formed entries followed
    by bytes [bad] that have no terminator before the CRC field, or that
    start with a type byte other than [SVT_SERVER] and [SVT_MASTER], makes
    [process_data_file] return false with exactly one error logged (the
    missing terminator is reported first). The entries decoded before the
    anomaly stay applied: the servers and the master are left as those
    entries made them, not as they were before the load. *)
Theorem process_data_file_anomaly (servers : list MonitorServer) (master : option nat)
    (es : list journal_entry) (bad : list byte) :
  Forall entry_ok es →
  bad ≠ [] →
  (x00 ∉ bad ∨ ∃ t, head bad = Some t ∧ t ≠ SVT_SERVER ∧ t ≠ SVT_MASTER) →
  let payload := encode_entries es ++ bad in
  let st := apply_entries (servers, master) es in
  let e := if bool_decide (x00 ∈ bad) then ERROR_journal_unknown_value
           else ERROR_journal_no_null_terminator in
  (∀ crc_bytes,
     process_data_file servers master ([MMB_SCHEMA_VERSION] ++ payload ++ crc_bytes)
       1 (1 + length payload) = DECODE_ERROR e st.1 st.2)
  ∧ (Z.of_nat (length payload) + 9 < 2 ^ 32 →
     load_server_journal servers master (Some (journal_record payload))
       = Some (st.1, st.2, [e]))
  ∧ is_error e = true.
Proof.
  intros Hok Hbad Hanom payload st e.
  assert (∀ crc_bytes,
     process_data_file servers master ([MMB_SCHEMA_VERSION] ++ payload ++ crc_bytes)
       1 (1 + length payload) = DECODE_ERROR e st.1 st.2) as Hdecode.
  { intros crc_bytes. set (buf := [MMB_SCHEMA_VERSION] ++ payload ++ crc_bytes).
    assert (drop 1 buf = encode_entries es ++ (bad ++ crc_bytes)) as Hd.
    { unfold buf, payload. simpl. by rewrite <- app_assoc. }
    assert (length payload = (length (encode_entries es) + length bad)%nat) as Hlp
      by (unfold payload; by rewrite length_app).
    rewrite (process_data_file_entries es servers master buf 1 (1 + length payload) _ Hd Hok)
      by lia.
    fold st. rewrite process_data_file_unfold.
    assert (0 < length bad)%nat by (destruct bad; [done|simpl; lia]).
    rewrite bool_decide_eq_true_2 by lia.
    assert (drop (1 + length (encode_entries es)) buf = bad ++ crc_bytes) as Hd'
      by (by apply drop_app_drop).
    unfold has_null_terminator. rewrite Hd'.
    replace (1 + length payload - (1 + length (encode_entries es)))%nat
      with (length bad) by lia.
    rewrite take_app_length. subst e.
    case_bool_decide as Hnul; simpl negb; cbv iota; [|done].
    destruct Hanom as [Hno|(t & Ht & Hs & Hm)]; [done|].
    destruct bad as [|t' bad']; [done|]. simpl in Ht. inversion Ht; subst t'.
    rewrite (drop_lookup_head _ _ _ _ Hd').
    rewrite bool_decide_eq_false_2 by done.
    by rewrite bool_decide_eq_false_2. }
  split; [exact Hdecode|]. split.
  - intros Hlt. rewrite (load_journal_record _ _ _ Hlt). by rewrite Hdecode.
  - subst e. by case_bool_decide.
Qed.

(** C7 on an input: the entry of server A followed by a type byte 9. *)
Lemma process_data_file_anomaly_witness :
  let servers := [sample_server "A" 0] in
  let es := [SERVER_ENTRY (name_bytes "A") 9] in
  let bad := ["009"%byte; x00] in
  Forall entry_ok es
  ∧ load_server_journal servers None (Some (journal_record (encode_entries es ++ bad)))
    = Some ((apply_entries (servers, None) es).1, None, [ERROR_journal_unknown_value]).
Proof.
  intros servers es bad.
  assert (Forall entry_ok es) as Hok.
  { apply Forall_singleton. split; [apply name_bytes_no_nul|lia]. }
  split; [exact Hok|].
  assert (bad ≠ []) as Hbad by done.
  assert (x00 ∉ bad ∨ ∃ t, head bad = Some t ∧ t ≠ SVT_SERVER ∧ t ≠ SVT_MASTER) as Hanom.
  { right. exists "009"%byte. repeat split; discriminate. }
  destruct (process_data_file_anomaly servers None es bad Hok Hbad Hanom) as (_ & Hload & _).
  apply Hload. vm_compute. reflexivity.
Defined.

(** C7 (as stated) fails for the state after the abort: server A starts
    with status 0 and the sentinel as previous status; the payload holds
    the entry of A with status 9 and then an unknown type byte. The load
    is aborted with one error, and A keeps the status 9 that the first
    entry gave it. *)
Lemma process_data_file_abort_keeps_partial_state :
  let servers := [sample_server "A" 0] in
  let payload := encode_entry (SERVER_ENTRY (name_bytes "A") 9) ++ ["009"%byte; x00] in
  ∃ d', load_server_journal servers None (Some (journal_record payload))
          = Some ([d'], None, [ERROR_journal_unknown_value])
        ∧ status (server d') = 9 ∧ mon_prev_status d' = 9
        ∧ [d'] ≠ servers.
Proof.
  intros servers payload. eexists. split; [vm_compute; reflexivity|].
  repeat split. discriminate.
Qed.

(** An entry that overruns the payload is not noticed: the payload ends
    four bytes into the status of server A. [process_data_file] reads the
    status across the CRC field, moves past [crc_ptr], leaves the loop and
    returns true. With fewer bytes left the read leaves the buffer. *)
Lemma process_data_file_overrun_accepted :
  let servers := [sample_server "A" 0] in
  let payload := [SVT_SERVER] ++ name_bytes "A" ++ [x00; x01; x02; x03; x04] in
  let crc_bytes := mxs_set_byte4 (crc32 0 ([MMB_SCHEMA_VERSION] ++ payload)) in
  (∃ d', load_server_journal servers None (Some (journal_record payload))
           = Some ([d'], None, [NOTICE_loaded_journal])
         ∧ status (server d') = get_byteN ([x01; x02; x03; x04] ++ crc_bytes))
  ∧ process_data_file servers None
      ([MMB_SCHEMA_VERSION; SVT_SERVER] ++ name_bytes "A" ++ [x00] ++ crc_bytes) 1 4
    = DECODE_UNDEFINED.
Proof.
  intros servers payload crc_bytes. split.
  - eexists. split; vm_compute; reflexivity.
  - vm_compute. reflexivity.
Qed.
(** ** Bits of the status word, with the flags at distinct positions *)

Section BitFacts.
Context `{HB : ServerBits} {Hok : ServerBitsOk HB}.

Lemma pos_distinct i j a b :
  all_positions !! i = Some a → all_positions !! j = Some b → i ≠ j → a ≠ b.
Proof.
  intros Hi Hj Hne Heq. subst b. apply Hne.
  eapply NoDup_lookup; [apply positions_distinct|done..].
Qed.

Lemma pos_lt_64 k : k ∈ all_positions → (k < 64)%N.
Proof.
  intros Hk. pose proof positions_in_word as Hall.
  rewrite Forall_forall in Hall. by apply Hall.
Qed.

Lemma flag_testbit_same k : Z.testbit (flag k) (Z.of_N k) = true.
Proof. rewrite flag_testbit. apply Z.eqb_refl. Qed.

Lemma flag_testbit_other a b : a ≠ b → Z.testbit (flag a) (Z.of_N b) = false.
Proof. intros Hne. rewrite flag_testbit. apply Z.eqb_neq. lia. Qed.

Lemma land_lnot_lor a b : Z.land a (Z.lnot (Z.lor a b)) = 0.
Proof.
  apply Z.bits_inj'. intros i Hi.
  rewrite Z.land_spec, Z.lnot_spec, Z.lor_spec, Z.bits_0 by done.
  by destruct (Z.testbit a i), (Z.testbit b i).
Qed.

Lemma has_bit_testbit x k : has_bit x (flag k) = Z.testbit x (Z.of_N k).
Proof. apply nonzero_land_flag. Qed.

Lemma sentinel_testbit k : (k < 64)%N → Z.testbit UINT64_MINUS_ONE (Z.of_N k) = true.
Proof.
  intros Hk. unfold UINT64_MINUS_ONE.
  replace (2 ^ 64 - 1) with (Z.ones 64) by (rewrite Z.ones_equiv; lia).
  apply Z.ones_spec_low. lia.
Qed.
End BitFacts.

(** Proves that two of the named positions differ. *)
Ltac pos_index p :=
  lazymatch p with
  | pos_RUNNING => constr:(0%nat)
  | pos_MAINT => constr:(1%nat)
  | pos_AUTH_ERROR => constr:(2%nat)
  | pos_MASTER => constr:(3%nat)
  | pos_SLAVE => constr:(4%nat)
  | pos_DRAINING => constr:(5%nat)
  | pos_DISK_SPACE_EXHAUSTED => constr:(6%nat)
  | pos_WAS_MASTER => constr:(7%nat)
  | pos_JOINED => constr:(8%nat)
  end.

Ltac pos_neq :=
  lazymatch goal with
  | |- ?a ≠ ?b =>
      let i := pos_index a in
      let j := pos_index b in
      apply (pos_distinct i j); [reflexivity | reflexivity | discriminate]
  end.

(** Evaluates [Z.testbit] of words built from flags at a named position. *)
Ltac simpl_bits :=
  unfold clear_bits, SERVER_RUNNING, SERVER_MAINT, SERVER_AUTH_ERROR, SERVER_MASTER,
    SERVER_SLAVE, SERVER_DRAINING, SERVER_DISK_SPACE_EXHAUSTED, SERVER_WAS_MASTER,
    SERVER_JOINED in *;
  repeat first
    [ rewrite Z.lor_spec
    | rewrite Z.land_spec
    | rewrite Z.lnot_spec by lia
    | rewrite flag_testbit_same
    | rewrite flag_testbit_other by pos_neq ].

(** ** Servers in maintenance during a tick *)

Section MaintenanceFacts.
Context `{HB : ServerBits} {Hok : ServerBitsOk HB}.
Context (SHA1 : list byte → list byte).
Context (is_usable is_in_cluster : SERVER → bool).
Context (update_server_status : option nat → nat → MonitorServer → Z * option nat).

Lemma is_in_maint_testbit s : is_in_maint s = Z.testbit (status s) (Z.of_N pos_MAINT).
Proof. unfold is_in_maint, SERVER_MAINT. apply nonzero_land_flag. Qed.

(** A request other than [MAINT_OFF] leaves a server in maintenance in
    maintenance, and [MAINT_ON] puts any server there. *)
Lemma apply_status_request_maint d :
  (is_in_maint (server d) = true → status_request d ≠ MAINT_OFF →
   is_in_maint (server (apply_status_request d)) = true)
  ∧ (status_request d = MAINT_ON → is_in_maint (server (apply_status_request d)) = true)
  ∧ pending_status (apply_status_request d) = pending_status d
  ∧ mon_prev_status (apply_status_request d) = mon_prev_status d
  ∧ name (server (apply_status_request d)) = name (server d)
  ∧ (status_request d = NO_CHANGE → server (apply_status_request d) = server d).
Proof.
  unfold apply_status_request. rewrite !is_in_maint_testbit.
  destruct (status_request d); simpl; repeat split; try done; try (intros Hm _);
    try (intros _); simpl_bits; rewrite ?Hm; simpl; try done.
  by rewrite orb_true_r.
Qed.

Lemma tick_server_maint env master idx d :
  is_in_maint (server d) = true →
  tick_server update_server_status env master idx d = Some (d, master, []).
Proof. intros Hm. unfold tick_server. by rewrite Hm. Qed.

Lemma tick_servers_length env master idx servers r :
  tick_servers update_server_status env master idx servers = Some r →
  length r.1.1 = length servers.
Proof.
  revert master idx r. induction servers as [|d rest IH]; intros master idx r Hrun.
  - simpl in Hrun. by inversion Hrun.
  - simpl in Hrun.
    destruct (tick_server update_server_status env master idx d) as [r1|]; [|done].
    simpl in Hrun.
    destruct (tick_servers update_server_status env r1.1.2 (S idx) rest) as [r2|] eqn:Hr2;
      [|done].
    simpl in Hrun. inversion Hrun; subst. simpl. f_equal. by eapply IH.
Qed.

(** The probe loop skips the servers in maintenance. *)
Lemma tick_servers_maint env master idx servers r i d :
  tick_servers update_server_status env master idx servers = Some r →
  servers !! i = Some d →
  is_in_maint (server d) = true →
  r.1.1 !! i = Some d.
Proof.
  revert master idx r i. induction servers as [|d0 rest IH]; intros master idx r i Hrun Hi Hm.
  - done.
  - simpl in Hrun.
    destruct (tick_server update_server_status env master idx d0) as [r1|] eqn:Hr1; [|done].
    simpl in Hrun.
    destruct (tick_servers update_server_status env r1.1.2 (S idx) rest) as [r2|] eqn:Hr2;
      [|done].
    simpl in Hrun. inversion Hrun; subst. simpl.
    destruct i as [|i]; simpl in Hi.
    + inversion Hi; subst. rewrite (tick_server_maint _ _ _ _ Hm) in Hr1.
      by inversion Hr1.
    + by eapply IH.
Qed.

(** The flush leaves them out. *)
Lemma flush_server_status_maint servers i d :
  servers !! i = Some d →
  is_in_maint (server d) = true →
  flush_server_status servers !! i = Some d.
Proof.
  intros Hi Hm. unfold flush_server_status.
  rewrite list_lookup_fmap, Hi. simpl. by rewrite Hm.
Qed.

Lemma status_changed_maint prev st :
  Z.testbit st (Z.of_N pos_MAINT) = true → status_changed prev st = false.
Proof.
  intros Hm. rewrite status_changed_bits, Hm, orb_true_r. simpl.
  by rewrite andb_false_r.
Qed.

Lemma detect_loop_maint settings clock st servers i d :
  servers !! i = Some d →
  is_in_maint (server d) = true →
  (detect_loop settings clock st servers).1 !! i = Some d.
Proof.
  revert st i. induction servers as [|d0 rest IH]; intros st i Hi Hm; [done|].
  simpl. destruct (detect_server settings clock st d0) as [d0' st'] eqn:Hd.
  specialize (IH st').
  destruct (detect_loop settings clock st' rest) as [rest' st''].
  destruct i as [|i]; simpl in *.
  - inversion Hi; subst. unfold detect_server in Hd.
    rewrite status_changed_maint in Hd by (by rewrite <- is_in_maint_testbit).
    by inversion Hd.
  - by apply IH.
Qed.

(** The state change pass does not touch them. *)
Lemma detect_handle_state_changes_maint settings clock servers i d :
  servers !! i = Some d →
  is_in_maint (server d) = true →
  (detect_handle_state_changes settings clock servers).1 !! i = Some d.
Proof.
  intros Hi Hm. unfold detect_handle_state_changes.
  pose proof (detect_loop_maint settings clock (mkDetectState false false []) servers i d Hi Hm).
  by destruct (detect_loop settings clock _ servers).
Qed.

(** The journal write changes the stored hash only. *)
Lemma store_server_journal_servers m master file io m' file' log :
  store_server_journal SHA1 m master file io = Some (m', file', log) →
  m_servers m' = m_servers m ∧ m_master m' = m_master m
  ∧ m_status_change_pending m' = m_status_change_pending m.
Proof.
  unfold store_server_journal. case_bool_decide; [|done].
  case_bool_decide; [|intros Heq; by inversion Heq].
  destruct io; intros Heq; inversion Heq; done.
Qed.

(** What a tick does to a server that is in maintenance once the admin
    requests have been applied. *)
Lemma tick_maint m env file r i d :
  tick SHA1 is_usable is_in_cluster update_server_status m env file = Some r →
  m_servers (check_maintenance_requests m) !! i = Some d →
  is_in_maint (server d) = true →
  m_servers (tr_monitor r) !! i = Some d.
Proof.
  unfold tick. intros Hrun Hi Hm.
  set (m1 := check_maintenance_requests m) in *.
  destruct (tick_servers update_server_status env (m_master m1) 0 (m_servers m1))
    as [[[servers master] log1]|] eqn:Hts; [|done].
  simpl in Hrun.
  pose proof (tick_servers_maint _ _ _ _ _ _ _ Hts Hi Hm) as H1. simpl in H1.
  apply flush_server_status_maint in H1; [|done].
  pose proof (detect_handle_state_changes_maint (m_settings m1) (mxs_clock env) _ _ _ H1 Hm) as H2.
  destruct (detect_handle_state_changes (m_settings m1) (mxs_clock env)
              (flush_server_status servers)) as [servers2 log2].
  simpl in H2.
  destruct (store_server_journal SHA1 _ _ file (journal_io env))
    as [[[m' file'] log4]|] eqn:Hst; [|done].
  simpl in Hrun. inversion Hrun; subst. simpl.
  apply store_server_journal_servers in Hst as (Hs & _). rewrite Hs. done.
Qed.
End MaintenanceFacts.
Section MaintenanceClaim.
Context `{HB : ServerBits} {Hok : ServerBitsOk HB}.
Context (SHA1 : list byte → list byte).
Context (is_usable is_in_cluster : SERVER → bool).
Context (update_server_status : option nat → nat → MonitorServer → Z * option nat).

Lemma monitored_server_lookup m srv i msrv :
  get_monitored_server m srv ≫= (λ i, (i,.) <$> m_servers m !! i) = Some (i, msrv) →
  get_monitored_server m srv = Some i
  ∧ m_servers m !! i = Some msrv ∧ name (server msrv) = srv.
Proof.
  unfold get_monitored_server. intros Hg.
  destruct (list_find (λ d, name (server d) = srv) (m_servers m)) as [[j d]|] eqn:Hf;
    [|done].
  simpl in Hg. apply list_find_Some in Hf as (Hj & Hn & _).
  rewrite Hj in Hg. simpl in Hg. inversion Hg; subst. done.
Qed.

(** [set_server_status(srv, MAINT)] on a running monitor posts [MAINT_ON]
    and raises the flag. *)
Lemma set_server_status_maint m srv written m1 log :
  m_state m = MONITOR_STATE_RUNNING →
  set_server_status m srv SERVER_MAINT = (written, m1, log) →
  written = true →
  ∃ i msrv,
    get_monitored_server m srv = Some i
    ∧ m_servers m !! i = Some msrv ∧ name (server msrv) = srv
    ∧ m_servers m1 = <[i := with_status_request msrv MAINT_ON]> (m_servers m)
    ∧ m_status_change_pending m1 = true.
Proof.
  intros Hstate Hset Hw. unfold set_server_status in Hset.
  destruct (get_monitored_server m srv ≫= _) as [[i msrv]|] eqn:Hg.
  2:{ inversion Hset; subst. done. }
  apply monitored_server_lookup in Hg as (Hg & Hi & Hn).
  rewrite Hstate in Hset.
  assert (nonzero (Z.land SERVER_MAINT (Z.lnot (Z.lor SERVER_MAINT SERVER_DRAINING))) = false)
    as Hbit by (by rewrite land_lnot_lor).
  rewrite Hbit in Hset.
  assert (nonzero (Z.land SERVER_MAINT SERVER_MAINT) = true) as Hmaint.
  { unfold SERVER_MAINT. rewrite nonzero_land_flag. apply flag_testbit_same. }
  rewrite Hmaint in Hset. unfold post_status_request in Hset.
  inversion Hset; subst. exists i, msrv. done.
Qed.

(** C8: a request to set [MAINT], posted while the monitor runs, is applied
    at the start of the next tick, and when that tick is complete the live
    status of the server has [MAINT]. And a tick takes [MAINT] away from a
    live status only when a [MAINT_OFF] request is pending: otherwise a
    server in maintenance is still in maintenance after the tick, its
    previous and pending status are untouched (the probe skips it and the
    flush leaves it out), and without a request its whole [SERVER] is
    untouched. *)
Theorem maintenance_is_admin_only :
  (∀ m srv written m1 log env file r,
     m_state m = MONITOR_STATE_RUNNING →
     set_server_status m srv SERVER_MAINT = (written, m1, log) →
     written = true →
     tick SHA1 is_usable is_in_cluster update_server_status m1 env file = Some r →
     ∃ i d',
       get_monitored_server m srv = Some i
       ∧ m_servers (tr_monitor r) !! i = Some d'
       ∧ name (server d') = srv
       ∧ is_in_maint (server d') = true
       ∧ status_request d' = NO_CHANGE)
  ∧ (∀ m env file r i d,
       tick SHA1 is_usable is_in_cluster update_server_status m env file = Some r →
       m_servers m !! i = Some d →
       is_in_maint (server d) = true →
       ¬ (m_status_change_pending m = true ∧ status_request d = MAINT_OFF) →
       ∃ d',
         m_servers (tr_monitor r) !! i = Some d'
         ∧ is_in_maint (server d') = true
         ∧ mon_prev_status d' = mon_prev_status d
         ∧ pending_status d' = pending_status d
         ∧ (m_status_change_pending m = false ∨ status_request d = NO_CHANGE →
            server d' = server d)).
Proof.
  split.
  - intros m srv written m1 log env file r Hstate Hset Hw Hrun.
    pose proof Hset as Hset'.
    apply set_server_status_maint in Hset' as (i & msrv & Hg & Hi & Hn & Hs1 & Hp1); [|done..].
    set (d' := apply_status_request (with_status_request msrv MAINT_ON)).
    exists i, d'.
    assert (m_servers (check_maintenance_requests m1) !! i = Some d') as Hc.
    { unfold check_maintenance_requests. rewrite Hp1. simpl.
      rewrite list_lookup_fmap, Hs1, list_lookup_insert_eq by (by eapply lookup_lt_Some).
      done. }
    assert (is_in_maint (server d') = true) as Hm.
    { by apply (apply_status_request_maint (with_status_request msrv MAINT_ON)). }
    split; [done|]. split; [|split; [|split]].
    + by eapply tick_maint.
    + subst d'. rewrite (proj1 (proj2 (proj2 (proj2 (proj2 (apply_status_request_maint _)))))).
      done.
    + done.
    + subst d'. unfold apply_status_request. simpl. done.
  - intros m env file r i d Hrun Hi Hm Hreq.
    set (d1 := if m_status_change_pending m then apply_status_request d else d).
    assert (m_servers (check_maintenance_requests m) !! i = Some d1) as Hc.
    { unfold check_maintenance_requests, d1.
      destruct (m_status_change_pending m); simpl; [|done].
      by rewrite list_lookup_fmap, Hi. }
    pose proof (apply_status_request_maint d) as (Hkeep & _ & Hpend & Hprev & _ & Hsame).
    assert (is_in_maint (server d1) = true) as Hm1.
    { unfold d1. destruct (m_status_change_pending m); [|done].
      apply Hkeep; [done|]. intros Hoff. by apply Hreq. }
    exists d1. split; [by eapply tick_maint|]. split; [done|].
    unfold d1. destruct (m_status_change_pending m); [|by repeat split].
    split; [done|]. split; [done|]. intros [Hf|Hn]; [done|by apply Hsame].
Qed.
End MaintenanceClaim.
(** C8 on an input: a running monitor with the server A, which is up; the
    administrator sets [MAINT] and one tick runs. *)
Lemma maintenance_is_admin_only_witness :
  let B := sample_bits in
  let m := sample_running_monitor [sample_server "A" SERVER_RUNNING] in
  let m1 := (set_server_status m "A" SERVER_MAINT).1.2 in
  ∃ r, tick sample_digest (λ _, true) (λ _, true) sample_update m1 sample_env None = Some r
       ∧ ∃ i d',
           get_monitored_server m "A" = Some i
           ∧ m_servers (tr_monitor r) !! i = Some d'
           ∧ name (server d') = "A"
           ∧ is_in_maint (server d') = true
           ∧ status_request d' = NO_CHANGE.
Proof.
  intros B m m1.
  destruct (tick sample_digest (λ _, true) (λ _, true) sample_update m1 sample_env None)
    as [r|] eqn:Hrun.
  - exists r. split; [reflexivity|].
    apply (proj1 (@maintenance_is_admin_only B sample_bits_ok sample_digest
                    (λ _, true) (λ _, true) sample_update)
             m "A" true m1 [] sample_env None r);
      [reflexivity | vm_compute; reflexivity | reflexivity | exact Hrun].
  - exfalso. vm_compute in Hrun. discriminate.
Defined.

(** ** The tick, server by server *)

Section TickFacts.
Context `{HB : ServerBits} {Hok : ServerBitsOk HB}.
Context (SHA1 : list byte → list byte).
Context (is_usable is_in_cluster : SERVER → bool).
Context (update_server_status : option nat → nat → MonitorServer → Z * option nat).

Lemma status_changed_same st : status_changed st st = false.
Proof.
  unfold status_changed. destruct (negb (st =? UINT64_MINUS_ONE)); [|done].
  cbv zeta. by rewrite Z.eqb_refl.
Qed.

Lemma check_disk_space_exhausted_log pMs path san max r :
  check_disk_space_exhausted pMs path san max = Some r →
  Forall (λ e, is_connect_error e = false) r.2.
Proof.
  unfold check_disk_space_exhausted. destruct (used_percentage san) as [p|]; [|done].
  simpl. intros Hr. inversion Hr; subst.
  destruct (max <=? p); simpl; repeat constructor.
Qed.

Lemma check_limits_log pMs info dst st st' :
  check_limits pMs info dst st = Some st' →
  Forall (λ e, is_connect_error e = false) (disk_log st) →
  Forall (λ e, is_connect_error e = false) (disk_log st').
Proof.
  revert st. induction dst as [|[path max] rest IH]; intros st Hrun Hlog.
  - simpl in Hrun. by inversion Hrun; subst.
  - simpl in Hrun. case_bool_decide.
    + simpl in Hrun. eapply IH; [done|]. done.
    + destruct (info_find info path) as [san|].
      * destruct (check_disk_space_exhausted pMs path san max) as [r|] eqn:Hc; [|done].
        simpl in Hrun. eapply IH; [done|]. simpl.
        apply Forall_app. split; [done|]. by eapply check_disk_space_exhausted_log.
      * simpl in Hrun. eapply IH; [done|]. simpl.
        apply Forall_app. split; [done|]. repeat constructor.
Qed.

Lemma check_star_log pMs info st st' :
  check_star pMs info st = Some st' →
  Forall (λ e, is_connect_error e = false) (disk_log st) →
  Forall (λ e, is_connect_error e = false) (disk_log st').
Proof.
  revert st. induction info as [|[path san] rest IH]; intros st Hrun Hlog.
  - simpl in Hrun. by inversion Hrun; subst.
  - simpl in Hrun. case_bool_decide.
    + destruct (check_disk_space_exhausted pMs path san _) as [r|] eqn:Hc; [|done].
      simpl in Hrun. eapply IH; [done|]. simpl.
      apply Forall_app. split; [done|]. by eapply check_disk_space_exhausted_log.
    + simpl in Hrun. by eapply IH.
Qed.

(** The disk space check touches the pending status and the permission to
    check again, nothing else, and logs no connect error. *)
Lemma update_disk_space_status_frame pMs rv pMs' log :
  update_disk_space_status pMs rv = Some (pMs', log) →
  server pMs' = server pMs
  ∧ mon_prev_status pMs' = mon_prev_status pMs
  ∧ mon_err_count pMs' = mon_err_count pMs
  ∧ status_request pMs' = status_request pMs
  ∧ monitor_limits pMs' = monitor_limits pMs
  ∧ Forall (λ e, is_connect_error e = false) log.
Proof.
  unfold update_disk_space_status. destruct rv as [info|errno].
  - destruct (check_limits pMs info _ _) as [st|] eqn:Hl; [|done]. simpl.
    apply check_limits_log in Hl; [|constructor].
    assert (∀ st', (if bool_decide (star_max_percentage st ≠ -1)
                    then check_star pMs info st else Some st) = Some st' →
                   Forall (λ e, is_connect_error e = false) (disk_log st')) as Hs.
    { intros st' Hst. case_bool_decide.
      - by eapply check_star_log.
      - by inversion Hst; subst. }
    destruct (if bool_decide (star_max_percentage st ≠ -1) then _ else _) as [st'|]; [|done].
    simpl. intros Hr. inversion Hr; subst.
    specialize (Hs st' eq_refl).
    by destruct (disk_space_exhausted st').
  - intros Hr. destruct errno; inversion Hr; subst; simpl; repeat split; repeat constructor.
Qed.

(** What the body of the loop leaves of a server that is not in
    maintenance: the live status as it was, the previous status equal to
    it, the error count by the live status, and no connect error in the
    log. *)
Lemma tick_server_frame env master idx d r :
  tick_server update_server_status env master idx d = Some r →
  server r.1.1 = server d
  ∧ status_request r.1.1 = status_request d
  ∧ monitor_limits r.1.1 = monitor_limits d
  ∧ Forall (λ e, is_connect_error e = false) r.2
  ∧ (is_in_maint (server d) = true → r.1.1 = d)
  ∧ (is_in_maint (server d) = false →
     mon_prev_status r.1.1 = status (server d)
     ∧ mon_err_count r.1.1 = (if is_down (server d) then mon_err_count d + 1 else 0)).
Proof.
  unfold tick_server. destruct (is_in_maint (server d)) eqn:Hm; simpl.
  { intros Hr. inversion Hr; subst. simpl. repeat split; done. }
  destruct (ping_or_connect env (name (server d))) as [rval errno].
  destruct d as [srv prev pend cnt req ok lim].
  unfold set_pending_status, clear_pending_status, with_pending_status, with_prev_status,
    with_err_count. cbn [server mon_prev_status pending_status mon_err_count status_request
                         ok_to_check_disk_space monitor_limits].
  destruct (connection_is_ok rval).
  - match goal with
    | |- context [if ?c then update_disk_space_status ?p ?rv else _] =>
        destruct c;
        [destruct (update_disk_space_status p rv) as [[p' dlog]|] eqn:Hd; [|done];
         apply update_disk_space_status_frame in Hd as (Hs & Hp & Hc & Hq & Hl & Hlog)
        |]
    end.
    + cbn [mbind option_bind fst snd].
      destruct (update_server_status master idx p') as [pending master'].
      cbn [mbind option_bind]. intros Hr. inversion Hr; subst; clear Hr.
      destruct p' as [srv' prev' pend' cnt' req' ok' lim']. simpl in *. subst.
      destruct (is_down srv); simpl; repeat split; done.
    + cbn [mbind option_bind fst snd].
      destruct (update_server_status master idx _) as [pending master'].
      cbn [mbind option_bind]. intros Hr. inversion Hr; subst; clear Hr.
      destruct (is_down srv); simpl; repeat split; try done; try constructor.
  - cbn [mbind option_bind].
    destruct errno;
      cbn [server mon_prev_status pending_status mon_err_count status_request
           ok_to_check_disk_space monitor_limits];
      rewrite status_changed_same; cbn [andb];
      intros Hr; inversion Hr; subst; clear Hr;
      destruct (is_down srv); simpl; repeat split; try done; try constructor.
Qed.

Lemma tick_servers_log env master idx servers r :
  tick_servers update_server_status env master idx servers = Some r →
  Forall (λ e, is_connect_error e = false) r.2.
Proof.
  revert master idx r. induction servers as [|d rest IH]; intros master idx r Hrun.
  - simpl in Hrun. inversion Hrun; subst. constructor.
  - simpl in Hrun.
    destruct (tick_server update_server_status env master idx d) as [r1|] eqn:Hr1; [|done].
    simpl in Hrun.
    destruct (tick_servers update_server_status env r1.1.2 (S idx) rest) as [r2|] eqn:Hr2;
      [|done].
    simpl in Hrun. inversion Hrun; subst. simpl.
    apply Forall_app. split.
    + by apply tick_server_frame in Hr1 as (_ & _ & _ & Hlog & _).
    + by eapply IH.
Qed.

Lemma tick_servers_lookup env master idx servers r i d :
  tick_servers update_server_status env master idx servers = Some r →
  servers !! i = Some d →
  ∃ master_i r_i,
    tick_server update_server_status env master_i (idx + i) d = Some r_i
    ∧ r.1.1 !! i = Some r_i.1.1.
Proof.
  revert master idx r i. induction servers as [|d0 rest IH]; intros master idx r i Hrun Hi.
  - done.
  - simpl in Hrun.
    destruct (tick_server update_server_status env master idx d0) as [r1|] eqn:Hr1; [|done].
    simpl in Hrun.
    destruct (tick_servers update_server_status env r1.1.2 (S idx) rest) as [r2|] eqn:Hr2;
      [|done].
    simpl in Hrun. inversion Hrun; subst. simpl.
    destruct i as [|i]; simpl in Hi.
    + inversion Hi; subst. exists master, r1. by rewrite Nat.add_0_r.
    + destruct (IH _ _ _ _ Hr2 Hi) as (master_i & r_i & Hts & Hl).
      exists master_i, r_i. split; [|done].
      by replace (idx + S i)%nat with (S idx + i)%nat by lia.
Qed.

Lemma flush_server_status_flushed servers :
  flush_server_status servers = flushed <$> servers.
Proof. reflexivity. Qed.

(** The state change pass sets [last_event] and [triggered_at] of a server
    that changed and nothing else. *)
Lemma detect_server_frame settings clock st ptr :
  let ptr' := (detect_server settings clock st ptr).1 in
  name (server ptr') = name (server ptr)
  ∧ status (server ptr') = status (server ptr)
  ∧ disk_space_limits (server ptr') = disk_space_limits (server ptr)
  ∧ mon_prev_status ptr' = mon_prev_status ptr
  ∧ pending_status ptr' = pending_status ptr
  ∧ mon_err_count ptr' = mon_err_count ptr
  ∧ status_request ptr' = status_request ptr
  ∧ (status_changed (mon_prev_status ptr) (status (server ptr)) = false → ptr' = ptr)
  ∧ (status_changed (mon_prev_status ptr) (status (server ptr)) = true →
     last_event (server ptr')
       = get_event_type (mon_prev_status ptr) (status (server ptr))
     ∧ triggered_at (server ptr') = clock).
Proof.
  unfold detect_server.
  destruct (status_changed (mon_prev_status ptr) (status (server ptr))); simpl;
    repeat split; done.
Qed.

Lemma detect_server_fst settings clock st st' ptr :
  (detect_server settings clock st ptr).1 = (detect_server settings clock st' ptr).1.
Proof.
  unfold detect_server.
  by destruct (status_changed (mon_prev_status ptr) (status (server ptr))).
Qed.

Lemma detect_loop_lookup settings clock st st0 servers i d :
  servers !! i = Some d →
  (detect_loop settings clock st servers).1 !! i
  = Some (detect_server settings clock st0 d).1.
Proof.
  revert st i. induction servers as [|d0 rest IH]; intros st i Hi; [done|].
  simpl. destruct (detect_server settings clock st d0) as [d0' st'] eqn:Hd.
  specialize (IH st').
  destruct (detect_loop settings clock st' rest) as [rest' st''].
  destruct i as [|i]; simpl in *.
  - inversion Hi; subst. f_equal.
    rewrite (detect_server_fst settings clock st0 st d), Hd. done.
  - by apply IH.
Qed.

Lemma detect_loop_length settings clock st servers :
  length (detect_loop settings clock st servers).1 = length servers.
Proof.
  revert st. induction servers as [|d0 rest IH]; intros st; [done|].
  simpl. destruct (detect_server settings clock st d0) as [d0' st'].
  specialize (IH st'). destruct (detect_loop settings clock st' rest) as [rest' st''].
  simpl in *. by rewrite IH.
Qed.

Lemma detect_loop_log settings clock st servers :
  Forall (λ e, is_connect_error e = false) (detect_log st) →
  Forall (λ e, is_connect_error e = false)
    (detect_log (detect_loop settings clock st servers).2).
Proof.
  revert st. induction servers as [|d0 rest IH]; intros st Hlog; [done|].
  simpl. destruct (detect_server settings clock st d0) as [d0' st'] eqn:Hd.
  specialize (IH st').
  destruct (detect_loop settings clock st' rest) as [rest' st'']. simpl in *.
  apply IH. unfold detect_server in Hd.
  destruct (status_changed (mon_prev_status d0) (status (server d0))).
  - inversion Hd; subst. simpl. apply Forall_app. split; [done|].
    constructor; [done|]. by destruct (_ && _); repeat constructor.
  - by inversion Hd; subst.
Qed.

Lemma hangup_failed_servers_log servers :
  Forall (λ e, is_connect_error e = false)
    (hangup_failed_servers is_usable is_in_cluster servers).
Proof.
  unfold hangup_failed_servers. induction servers as [|d rest IH]; [constructor|].
  simpl. destruct (_ && _); simpl; [constructor|]; done.
Qed.

Lemma store_server_journal_log m master file io m' file' log :
  store_server_journal SHA1 m master file io = Some (m', file', log) →
  Forall (λ e, is_connect_error e = false) log
  ∧ m_name m' = m_name m ∧ m_settings m' = m_settings m ∧ m_state m' = m_state m
  ∧ m_checked m' = m_checked m ∧ m_ticks m' = m_ticks m.
Proof.
  unfold store_server_journal. case_bool_decide; [|done].
  case_bool_decide.
  - destruct io; intros Heq; inversion Heq; subst; simpl; repeat split;
      repeat constructor.
  - intros Heq; inversion Heq; subst. repeat split. constructor.
Qed.

(** The server at position [i] after a tick: the loop body, the flush and
    the state change pass applied to the server that the admin requests
    left there. *)
Lemma tick_lookup m env file r i d :
  tick SHA1 is_usable is_in_cluster update_server_status m env file = Some r →
  m_servers (check_maintenance_requests m) !! i = Some d →
  ∃ master_i r_i,
    tick_server update_server_status env master_i i d = Some r_i
    ∧ m_servers (tr_monitor r) !! i
      = Some (detect_server (m_settings m) (mxs_clock env) (mkDetectState false false [])
                (flushed r_i.1.1)).1.
Proof.
  unfold tick. intros Hrun Hi.
  assert (m_settings (check_maintenance_requests m) = m_settings m) as Hset.
  { unfold check_maintenance_requests. by destruct (m_status_change_pending m). }
  rewrite Hset in Hrun.
  set (m1 := check_maintenance_requests m) in *.
  destruct (tick_servers update_server_status env (m_master m1) 0 (m_servers m1))
    as [[[servers master] log1]|] eqn:Hts; [|done].
  simpl in Hrun.
  destruct (tick_servers_lookup _ _ _ _ _ _ _ Hts Hi) as (master_i & r_i & Hr & Hl).
  simpl in Hl, Hr. exists master_i, r_i. split; [done|].
  assert (flush_server_status servers !! i = Some (flushed r_i.1.1)) as Hf.
  { by rewrite flush_server_status_flushed, list_lookup_fmap, Hl. }
  pose proof (detect_loop_lookup (m_settings m) (mxs_clock env)
                (mkDetectState false false []) (mkDetectState false false []) _ _ _ Hf) as Hd.
  unfold detect_handle_state_changes in Hrun.
  destruct (detect_loop (m_settings m) (mxs_clock env) _ (flush_server_status servers))
    as [servers2 st2].
  simpl in Hd.
  destruct (store_server_journal SHA1 _ _ file (journal_io env))
    as [[[m' file'] log4]|] eqn:Hst; [|done].
  simpl in Hrun. inversion Hrun; subst. simpl.
  apply store_server_journal_servers in Hst as (Hs & _). rewrite Hs. done.
Qed.
End TickFacts.

Section TickTheorems.
Context `{HB : ServerBits} {Hok : ServerBitsOk HB}.
Context (SHA1 : list byte → list byte).
Context (is_usable is_in_cluster : SERVER → bool).
Context (update_server_status : option nat → nat → MonitorServer → Z * option nat).

Lemma check_maintenance_requests_lookup m i :
  m_servers (check_maintenance_requests m) !! i
  = (if m_status_change_pending m then apply_status_request else id) <$> m_servers m !! i.
Proof.
  unfold check_maintenance_requests. destruct (m_status_change_pending m); simpl.
  - by rewrite list_lookup_fmap.
  - by destruct (m_servers m !! i).
Qed.

Lemma check_maintenance_requests_frame m :
  length (m_servers (check_maintenance_requests m)) = length (m_servers m)
  ∧ m_name (check_maintenance_requests m) = m_name m
  ∧ m_settings (check_maintenance_requests m) = m_settings m
  ∧ m_state (check_maintenance_requests m) = m_state m
  ∧ m_checked (check_maintenance_requests m) = m_checked m
  ∧ m_ticks (check_maintenance_requests m) = m_ticks m
  ∧ m_journal_hash (check_maintenance_requests m) = m_journal_hash m
  ∧ m_status_change_pending (check_maintenance_requests m) = false.
Proof.
  unfold check_maintenance_requests. destruct (m_status_change_pending m); simpl;
    rewrite ?length_fmap; done.
Qed.

Lemma tick_frame m env file r :
  tick SHA1 is_usable is_in_cluster update_server_status m env file = Some r →
  length (m_servers (tr_monitor r)) = length (m_servers m)
  ∧ m_name (tr_monitor r) = m_name m
  ∧ m_settings (tr_monitor r) = m_settings m
  ∧ m_state (tr_monitor r) = m_state m
  ∧ m_checked (tr_monitor r) = m_checked m
  ∧ m_ticks (tr_monitor r) = m_ticks m
  ∧ m_status_change_pending (tr_monitor r) = false
  ∧ Forall (λ e, is_connect_error e = false) (tr_effects r).
Proof.
  unfold tick. intros Hrun.
  pose proof (check_maintenance_requests_frame m)
    as (Hlen & Hname & Hset & Hstate & Hchk & Hticks & _ & Hpend).
  set (m1 := check_maintenance_requests m) in *.
  destruct (tick_servers update_server_status env (m_master m1) 0 (m_servers m1))
    as [[[servers master] log1]|] eqn:Hts; [|done].
  simpl in Hrun.
  pose proof (tick_servers_length _ _ _ _ _ _ Hts) as Hl1.
  pose proof (tick_servers_log _ _ _ _ _ _ Hts) as Hlog1. simpl in Hl1, Hlog1.
  unfold detect_handle_state_changes in Hrun.
  pose proof (detect_loop_length (m_settings m1) (mxs_clock env)
                (mkDetectState false false []) (flush_server_status servers)) as Hl2.
  pose proof (detect_loop_log (m_settings m1) (mxs_clock env)
                (mkDetectState false false []) (flush_server_status servers)
                (Forall_nil_2 _)) as Hlog2.
  destruct (detect_loop (m_settings m1) (mxs_clock env) _ (flush_server_status servers))
    as [servers2 st2].
  simpl in Hl2, Hlog2.
  destruct (store_server_journal SHA1 _ _ file (journal_io env))
    as [[[m' file'] log4]|] eqn:Hst; [|done].
  simpl in Hrun. inversion Hrun; subst. simpl.
  pose proof (store_server_journal_servers _ _ _ _ _ _ _ _ Hst) as (Hs & _ & Hp).
  apply store_server_journal_log in Hst as (Hlog4 & Hn' & Hs' & Hst' & Hc' & Ht').
  simpl in *. rewrite Hs, Hn', Hs', Hst', Hc', Ht', Hp.
  repeat split; try done.
  - rewrite Hl2. unfold flush_server_status. rewrite length_fmap. lia.
  - rewrite !Forall_app. repeat split; try done.
    + by destruct (master_down st2 && master_up st2); repeat constructor.
    + apply hangup_failed_servers_log.
Qed.

(** The connect error of the tick loop is never logged. The loop logs it
    when [status_changed()] holds, and that compares [mon_prev_status] with
    the live status, which the loop has made equal a few lines before; the
    pending status, which has just lost [RUNNING], is not looked at. *)
Theorem tick_logs_no_connect_error (m : Monitor) (env : TickEnv)
    (file : option (list byte)) (r : tick_result) :
  tick SHA1 is_usable is_in_cluster update_server_status m env file = Some r →
  ∀ srv rval, ERROR_connect srv rval ∉ tr_effects r.
Proof.
  intros Hrun srv rval Hin.
  apply tick_frame in Hrun as (_ & _ & _ & _ & _ & _ & _ & Hlog).
  rewrite Forall_forall in Hlog. by apply Hlog in Hin.
Qed.

(** A tick keeps the monitored servers: the same names in the same order.
    It leaves the monitor's name, settings, state and tick count alone, and
    the flag for waiting admin requests is down afterwards; if it was up,
    no server has a request left. *)
Theorem tick_keeps_servers (m : Monitor) (env : TickEnv)
    (file : option (list byte)) (r : tick_result) :
  tick SHA1 is_usable is_in_cluster update_server_status m env file = Some r →
  server_names (m_servers (tr_monitor r)) = server_names (m_servers m)
  ∧ m_name (tr_monitor r) = m_name m
  ∧ m_settings (tr_monitor r) = m_settings m
  ∧ m_state (tr_monitor r) = m_state m
  ∧ m_ticks (tr_monitor r) = m_ticks m
  ∧ m_status_change_pending (tr_monitor r) = false
  ∧ (m_status_change_pending m = true →
     Forall (λ d, status_request d = NO_CHANGE) (m_servers (tr_monitor r))).
Proof.
  intros Hrun.
  pose proof (tick_frame _ _ _ _ Hrun) as (Hlen & Hn & Hs & Hst & _ & Ht & Hp & _).
  assert (∀ i d', m_servers (tr_monitor r) !! i = Some d' →
            ∃ d, m_servers m !! i = Some d
                 ∧ name (server d') = name (server d)
                 ∧ (m_status_change_pending m = true → status_request d' = NO_CHANGE)) as Hpt.
  { intros i d' Hi'.
    destruct (m_servers m !! i) as [d|] eqn:Hi.
    2:{ apply lookup_ge_None in Hi. apply lookup_lt_Some in Hi'. lia. }
    exists d. split; [done|].
    set (d1 := (if m_status_change_pending m then apply_status_request else id) d).
    assert (m_servers (check_maintenance_requests m) !! i = Some d1) as Hc
      by (by rewrite check_maintenance_requests_lookup, Hi).
    destruct (tick_lookup _ _ _ _ _ _ _ _ _ _ Hrun Hc) as (master_i & r_i & Hr & Hl).
    rewrite Hl in Hi'. inversion Hi'; subst d'. clear Hi'.
    pose proof (detect_server_frame (m_settings m) (mxs_clock env)
                  (mkDetectState false false []) (flushed r_i.1.1))
      as (Hdn & _ & _ & _ & _ & _ & Hdq & _).
    cbv zeta in Hdn, Hdq. rewrite Hdn, Hdq.
    apply tick_server_frame in Hr as (Hsrv & Hreq & _).
    assert (name (server (flushed r_i.1.1)) = name (server d1)
            ∧ status_request (flushed r_i.1.1) = status_request d1) as [-> ->].
    { unfold flushed. destruct (negb _); simpl; by rewrite ?Hsrv, ?Hreq. }
    unfold d1. destruct (m_status_change_pending m); [|done].
    pose proof (apply_status_request_maint d) as (_ & _ & _ & _ & Hname & _).
    split; [done|]. intros _. unfold apply_status_request.
    by destruct (status_request d). }
  repeat split; try done.
  - unfold server_names. apply list_eq. intros i. rewrite !list_lookup_fmap.
    destruct (m_servers (tr_monitor r) !! i) as [d'|] eqn:Hi'.
    + destruct (Hpt _ _ Hi') as (d & -> & Hname & _). simpl. by rewrite Hname.
    + apply lookup_ge_None in Hi'. rewrite Hlen in Hi'.
      apply lookup_ge_None in Hi'. by rewrite Hi'.
  - intros Hpend. apply Forall_lookup. intros i d' Hi'.
    destruct (Hpt _ _ Hi') as (d & _ & _ & Hq). by apply Hq.
Qed.

Lemma tick_lookup_stashed (m : Monitor) (env : TickEnv)
    (file : option (list byte)) (r : tick_result) (i : nat) (d : MonitorServer) :
  tick SHA1 is_usable is_in_cluster update_server_status m env file = Some r →
  m_servers (check_maintenance_requests m) !! i = Some d →
  is_in_maint (server d) = false →
  ∃ d',
    m_servers (tr_monitor r) !! i = Some d'
    ∧ mon_prev_status d' = status (server d)
    ∧ status (server d') = pending_status d'
    ∧ mon_err_count d' = (if is_down (server d) then mon_err_count d + 1 else 0)
    ∧ (if status_changed (status (server d)) (status (server d'))
       then last_event (server d') = get_event_type (status (server d)) (status (server d'))
            ∧ triggered_at (server d') = mxs_clock env
       else last_event (server d') = last_event (server d)
            ∧ triggered_at (server d') = triggered_at (server d)).
Proof.
  intros Hrun Hi Hm.
  destruct (tick_lookup _ _ _ _ _ _ _ _ _ _ Hrun Hi) as (master_i & r_i & Hr & Hl).
  eexists. split; [exact Hl|].
  apply tick_server_frame in Hr as (Hsrv & _ & _ & _ & _ & Hnm).
  destruct (Hnm Hm) as (Hprev & Hcnt).
  set (d1 := r_i.1.1) in *.
  assert (flushed d1 = with_server d1 (with_status (server d1) (pending_status d1))) as Hf.
  { unfold flushed. by rewrite Hsrv, Hm. }
  pose proof (detect_server_frame (m_settings m) (mxs_clock env)
                (mkDetectState false false []) (flushed d1))
    as (_ & Hds & _ & Hdp & Hdpend & Hdc & _ & Hsame & Hchg).
  cbv zeta in *. rewrite Hds, Hdp, Hdpend, Hdc. rewrite Hf in *. simpl in *.
  rewrite Hprev in *.
  repeat split; try done.
  destruct (status_changed (status (server d)) (pending_status d1)).
  - by apply Hchg.
  - rewrite (Hsame eq_refl). simpl. by rewrite Hsrv.
Qed.


(** For a server that is not in maintenance a tick stores the live status
    it finds as the previous status, and ends with the live status equal to
    the pending status. The error counter goes by the live status before
    the tick, not by the result of the probe: it is raised when the server
    was down already and reset when it was up. The state change pass sees
    the two statuses and records the event when they count as changed. *)
Theorem tick_stashes_and_flushes (m : Monitor) (env : TickEnv)
    (file : option (list byte)) (r : tick_result) (i : nat) (d : MonitorServer) :
  tick SHA1 is_usable is_in_cluster update_server_status m env file = Some r →
  m_servers (check_maintenance_requests m) !! i = Some d →
  is_in_maint (server d) = false →
  ∃ d',
    m_servers (tr_monitor r) !! i = Some d'
    ∧ mon_prev_status d' = status (server d)
    ∧ status (server d') = pending_status d'
    ∧ mon_err_count d' = (if is_down (server d) then mon_err_count d + 1 else 0)
    ∧ (if status_changed (status (server d)) (status (server d'))
       then last_event (server d') = get_event_type (status (server d)) (status (server d'))
            ∧ triggered_at (server d') = mxs_clock env
       else last_event (server d') = last_event (server d)
            ∧ triggered_at (server d') = triggered_at (server d)).
Proof. apply tick_lookup_stashed. Qed.

Lemma failed_probe_bits st :
  0 ≤ st < 2 ^ 64 →
  clear_bits st (Z.land (Z.lnot SERVER_WAS_MASTER) UINT64_MINUS_ONE)
  = Z.land st SERVER_WAS_MASTER.
Proof.
  intros Hst. unfold clear_bits. apply Z.bits_inj'. intros i Hi.
  rewrite !Z.land_spec, Z.lnot_spec, Z.land_spec, Z.lnot_spec by done.
  destruct (Z.lt_ge_cases i 64) as [Hlt|Hge].
  - replace i with (Z.of_N (Z.to_N i)) at 3 by lia.
    rewrite sentinel_testbit by lia.
    by destruct (Z.testbit st i), (Z.testbit SERVER_WAS_MASTER i).
  - by rewrite (testbit_high st 64 i).
Qed.

Lemma failed_probe_pending st errno :
  0 ≤ st < 2 ^ 64 →
  match errno with
  | ER_ACCESS_DENIED_ERROR =>
      Z.lor (clear_bits st (Z.land (Z.lnot SERVER_WAS_MASTER) UINT64_MINUS_ONE))
            SERVER_AUTH_ERROR
  | _ =>
      clear_bits (clear_bits st (Z.land (Z.lnot SERVER_WAS_MASTER) UINT64_MINUS_ONE))
                 SERVER_AUTH_ERROR
  end = failed_probe_status st errno.
Proof.
  intros Hst. rewrite (failed_probe_bits _ Hst).
  assert (clear_bits (Z.land st SERVER_WAS_MASTER) SERVER_AUTH_ERROR
          = Z.land st SERVER_WAS_MASTER) as Hc.
  { unfold clear_bits. apply Z.bits_inj'. intros i Hi.
    rewrite !Z.land_spec, Z.lnot_spec by done.
    unfold SERVER_WAS_MASTER, SERVER_AUTH_ERROR. rewrite !flag_testbit.
    destruct (Z.eqb_spec (Z.of_N pos_WAS_MASTER) i) as [<-|]; [|by rewrite !andb_false_r].
    rewrite (proj2 (Z.eqb_neq _ _)); [by rewrite andb_true_r|].
    assert (pos_AUTH_ERROR ≠ pos_WAS_MASTER) by pos_neq. lia. }
  destruct errno; done.
Qed.

Lemma failed_probe_reportable st errno :
  reportable (failed_probe_status st errno) = [false; false; false; false; false].
Proof.
  unfold reportable, reportable_positions, view, failed_probe_status. simpl fmap.
  destruct errno; simpl_bits; rewrite ?andb_false_r; reflexivity.
Qed.

(** A failed probe: the server, which is not in maintenance, ends the tick
    with only [WAS_MASTER] left of its status (so [RUNNING], the roles,
    [DRAINING] and [DISK_SPACE_EXHAUSTED] are gone), plus [AUTH_ERROR] when
    the login was refused. If it was running, the tick records the
    [*_DOWN] event of its highest role. *)
Theorem tick_failed_probe (m : Monitor) (env : TickEnv)
    (file : option (list byte)) (r : tick_result) (i : nat) (d : MonitorServer) :
  tick SHA1 is_usable is_in_cluster update_server_status m env file = Some r →
  m_servers (check_maintenance_requests m) !! i = Some d →
  is_in_maint (server d) = false →
  connection_is_ok (ping_or_connect env (name (server d))).1 = false →
  0 ≤ status (server d) < 2 ^ 64 →
  ∃ d',
    m_servers (tr_monitor r) !! i = Some d'
    ∧ status (server d')
      = failed_probe_status (status (server d)) (ping_or_connect env (name (server d))).2
    ∧ pending_status d' = status (server d')
    ∧ mon_prev_status d' = status (server d)
    ∧ is_down (server d') = true
    ∧ (has_bit (status (server d)) SERVER_RUNNING = true →
       last_event (server d') = down_event (status (server d))
       ∧ triggered_at (server d') = mxs_clock env).
Proof.
  intros Hrun Hi Hm Hc Hst.
  destruct (tick_lookup_stashed _ _ _ _ _ _ Hrun Hi Hm)
    as (d' & Hl & Hprev & Hflush & _ & Hev).
  exists d'. split; [done|].
  destruct (tick_lookup _ _ _ _ _ _ _ _ _ _ Hrun Hi) as (master_i & r_i & Hr & Hl').
  rewrite Hl in Hl'. inversion Hl'; subst d'. clear Hl'.
  pose proof (detect_server_frame (m_settings m) (mxs_clock env)
                (mkDetectState false false []) (flushed r_i.1.1))
    as (_ & _ & _ & _ & Hdpend & _).
  cbv zeta in Hdpend.
  set (d' := (detect_server (m_settings m) (mxs_clock env)
                (mkDetectState false false []) (flushed r_i.1.1)).1) in *.
  assert (pending_status d'
          = failed_probe_status (status (server d))
              (ping_or_connect env (name (server d))).2) as Hpend.
  { rewrite Hdpend.
    assert (pending_status (flushed r_i.1.1) = pending_status r_i.1.1) as ->
      by (unfold flushed; by destruct (negb _)).
    unfold tick_server in Hr. rewrite Hm in Hr. simpl negb in Hr. cbv iota in Hr.
    destruct d as [srv prev pend cnt req ok lim].
    unfold set_pending_status, clear_pending_status, with_pending_status, with_prev_status,
      with_err_count in Hr.
    cbn [server mon_prev_status pending_status mon_err_count status_request
         ok_to_check_disk_space monitor_limits] in Hr, Hst, Hc |- *.
    destruct (ping_or_connect env (name srv)) as [rval errno].
    cbn [fst snd] in Hc |- *. rewrite Hc in Hr. cbn [mbind option_bind] in Hr.
    rewrite <- (failed_probe_pending (status srv) errno Hst).
    destruct errno;
      cbn [server mon_prev_status pending_status mon_err_count status_request
           ok_to_check_disk_space monitor_limits] in Hr;
      inversion Hr; subst; by destruct (is_down srv). }
  rewrite Hflush, Hpend in *.
  split; [done|]. split; [done|]. split; [done|].
  pose proof (failed_probe_reportable (status (server d))
                (ping_or_connect env (name (server d))).2) as Hrep.
  set (st' := failed_probe_status _ _) in *.
  assert (Z.testbit st' (Z.of_N pos_RUNNING) = false
          ∧ Z.testbit st' (Z.of_N pos_MAINT) = false) as [Hrun' Hmaint'].
  { unfold reportable, reportable_positions, view in Hrep. simpl in Hrep.
    by inversion Hrep. }
  split.
  { unfold is_down, SERVER_RUNNING. rewrite Hflush. fold st'.
    by rewrite land_flag_eqb_0, Hrun'. }
  intros Hrunning. unfold has_bit, SERVER_RUNNING in Hrunning.
  rewrite nonzero_land_flag in Hrunning.
  rewrite is_in_maint_testbit in Hm.
  assert (status_changed (status (server d)) st' = true) as Hsc.
  { rewrite status_changed_bits, Hrunning, Hm, Hmaint'. simpl.
    rewrite ?andb_true_r. apply andb_true_intro. split.
    - apply negb_true_iff, Z.eqb_neq. intros Heq.
      rewrite Heq, sentinel_testbit in Hm; [done|].
      apply pos_lt_64. apply list_elem_of_In. simpl. tauto.
    - apply negb_true_iff, bool_decide_eq_false. rewrite Hrep.
      unfold reportable, reportable_positions, view. simpl. rewrite Hrunning. done. }
  rewrite Hsc in Hev. destruct Hev as (Hev & Htr). split; [|done].
  rewrite Hev, get_event_type_classify, Hrep.
  unfold down_event, has_bit, SERVER_MASTER, SERVER_SLAVE, SERVER_JOINED.
  rewrite !nonzero_land_flag.
  unfold reportable, reportable_positions, view. simpl fmap. rewrite Hrunning, Hm.
  by destruct (Z.testbit (status (server d)) (Z.of_N pos_MASTER)),
    (Z.testbit (status (server d)) (Z.of_N pos_SLAVE)),
    (Z.testbit (status (server d)) (Z.of_N pos_JOINED)).
Qed.
End TickTheorems.

(** The tick theorems on an input: a running monitor with the master A,
    which refuses every connection. *)
Lemma tick_logs_no_connect_error_witness :
  let B := sample_bits in
  let m := sample_running_monitor [sample_server "A" (Z.lor SERVER_RUNNING SERVER_MASTER)] in
  ∃ r, tick sample_digest (λ _, true) (λ _, true) sample_update m sample_env_refused None
       = Some r
       ∧ ∀ srv rval, ERROR_connect srv rval ∉ tr_effects r.
Proof.
  intros B m.
  destruct (tick sample_digest (λ _, true) (λ _, true) sample_update m sample_env_refused None)
    as [r|] eqn:Hrun; [|exfalso; vm_compute in Hrun; discriminate].
  exists r. split; [reflexivity|].
  exact (@tick_logs_no_connect_error B sample_digest (λ _, true) (λ _, true) sample_update
           m sample_env_refused None r Hrun).
Defined.

Lemma tick_keeps_servers_witness :
  let B := sample_bits in
  let m := sample_running_monitor [sample_server "A" (Z.lor SERVER_RUNNING SERVER_MASTER)] in
  ∃ r, tick sample_digest (λ _, true) (λ _, true) sample_update m sample_env_refused None
       = Some r
       ∧ server_names (m_servers (tr_monitor r)) = ["A"%string]
       ∧ m_status_change_pending (tr_monitor r) = false.
Proof.
  intros B m.
  destruct (tick sample_digest (λ _, true) (λ _, true) sample_update m sample_env_refused None)
    as [r|] eqn:Hrun; [|exfalso; vm_compute in Hrun; discriminate].
  exists r. split; [reflexivity|].
  destruct (@tick_keeps_servers B sample_bits_ok sample_digest (λ _, true) (λ _, true)
              sample_update m sample_env_refused None r Hrun)
    as (Hn & _ & _ & _ & _ & Hp & _).
  split; [exact Hn|exact Hp].
Defined.

Lemma tick_stashes_and_flushes_witness :
  let B := sample_bits in
  let A := sample_server "A" (Z.lor SERVER_RUNNING SERVER_MASTER) in
  let m := sample_running_monitor [A] in
  ∃ r d',
    tick sample_digest (λ _, true) (λ _, true) sample_update m sample_env_refused None
    = Some r
    ∧ m_servers (tr_monitor r) !! 0%nat = Some d'
    ∧ mon_prev_status d' = Z.lor SERVER_RUNNING SERVER_MASTER
    ∧ status (server d') = pending_status d'
    ∧ mon_err_count d' = 0.
Proof.
  intros B A m.
  destruct (tick sample_digest (λ _, true) (λ _, true) sample_update m sample_env_refused None)
    as [r|] eqn:Hrun; [|exfalso; vm_compute in Hrun; discriminate].
  destruct (@tick_stashes_and_flushes B sample_digest (λ _, true) (λ _, true)
              sample_update m sample_env_refused None r 0%nat A Hrun eq_refl eq_refl)
    as (d' & Hl & Hp & Hf & Hc & _).
  exists r, d'. split; [reflexivity|]. split; [exact Hl|]. split; [exact Hp|].
  split; [exact Hf|exact Hc].
Defined.

Lemma tick_failed_probe_witness :
  let B := sample_bits in
  let A := sample_server "A" (Z.lor SERVER_RUNNING SERVER_MASTER) in
  let m := sample_running_monitor [A] in
  ∃ r d',
    tick sample_digest (λ _, true) (λ _, true) sample_update m sample_env_refused None
    = Some r
    ∧ m_servers (tr_monitor r) !! 0%nat = Some d'
    ∧ status (server d') = 0
    ∧ last_event (server d') = MASTER_DOWN_EVENT.
Proof.
  intros B A m.
  destruct (tick sample_digest (λ _, true) (λ _, true) sample_update m sample_env_refused None)
    as [r|] eqn:Hrun; [|exfalso; vm_compute in Hrun; discriminate].
  destruct (@tick_failed_probe B sample_bits_ok sample_digest (λ _, true) (λ _, true)
              sample_update m sample_env_refused None r 0%nat A Hrun eq_refl eq_refl eq_refl)
    as (d' & Hl & Hs & _ & _ & _ & Hev).
  { vm_compute. split; [discriminate|reflexivity]. }
  exists r, d'. split; [reflexivity|]. split; [exact Hl|]. split; [exact Hs|].
  exact (proj1 (Hev eq_refl)).
Defined.

(** ** More on the event classifier *)

Section ClassifierTheorems.
Context `{HB : ServerBits} {Hok : ServerBitsOk HB}.

Ltac classifier_cases prev curr :=
  rewrite ?get_event_type_classify, ?status_changed_bits;
  unfold up_event, down_event, lost_event, new_event, has_bit, SERVER_RUNNING, SERVER_MAINT,
    SERVER_MASTER, SERVER_SLAVE, SERVER_JOINED in *;
  rewrite ?nonzero_land_flag in *;
  unfold reportable, reportable_positions, view; simpl fmap;
  destruct (Z.testbit prev (Z.of_N pos_RUNNING)),
    (Z.testbit prev (Z.of_N pos_MAINT)), (Z.testbit prev (Z.of_N pos_MASTER)),
    (Z.testbit prev (Z.of_N pos_SLAVE)), (Z.testbit prev (Z.of_N pos_JOINED)),
    (Z.testbit curr (Z.of_N pos_RUNNING)),
    (Z.testbit curr (Z.of_N pos_MAINT)), (Z.testbit curr (Z.of_N pos_MASTER)),
    (Z.testbit curr (Z.of_N pos_SLAVE)), (Z.testbit curr (Z.of_N pos_JOINED)).


(** Role changes of a server that keeps running. A slave that becomes the
    master, and a master that becomes a slave, get the [NEW_*] event of the
    new role. A server that loses master and slave role gets the [LOST_*]
    event of the highest role it had. A server that had [JOINED] and
    neither master nor slave role gets [LOST_SYNCED_EVENT] whenever its
    reportable bits change, also when it keeps [JOINED] and gains a role. *)
Theorem get_event_type_role_change (prev curr : Z) :
  has_bit prev SERVER_RUNNING = true →
  has_bit curr SERVER_RUNNING = true →
  (has_bit prev SERVER_MASTER = false → has_bit prev SERVER_SLAVE = true →
   has_bit curr SERVER_MASTER = true → has_bit curr SERVER_SLAVE = false →
   get_event_type prev curr = NEW_MASTER_EVENT)
  ∧ (has_bit prev SERVER_MASTER = true → has_bit prev SERVER_SLAVE = false →
     has_bit curr SERVER_MASTER = false → has_bit curr SERVER_SLAVE = true →
     get_event_type prev curr = NEW_SLAVE_EVENT)
  ∧ (has_role prev = true →
     has_bit curr SERVER_MASTER = false → has_bit curr SERVER_SLAVE = false →
     Z.land prev all_server_bits ≠ Z.land curr all_server_bits →
     get_event_type prev curr = lost_event prev)
  ∧ (has_bit prev SERVER_MASTER = false → has_bit prev SERVER_SLAVE = false →
     has_bit prev SERVER_JOINED = true →
     Z.land prev all_server_bits ≠ Z.land curr all_server_bits →
     get_event_type prev curr = LOST_SYNCED_EVENT).
Proof.
  rewrite all_server_bits_mask, land_mask_eq. fold (reportable prev) (reportable curr).
  unfold has_role. rewrite server_type_bits_mask. unfold nonzero.
  rewrite !land_mask_eqb_0. unfold view. simpl fmap.
  rewrite (Z.bits_0 (Z.of_N pos_MASTER)), (Z.bits_0 (Z.of_N pos_SLAVE)),
    (Z.bits_0 (Z.of_N pos_JOINED)).
  classifier_cases prev curr; vm_compute; intros; try discriminate;
    repeat split; intros; try discriminate; try reflexivity; exfalso; tauto.
Qed.

Lemma silent_bit_reportable bit st :
  bit ∈ silent_bits →
  reportable (Z.lor st bit) = reportable st
  ∧ reportable (clear_bits st bit) = reportable st.
Proof.
  unfold silent_bits. intros Hin. apply list_elem_of_In in Hin. simpl in Hin.
  unfold reportable, reportable_positions, view. simpl fmap.
  destruct Hin as [<-|[<-|[<-|[<-|[]]]]]; simpl_bits; cbn [negb];
    rewrite ?orb_false_r, ?andb_true_r; done.
Qed.

(** The bits [AUTH_ERROR], [DRAINING], [DISK_SPACE_EXHAUSTED] and
    [WAS_MASTER] are invisible to the state change logic: setting or
    clearing one of them in either status changes neither the verdict of
    [status_changed] nor the event, so a status that differs from the
    previous one in such bits only is not a state change. *)
Theorem status_changed_ignores_silent_bits (prev curr bit : Z) :
  bit ∈ silent_bits →
  status_changed prev (Z.lor curr bit) = status_changed prev curr
  ∧ status_changed prev (clear_bits curr bit) = status_changed prev curr
  ∧ get_event_type prev (Z.lor curr bit) = get_event_type prev curr
  ∧ get_event_type prev (clear_bits curr bit) = get_event_type prev curr
  ∧ get_event_type (Z.lor prev bit) curr = get_event_type prev curr
  ∧ get_event_type (clear_bits prev bit) curr = get_event_type prev curr
  ∧ status_changed curr (Z.lor curr bit) = false
  ∧ status_changed curr (clear_bits curr bit) = false.
Proof.
  intros Hin.
  destruct (silent_bit_reportable bit curr Hin) as [Hc1 Hc2].
  destruct (silent_bit_reportable bit prev Hin) as [Hp1 Hp2].
  assert (∀ st, Z.testbit (Z.lor st bit) (Z.of_N pos_MAINT) = Z.testbit st (Z.of_N pos_MAINT)
                ∧ Z.testbit (Z.lor st bit) (Z.of_N pos_RUNNING)
                  = Z.testbit st (Z.of_N pos_RUNNING)
                ∧ Z.testbit (clear_bits st bit) (Z.of_N pos_MAINT)
                  = Z.testbit st (Z.of_N pos_MAINT)
                ∧ Z.testbit (clear_bits st bit) (Z.of_N pos_RUNNING)
                  = Z.testbit st (Z.of_N pos_RUNNING)) as Hbits.
  { intros st. destruct (silent_bit_reportable bit st Hin) as [H1 H2].
    unfold reportable, reportable_positions, view in H1, H2. simpl in H1, H2.
    injection H1 as E1 E2 _ _ _. injection H2 as E3 E4 _ _ _. done. }
  destruct (Hbits curr) as (Hm1 & Hr1 & Hm2 & Hr2).
  rewrite !get_event_type_classify, !status_changed_bits.
  rewrite Hc1, Hc2, Hp1, Hp2, Hm1, Hr1, Hm2, Hr2.
  repeat split; try done.
  - rewrite bool_decide_eq_true_2 by done. simpl. by rewrite andb_false_r.
  - rewrite bool_decide_eq_true_2 by done. simpl. by rewrite andb_false_r.
Qed.
End ClassifierTheorems.

Lemma get_event_type_role_change_witness :
  let B := sample_bits in
  get_event_type (Z.lor SERVER_RUNNING SERVER_SLAVE) (Z.lor SERVER_RUNNING SERVER_MASTER)
  = NEW_MASTER_EVENT
  ∧ get_event_type (Z.lor SERVER_RUNNING SERVER_JOINED)
      (Z.lor (Z.lor SERVER_RUNNING SERVER_JOINED) SERVER_MASTER)
    = LOST_SYNCED_EVENT.
Proof.
  intros B. split.
  - destruct (@get_event_type_role_change B (Z.lor SERVER_RUNNING SERVER_SLAVE)
                (Z.lor SERVER_RUNNING SERVER_MASTER)) as (H1 & _);
      [reflexivity|reflexivity|].
    apply H1; reflexivity.
  - destruct (@get_event_type_role_change B (Z.lor SERVER_RUNNING SERVER_JOINED)
                (Z.lor (Z.lor SERVER_RUNNING SERVER_JOINED) SERVER_MASTER))
      as (_ & _ & _ & H4); [reflexivity|reflexivity|].
    apply H4; try reflexivity. vm_compute. discriminate.
Defined.

Lemma status_changed_ignores_silent_bits_witness :
  let B := sample_bits in
  status_changed SERVER_RUNNING (Z.lor SERVER_RUNNING SERVER_DISK_SPACE_EXHAUSTED) = false
  ∧ get_event_type 0 (Z.lor SERVER_RUNNING SERVER_DRAINING) = SERVER_UP_EVENT.
Proof.
  intros B.
  assert (SERVER_DISK_SPACE_EXHAUSTED ∈ silent_bits) as H1
    by (apply list_elem_of_In; simpl; tauto).
  assert (SERVER_DRAINING ∈ silent_bits) as H2 by (apply list_elem_of_In; simpl; tauto).
  split.
  - exact (proj1 (proj2 (proj2 (proj2 (proj2 (proj2 (proj2
             (@status_changed_ignores_silent_bits B sample_bits_ok SERVER_RUNNING
                SERVER_RUNNING SERVER_DISK_SPACE_EXHAUSTED H1)))))))).
  - rewrite (proj1 (proj2 (proj2
             (@status_changed_ignores_silent_bits B sample_bits_ok 0
                SERVER_RUNNING SERVER_DRAINING H2)))).
    reflexivity.
Defined.


(** ** The permission check over several servers *)

Lemma test_permissions_loop_app rval servers last probe :
  test_permissions_loop rval (servers ++ [last]) probe =
  let r := test_permissions_loop rval servers probe in
  let r' := test_permissions_server r.1 last (probe (name (server last))) in
  (r'.1, r.2 ++ r'.2).
Proof.
  revert rval. induction servers as [|d rest IH]; intros rval.
  - simpl. destruct (test_permissions_server rval last _) as [r' log']; simpl.
    by rewrite app_nil_r.
  - simpl. destruct (test_permissions_server rval d _) as [r1 log1].
    rewrite IH.
    destruct (test_permissions_loop r1 rest probe) as [r2 log2]. simpl.
    destruct (test_permissions_server r2 last _) as [r3 log3]. simpl.
    by rewrite app_assoc.
Qed.

(** The verdict of [test_permissions] over several servers is the verdict
    on the last one: the loop assigns [rval] for each server anew. Only
    when the last server refuses the login is the verdict the one of the
    servers before it. So a server on which the monitor user lacks grants
    goes unnoticed when a later server passes. *)
Theorem test_permissions_last_server_decides (m : Monitor)
    (servers : list MonitorServer) (last : MonitorServer)
    (probe : string → PermissionProbe) :
  let p := probe (name (server last)) in
  let verdict := (test_permissions (with_servers m (servers ++ [last])) false probe).1 in
  (connection_is_ok (pp_connect p) = true →
   verdict = pp_query_ok p || negb (query_denied (pp_query_errno p)))
  ∧ (connection_is_ok (pp_connect p) = false → login_denied (pp_connect_errno p) = false →
     verdict = true)
  ∧ (connection_is_ok (pp_connect p) = false → login_denied (pp_connect_errno p) = true →
     verdict = (test_permissions_loop false servers probe).1).
Proof.
  intros p verdict. subst verdict. unfold test_permissions. simpl m_servers.
  rewrite bool_decide_eq_false_2 by (by destruct servers).
  simpl orb. cbv iota. rewrite test_permissions_loop_app. cbv zeta. simpl fst.
  fold p. unfold test_permissions_server.
  destruct p as [c ce qok qe hr]. simpl.
  split; [|split].
  - intros Hc. rewrite Hc. simpl. destruct qok; simpl; [done|]. by destruct qe.
  - intros Hc Hl. rewrite Hc. simpl. by destruct ce.
  - intros Hc Hl. rewrite Hc. simpl. by destruct ce.
Qed.

Lemma test_permissions_last_server_decides_witness :
  let denied := mkPermissionProbe MONITOR_CONN_NEWCONN_OK (ER_OTHER 0) false
                  ER_TABLEACCESS_DENIED_ERROR false in
  let fine := mkPermissionProbe MONITOR_CONN_NEWCONN_OK (ER_OTHER 0) true (ER_OTHER 0) true in
  let probe := λ n : string, if bool_decide (n = "A"%string) then denied else fine in
  test_permissions (sample_monitor [sample_server "A" 0; sample_server "B" 0]) false probe
  = (true, [ERROR_permissions_query "A"]).
Proof.
  intros denied fine probe.
  destruct (test_permissions_last_server_decides (sample_monitor [])
              [sample_server "A" 0] (sample_server "B" 0) probe) as (H1 & _).
  specialize (H1 eq_refl).
  destruct (test_permissions _ false probe) as [v log] eqn:Ht.
  simpl in H1. subst v. vm_compute in Ht. by inversion Ht.
Defined.

(** [start] checks the permissions until they have passed once: a monitor
    that has started before starts again whatever the check would say now,
    and the check's errors are not logged. *)
Theorem start_checks_permissions_once (m : Monitor) (stale : bool) (log : list effect)
    (stale' : bool) (perms' : bool * list effect) (worker' thread' : bool) :
  m_checked m = false →
  let first := start m stale (true, log) true true in
  let again := start (with_state first.1.2 MONITOR_STATE_STOPPED) stale' perms' worker' thread' in
  first.1.1 = true
  ∧ m_state first.1.2 = MONITOR_STATE_RUNNING
  ∧ m_checked first.1.2 = true
  ∧ again.1.1 = worker' && thread'
  ∧ again.2 = (if stale' then [WARNING_stale_journal; FILE_UNLINK_JOURNAL] else [])
              ++ (if worker' then [] else [ERROR_worker_start]).
Proof.
  intros Hc first again. subst first again. unfold start. rewrite Hc. simpl.
  destruct perms' as [ok plog], worker', thread', stale'; simpl; rewrite ?app_nil_r; done.
Qed.

Lemma start_checks_permissions_once_witness :
  let m := sample_monitor [sample_server "A" 0] in
  let first := start m false (true, []) true true in
  (start (with_state first.1.2 MONITOR_STATE_STOPPED) false
         (false, [ERROR_permissions_query "A"]) true true).1.1 = true.
Proof.
  intros m first.
  exact (proj1 (proj2 (proj2 (proj2
           (start_checks_permissions_once m false [] false
              (false, [ERROR_permissions_query "A"]) true true eq_refl))))).
Defined.

(** ** Admin requests *)

Section AdminTheorems.
Context `{HB : ServerBits} {Hok : ServerBitsOk HB}.

Lemma get_monitored_server_names m srv :
  get_monitored_server m srv
  = fst <$> list_find (λ n, n = srv) (server_names (m_servers m)).
Proof.
  unfold get_monitored_server, server_names. rewrite list_find_fmap.
  destruct (list_find _ (m_servers m)) as [[i d]|]; done.
Qed.

Lemma server_names_insert servers i d d' :
  servers !! i = Some d → name (server d') = name (server d) →
  server_names (<[i := d']> servers) = server_names servers.
Proof.
  intros Hi Hn. unfold server_names. rewrite list_fmap_insert. simpl.
  apply list_insert_id. by rewrite list_lookup_fmap, Hi, Hn.
Qed.

Lemma monitored_server_found m srv i d :
  get_monitored_server m srv = Some i → m_servers m !! i = Some d →
  get_monitored_server m srv ≫= (λ i, (i,.) <$> m_servers m !! i) = Some (i, d)
  ∧ name (server d) = srv.
Proof.
  intros Hg Hi. rewrite Hg. simpl. rewrite Hi. split; [done|].
  unfold get_monitored_server in Hg.
  destruct (list_find _ (m_servers m)) as [[j d0]|] eqn:Hf; [|done].
  simpl in Hg. inversion Hg; subst j.
  apply list_find_Some in Hf as (Hj & Hn & _). rewrite Hi in Hj. by inversion Hj; subst.
Qed.

(** The request that [set_server_status] or [clear_server_status] posts for
    a bit, by the test of the source: [MAINT] decides, and anything else
    counts as [DRAINING]. *)
Lemma nonzero_maint_draining bit :
  nonzero (Z.land bit (Z.lnot (Z.lor SERVER_MAINT SERVER_DRAINING))) = false →
  Z.land bit (Z.lnot (Z.lor SERVER_MAINT SERVER_DRAINING)) = 0.
Proof. unfold nonzero. intros Hn. apply negb_false_iff in Hn. by apply Z.eqb_eq. Qed.

Lemma status_request_posted m srv bit i d :
  m_state m = MONITOR_STATE_RUNNING →
  get_monitored_server m srv = Some i →
  m_servers m !! i = Some d →
  let refused := nonzero (Z.land bit (Z.lnot (Z.lor SERVER_MAINT SERVER_DRAINING))) in
  let posted req :=
    (true,
     with_status_change_pending
       (with_servers m (<[i := with_status_request d req]> (m_servers m))) true,
     if bool_decide (status_request d ≠ NO_CHANGE) then [WARNING_request_overwritten]
     else []) in
  set_server_status m srv bit
    = (if refused then (false, m, [ERROR_cannot_modify])
       else posted (if has_bit bit SERVER_MAINT then MAINT_ON else BEING_DRAINED_ON))
  ∧ clear_server_status m srv bit
    = (if refused then (false, m, [ERROR_cannot_modify])
       else posted (if has_bit bit SERVER_MAINT then MAINT_OFF else BEING_DRAINED_OFF)).
Proof.
  intros Hst Hg Hi refused posted.
  destruct (monitored_server_found _ _ _ _ Hg Hi) as (Hf & Hn).
  split.
  - unfold set_server_status. rewrite Hf, Hst. fold refused.
    destruct refused; [done|]. unfold post_status_request, posted, has_bit. done.
  - unfold clear_server_status. rewrite Hf, Hst. fold refused.
    destruct refused; [done|]. unfold post_status_request, posted, has_bit. done.
Qed.

(** While the monitor runs, the admin interface never writes a status: a
    bit other than [MAINT] and [DRAINING] is refused with an error and
    nothing changes; a [MAINT] or [DRAINING] bit is turned into a request
    on the server ([MAINT] decides which when both are given), the flag for
    waiting requests is raised, and every server keeps its [SERVER] as it
    is. A request that was still waiting is replaced, with a warning. *)
Theorem set_server_status_running (m : Monitor) (srv : string) (bit : Z)
    (i : nat) (d : MonitorServer) :
  m_state m = MONITOR_STATE_RUNNING →
  get_monitored_server m srv = Some i →
  m_servers m !! i = Some d →
  let refused := nonzero (Z.land bit (Z.lnot (Z.lor SERVER_MAINT SERVER_DRAINING))) in
  let on_req := if has_bit bit SERVER_MAINT then MAINT_ON else BEING_DRAINED_ON in
  let off_req := if has_bit bit SERVER_MAINT then MAINT_OFF else BEING_DRAINED_OFF in
  let posted req :=
    (true,
     with_status_change_pending
       (with_servers m (<[i := with_status_request d req]> (m_servers m))) true,
     if bool_decide (status_request d ≠ NO_CHANGE) then [WARNING_request_overwritten]
     else []) in
  set_server_status m srv bit
    = (if refused then (false, m, [ERROR_cannot_modify]) else posted on_req)
  ∧ clear_server_status m srv bit
    = (if refused then (false, m, [ERROR_cannot_modify]) else posted off_req)
  ∧ (server <$> m_servers (set_server_status m srv bit).1.2) = (server <$> m_servers m)
  ∧ (server <$> m_servers (clear_server_status m srv bit).1.2) = (server <$> m_servers m).
Proof.
  intros Hst Hg Hi refused on_req off_req posted.
  destruct (status_request_posted m srv bit i d Hst Hg Hi) as (Hset & Hclr).
  cbv zeta in Hset, Hclr. fold refused in Hset, Hclr.
  split; [done|]. split; [done|]. rewrite Hset, Hclr.
  assert (∀ req, server <$> <[i := with_status_request d req]> (m_servers m)
                 = server <$> m_servers m) as Hsame.
  { intros req. rewrite list_fmap_insert. simpl. apply list_insert_id.
    by rewrite list_lookup_fmap, Hi. }
  destruct refused; simpl; by rewrite ?Hsame.
Qed.

(** Of two requests posted for a server between two ticks only the second
    counts: the call that posts it leaves the monitor as it would have left
    it without the first call, and logs the warning. *)
Theorem last_status_request_wins (m : Monitor) (srv : string) (bit1 bit2 : Z)
    (i : nat) (d : MonitorServer) :
  m_state m = MONITOR_STATE_RUNNING →
  get_monitored_server m srv = Some i →
  m_servers m !! i = Some d →
  nonzero (Z.land bit1 (Z.lnot (Z.lor SERVER_MAINT SERVER_DRAINING))) = false →
  nonzero (Z.land bit2 (Z.lnot (Z.lor SERVER_MAINT SERVER_DRAINING))) = false →
  let m1 := (set_server_status m srv bit1).1.2 in
  (clear_server_status m1 srv bit2).1 = (clear_server_status m srv bit2).1
  ∧ (set_server_status m1 srv bit2).1 = (set_server_status m srv bit2).1
  ∧ (clear_server_status m1 srv bit2).2 = [WARNING_request_overwritten]
  ∧ (set_server_status m1 srv bit2).2 = [WARNING_request_overwritten].
Proof.
  intros Hst Hg Hi Hb1 Hb2 m1.
  destruct (status_request_posted m srv bit1 i d Hst Hg Hi) as (Hs1 & _).
  destruct (status_request_posted m srv bit2 i d Hst Hg Hi) as (Hs2 & Hc2).
  cbv zeta in Hs1, Hs2, Hc2. rewrite Hb1 in Hs1. rewrite Hb2 in Hs2, Hc2.
  set (req1 := if has_bit bit1 SERVER_MAINT then MAINT_ON else BEING_DRAINED_ON) in *.
  set (d1 := with_status_request d req1).
  assert (m1 = with_status_change_pending
                 (with_servers m (<[i := d1]> (m_servers m))) true) as Hm1
    by (unfold m1; by rewrite Hs1).
  assert (m_servers m1 !! i = Some d1) as Hi1.
  { rewrite Hm1. simpl. apply list_lookup_insert_eq. by eapply lookup_lt_Some. }
  assert (get_monitored_server m1 srv = Some i) as Hg1.
  { rewrite get_monitored_server_names, Hm1. simpl.
    rewrite (server_names_insert _ _ d) by done.
    by rewrite <- get_monitored_server_names. }
  assert (m_state m1 = MONITOR_STATE_RUNNING) as Hst1 by (by rewrite Hm1).
  destruct (status_request_posted m1 srv bit2 i d1 Hst1 Hg1 Hi1) as (Hs & Hc).
  cbv zeta in Hs, Hc. rewrite Hb2 in Hs, Hc.
  assert (status_request d1 ≠ NO_CHANGE) as Hreq.
  { unfold d1, req1. simpl. by destruct (has_bit bit1 SERVER_MAINT). }
  rewrite bool_decide_eq_true_2 in Hs, Hc by done.
  rewrite Hs, Hc, Hs2, Hc2. simpl.
  assert (∀ req, <[i := with_status_request d1 req]> (m_servers m1)
                 = <[i := with_status_request d req]> (m_servers m)) as Hins.
  { intros req. rewrite Hm1. simpl. by rewrite list_insert_insert_eq. }
  rewrite !Hins. rewrite Hm1. done.
Qed.

Lemma stopped_lookup m srv i d d' :
  get_monitored_server m srv = Some i → m_servers m !! i = Some d →
  name (server d') = name (server d) →
  let m' := with_servers m (<[i := d']> (m_servers m)) in
  get_monitored_server m' srv = Some i ∧ m_servers m' !! i = Some d'.
Proof.
  intros Hg Hi Hn m'. split.
  - unfold m'. rewrite get_monitored_server_names. simpl.
    rewrite (server_names_insert _ _ d) by done.
    by rewrite <- get_monitored_server_names.
  - unfold m'. simpl. apply list_lookup_insert_eq. by eapply lookup_lt_Some.
Qed.

(** While the monitor is stopped the bits are written at once, whatever
    they are: [set_server_status] sets them in the live status,
    [clear_server_status] clears them, no request is posted and nothing is
    logged. Clearing after setting gives the status without the bits. *)
Theorem set_server_status_stopped (m : Monitor) (srv : string) (bit : Z)
    (i : nat) (d : MonitorServer) :
  m_state m = MONITOR_STATE_STOPPED →
  get_monitored_server m srv = Some i →
  m_servers m !! i = Some d →
  let m1 := (set_server_status m srv bit).1.2 in
  set_server_status m srv bit
    = (true, with_servers m (<[i := with_server d (set_status (server d) bit)]> (m_servers m)),
       [])
  ∧ clear_server_status m srv bit
    = (true, with_servers m (<[i := with_server d (clear_status (server d) bit)]> (m_servers m)),
       [])
  ∧ (status ∘ server <$> m_servers m1 !! i) = Some (Z.lor (status (server d)) bit)
  ∧ (status ∘ server <$> m_servers (clear_server_status m1 srv bit).1.2 !! i)
    = Some (clear_bits (status (server d)) bit)
  ∧ m_status_change_pending m1 = m_status_change_pending m.
Proof.
  intros Hst Hg Hi m1.
  destruct (monitored_server_found _ _ _ _ Hg Hi) as (Hf & Hn).
  assert (set_server_status m srv bit
          = (true, with_servers m (<[i := with_server d (set_status (server d) bit)]>
                                     (m_servers m)), [])) as Hset.
  { unfold set_server_status. by rewrite Hf, Hst. }
  split; [done|]. split.
  { unfold clear_server_status. by rewrite Hf, Hst. }
  set (d1 := with_server d (set_status (server d) bit)).
  assert (m1 = with_servers m (<[i := d1]> (m_servers m))) as Hm1
    by (unfold m1; by rewrite Hset).
  destruct (stopped_lookup m srv i d d1 Hg Hi eq_refl) as (Hg1 & Hi1).
  cbv zeta in Hg1, Hi1. rewrite <- Hm1 in Hg1, Hi1.
  split; [by rewrite Hi1|]. split; [|by rewrite Hm1].
  destruct (monitored_server_found _ _ _ _ Hg1 Hi1) as (Hf1 & _).
  unfold clear_server_status. rewrite Hf1.
  assert (m_state m1 = MONITOR_STATE_STOPPED) as -> by (by rewrite Hm1).
  simpl. rewrite list_lookup_insert_eq by (by eapply lookup_lt_Some). simpl.
  f_equal. unfold clear_bits. apply Z.bits_inj'. intros k Hk.
  rewrite !Z.land_spec, Z.lor_spec, Z.lnot_spec by done.
  by destruct (Z.testbit (status (server d)) k), (Z.testbit bit k).
Qed.

(** A server that the monitor does not have: both calls fail with an error
    and change nothing, whatever the state of the monitor. *)
Theorem set_server_status_not_monitored (m : Monitor) (srv : string) (bit : Z) :
  srv ∉ server_names (m_servers m) →
  set_server_status m srv bit = (false, m, [ERROR_not_monitored srv])
  ∧ clear_server_status m srv bit = (false, m, [ERROR_not_monitored srv]).
Proof.
  intros Hnot.
  assert (get_monitored_server m srv = None) as Hg.
  { rewrite get_monitored_server_names.
    destruct (list_find _ _) as [[j n]|] eqn:Hf; [|done].
    apply list_find_Some in Hf as (Hj & -> & _).
    exfalso. apply Hnot. by eapply list_elem_of_lookup_2. }
  unfold set_server_status, clear_server_status. by rewrite Hg.
Qed.

(** [check_maintenance_requests] consumes the requests: it lowers the flag,
    and when the flag was up every server is left without a request, so a
    second call changes nothing. With the flag down it changes nothing,
    requests or not. *)
Theorem check_maintenance_requests_consumes (m : Monitor) :
  check_maintenance_requests (check_maintenance_requests m) = check_maintenance_requests m
  ∧ m_status_change_pending (check_maintenance_requests m) = false
  ∧ (m_status_change_pending m = true →
     Forall (λ d, status_request d = NO_CHANGE) (m_servers (check_maintenance_requests m)))
  ∧ (m_status_change_pending m = false → check_maintenance_requests m = m).
Proof.
  unfold check_maintenance_requests at 1 2 4 5 6.
  destruct m as [n s servers h p ma st c t]. simpl.
  destruct p; simpl; repeat split; try done.
  intros _. apply Forall_forall. intros d Hd. apply list_elem_of_fmap in Hd as (d0 & -> & _).
  unfold apply_status_request. by destruct (status_request d0).
Qed.
End AdminTheorems.

(** The admin theorems on inputs: a monitor with the running server A. *)
Lemma set_server_status_running_witness :
  let B := sample_bits in
  let m := sample_running_monitor [sample_server "A" SERVER_RUNNING] in
  set_server_status m "A" SERVER_MASTER = (false, m, [ERROR_cannot_modify])
  ∧ (server <$> m_servers (set_server_status m "A" SERVER_DRAINING).1.2)
    = (server <$> m_servers m).
Proof.
  intros B m.
  destruct (@set_server_status_running B m "A" SERVER_MASTER 0%nat
              (sample_server "A" SERVER_RUNNING) eq_refl eq_refl eq_refl) as (H1 & _).
  destruct (@set_server_status_running B m "A" SERVER_DRAINING 0%nat
              (sample_server "A" SERVER_RUNNING) eq_refl eq_refl eq_refl) as (_ & _ & H3 & _).
  split; [exact H1|exact H3].
Defined.

Lemma last_status_request_wins_witness :
  let B := sample_bits in
  let m := sample_running_monitor [sample_server "A" SERVER_RUNNING] in
  let m1 := (set_server_status m "A" SERVER_MAINT).1.2 in
  (clear_server_status m1 "A" SERVER_MAINT).1 = (clear_server_status m "A" SERVER_MAINT).1
  ∧ (clear_server_status m1 "A" SERVER_MAINT).2 = [WARNING_request_overwritten].
Proof.
  intros B m m1.
  destruct (@last_status_request_wins B m "A" SERVER_MAINT SERVER_MAINT 0%nat
              (sample_server "A" SERVER_RUNNING) eq_refl eq_refl eq_refl)
    as (H1 & _ & H3 & _); [vm_compute; reflexivity..|].
  split; [exact H1|exact H3].
Defined.

Lemma set_server_status_stopped_witness :
  let B := sample_bits in
  let m := sample_monitor [sample_server "A" SERVER_RUNNING] in
  (status ∘ server <$> m_servers (set_server_status m "A" SERVER_MASTER).1.2 !! 0%nat)
  = Some (Z.lor SERVER_RUNNING SERVER_MASTER).
Proof.
  intros B m.
  destruct (@set_server_status_stopped B m "A" SERVER_MASTER 0%nat
              (sample_server "A" SERVER_RUNNING) eq_refl eq_refl eq_refl) as (_ & _ & H3 & _).
  exact H3.
Defined.

Lemma set_server_status_not_monitored_witness :
  let B := sample_bits in
  let m := sample_running_monitor [sample_server "A" SERVER_RUNNING] in
  set_server_status m "B" SERVER_MAINT = (false, m, [ERROR_not_monitored "B"]).
Proof.
  intros B m.
  apply (@set_server_status_not_monitored B m "B" SERVER_MAINT).
  intros Hin. apply list_elem_of_In in Hin. simpl in Hin. destruct Hin as [Heq|[]].
  discriminate Heq.
Defined.

Lemma check_maintenance_requests_consumes_witness :
  let B := sample_bits in
  let m := (set_server_status (sample_running_monitor [sample_server "A" SERVER_RUNNING])
              "A" SERVER_MAINT).1.2 in
  Forall (λ d, status_request d = NO_CHANGE) (m_servers (check_maintenance_requests m)).
Proof.
  intros B m.
  exact (proj1 (proj2 (proj2 (@check_maintenance_requests_consumes B m))) eq_refl).
Defined.

(** ** Ownership of the servers *)

Lemma release_servers_lookup (owners : gmap string string) servers n :
  foldl (λ o d, ThisUnit.release_server o (name (server d))) owners servers !! n
  = if bool_decide (n ∈ server_names servers) then None else owners !! n.
Proof.
  revert owners. induction servers as [|d rest IH]; intros owners; [done|].
  simpl. rewrite IH. unfold ThisUnit.release_server.
  destruct (decide (n = name (server d))) as [->|Hne].
  - rewrite lookup_delete_eq. rewrite (bool_decide_eq_true_2 (_ ∈ _ :: _)) by left.
    by case_bool_decide.
  - rewrite lookup_delete_ne by done.
    case_bool_decide as H1; case_bool_decide as H2; try done.
    + exfalso. apply H2. by right.
    + exfalso. apply elem_of_cons in H2 as [?|?]; done.
Qed.

(** [add_server] keeps the books: if the monitored servers have distinct
    names and the table has the monitor as the owner of each, this holds
    again after the call, whether it succeeds or not; what the table says
    about any other monitor's servers stays true; and after a successful
    call the table names this monitor for the server and the server is
    found by [get_monitored_server]. *)
Theorem add_server_keeps_ownership (m : Monitor) (owners : gmap string string)
    (srv : SERVER) :
  NoDup (server_names (m_servers m)) →
  owns m owners →
  let r := add_server m owners srv in
  NoDup (server_names (m_servers r.1.1.2))
  ∧ owns r.1.1.2 r.1.2
  ∧ (∀ m2, owns m2 owners → owns m2 r.1.2)
  ∧ (r.1.1.1 = true →
     get_server_monitor r.1.2 srv = m_name m
     ∧ get_monitored_server r.1.1.2 (name srv) = Some (length (m_servers m)))
  ∧ (r.1.1.1 = false → r.1.1.2 = m ∧ r.1.2 = owners).
Proof.
  intros Hnd Hown r. subst r. unfold add_server, ThisUnit.claim_server.
  destruct (owners !! name srv) as [owner|] eqn:Ho; simpl.
  { repeat split; done. }
  assert (name srv ∉ server_names (m_servers m)) as Hfresh.
  { intros Hin. unfold server_names in Hin.
    apply list_elem_of_fmap in Hin as (d & Hn & Hd).
    unfold owns in Hown. rewrite Forall_forall in Hown.
    specialize (Hown d Hd). rewrite <- Hn in Hown. congruence. }
  assert (∀ m2, owns m2 owners → owns m2 (<[name srv := m_name m]> owners)) as Hother.
  { intros m2 H2. unfold owns in *. rewrite Forall_forall in *. intros d Hd.
    specialize (H2 d Hd). rewrite lookup_insert_ne; [done|]. intros Heq. congruence. }
  split; [|split; [|split; [done|split; [|done]]]].
  - unfold server_names. rewrite fmap_app. simpl.
    apply NoDup_app. split; [done|]. split.
    + intros n Hn Hs. apply list_elem_of_singleton in Hs. by subst.
    + apply NoDup_singleton.
  - unfold owns. simpl. apply Forall_app. split.
    + apply (Hother m Hown).
    + apply Forall_singleton. simpl. apply lookup_insert_eq.
  - intros _. split.
    + unfold get_server_monitor, ThisUnit.claimed_by. by rewrite lookup_insert_eq.
    + unfold get_monitored_server. simpl.
      assert (list_find (λ d, name (server d) = name srv)
                (m_servers m ++ [new_MonitorServer srv
                                   (disk_space_limits_setting (m_settings m))])
              = Some (length (m_servers m),
                      new_MonitorServer srv (disk_space_limits_setting (m_settings m))))
        as ->; [|done].
      apply list_find_Some. split; [|split; [done|]].
      * rewrite lookup_app_r by lia. by rewrite Nat.sub_diag.
      * intros j d Hj Hlt Hn. rewrite lookup_app_l in Hj by done.
        apply Hfresh. rewrite <- Hn. unfold server_names.
        apply list_elem_of_fmap. exists d. split; [done|]. by eapply list_elem_of_lookup_2.
Qed.

(** [remove_all_servers] empties the monitor, asks the services to drop
    each server in turn, and erases the table's entry of each server's
    name, whoever it names as owner; the other entries stay. For a monitor
    that the table has as the owner of its servers, whose names are
    distinct: after a successful [add_server] it leaves the table that it
    would have left before that call, so the entry of the new server is
    gone with the others; that is the table as it was before the
    [add_server] for a monitor without servers, and for no other. *)
Theorem remove_all_servers_releases (m : Monitor) (owners : gmap string string) :
  let r := remove_all_servers m owners in
  m_servers r.1.1 = []
  ∧ r.2 = (λ d, SERVICE_REMOVE_SERVER (name (server d))) <$> m_servers m
  ∧ (∀ n, n ∈ server_names (m_servers m) → ThisUnit.claimed_by r.1.2 n = ""%string
                                            ∧ r.1.2 !! n = None)
  ∧ (∀ n, n ∉ server_names (m_servers m) → r.1.2 !! n = owners !! n)
  ∧ (∀ srv, NoDup (server_names (m_servers m)) → owns m owners →
       owners !! name srv = None →
       let a := add_server m owners srv in
       a.1.1.1 = true
       ∧ (remove_all_servers a.1.1.2 a.1.2).1.2 = r.1.2
       ∧ (m_servers m = [] → (remove_all_servers a.1.1.2 a.1.2).1.2 = owners)
       ∧ (m_servers m ≠ [] → (remove_all_servers a.1.1.2 a.1.2).1.2 ≠ owners)).
Proof.
  intros r. subst r. unfold remove_all_servers. simpl.
  split; [done|]. split; [done|]. split; [|split].
  - intros n Hn. unfold ThisUnit.claimed_by.
    rewrite release_servers_lookup, bool_decide_eq_true_2 by done. done.
  - intros n Hn. by rewrite release_servers_lookup, bool_decide_eq_false_2.
  - intros srv _ Hown Ho. unfold add_server, ThisUnit.claim_server. rewrite Ho. simpl.
    split; [done|].
    assert (foldl (λ o d, ThisUnit.release_server o (name (server d)))
              (<[name srv := m_name m]> owners)
              (m_servers m
               ++ [new_MonitorServer srv (disk_space_limits_setting (m_settings m))])
            = foldl (λ o d, ThisUnit.release_server o (name (server d))) owners
                (m_servers m)) as Heq.
    { apply map_eq. intros n. rewrite !release_servers_lookup.
      assert (n ∈ server_names
                (m_servers m
                 ++ [new_MonitorServer srv (disk_space_limits_setting (m_settings m))])
              ↔ n ∈ server_names (m_servers m) ∨ n = name srv) as Hin.
      { unfold server_names. rewrite fmap_app, elem_of_app. simpl.
        by rewrite list_elem_of_singleton. }
      destruct (decide (n = name srv)) as [->|Hne].
      - rewrite bool_decide_eq_true_2 by (apply Hin; by right).
        rewrite Ho. by case_bool_decide.
      - rewrite lookup_insert_ne by done.
        case_bool_decide as H1; case_bool_decide as H2; try done.
        + apply Hin in H1 as [H1|H1]; done.
        + exfalso. apply H1, Hin. by left. }
    split; [exact Heq|]. split.
    + intros Hempty. rewrite Heq, Hempty. done.
    + intros Hne Htab. rewrite Heq in Htab. unfold owns in Hown.
      destruct (m_servers m) as [|d rest] eqn:Hs; [done|].
      apply Forall_cons in Hown as [Hd _].
      assert (foldl (λ o d0, ThisUnit.release_server o (name (server d0))) owners
                (d :: rest) !! name (server d) = None) as Hnone.
      { rewrite release_servers_lookup, bool_decide_eq_true_2; [done|].
        unfold server_names. rewrite fmap_cons. left. }
      rewrite Htab, Hd in Hnone. done.
Qed.

(** After [deactivate] the monitor is stopped and has no servers, and any
    monitor can take each of the former servers: [add_server] succeeds on
    it. *)
Theorem deactivate_frees_servers (m m2 : Monitor) (owners : gmap string string)
    (d : MonitorServer) :
  d ∈ m_servers m →
  let r := deactivate m owners in
  m_state r.1.1 = MONITOR_STATE_STOPPED
  ∧ m_servers r.1.1 = []
  ∧ (add_server m2 r.1.2 (server d)).1.1.1 = true.
Proof.
  intros Hd r. subst r. unfold deactivate.
  set (m1 := match m_state m with
             | MONITOR_STATE_RUNNING => stop m
             | MONITOR_STATE_STOPPED => m
             end).
  assert (m_servers m1 = m_servers m ∧ m_state m1 = MONITOR_STATE_STOPPED) as [Hs Hst].
  { unfold m1, stop. by destruct (m_state m) eqn:E. }
  split; [by unfold remove_all_servers|]. split; [done|].
  assert (name (server d) ∈ server_names (m_servers m1)) as Hin.
  { rewrite Hs. unfold server_names. apply list_elem_of_fmap. by exists d. }
  unfold add_server, ThisUnit.claim_server, remove_all_servers. simpl.
  by rewrite release_servers_lookup, bool_decide_eq_true_2.
Qed.

(** The ownership theorems on inputs: the table has the monitor as the
    owner of A; B is added, then the monitor is deactivated. *)
Lemma add_server_keeps_ownership_witness :
  let m := sample_monitor [sample_server "A" 0] in
  let owners : gmap string string := {[ "A"%string := "Monitor"%string ]} in
  let r := add_server m owners (mkSERVER "B" 0 UNDEFINED_EVENT 0 []) in
  NoDup (server_names (m_servers r.1.1.2)) ∧ owns r.1.1.2 r.1.2
  ∧ (add_server m owners (mkSERVER "A" 0 UNDEFINED_EVENT 0 [])).1.1.2 = m.
Proof.
  intros m owners r.
  assert (NoDup (server_names (m_servers m))) as Hnd.
  { apply (bool_decide_unpack _). vm_compute. exact I. }
  assert (owns m owners) as Hown.
  { apply Forall_singleton. reflexivity. }
  destruct (add_server_keeps_ownership m owners (mkSERVER "B" 0 UNDEFINED_EVENT 0 [])
              Hnd Hown) as (H1 & H2 & _).
  destruct (add_server_keeps_ownership m owners (mkSERVER "A" 0 UNDEFINED_EVENT 0 [])
              Hnd Hown) as (_ & _ & _ & _ & H5).
  split; [exact H1|]. split; [exact H2|]. exact (proj1 (H5 eq_refl)).
Defined.

Lemma remove_all_servers_releases_witness :
  let m := sample_monitor [sample_server "A" 0] in
  let owners : gmap string string :=
    {[ "A"%string := "Monitor"%string; "C"%string := "Other"%string ]} in
  let a := add_server m owners (mkSERVER "B" 0 UNDEFINED_EVENT 0 []) in
  a.1.1.1 = true
  ∧ (remove_all_servers a.1.1.2 a.1.2).1.2 = (remove_all_servers m owners).1.2
  ∧ (remove_all_servers m owners).1.2 !! "A"%string = None
  ∧ (remove_all_servers m owners).1.2 !! "C"%string = Some "Other"%string.
Proof.
  intros m owners a.
  assert (NoDup (server_names (m_servers m))) as Hnd.
  { apply (bool_decide_unpack _). vm_compute. exact I. }
  assert (owns m owners) as Hown.
  { apply Forall_singleton. reflexivity. }
  destruct (remove_all_servers_releases m owners) as (_ & _ & H3 & H4 & H5).
  destruct (H5 (mkSERVER "B" 0 UNDEFINED_EVENT 0 []) Hnd Hown eq_refl) as (Ha & Hb & _).
  split; [exact Ha|]. split; [exact Hb|].
  split.
  - apply H3. apply list_elem_of_In. simpl. tauto.
  - rewrite H4; [reflexivity|].
    intros Hin. apply list_elem_of_In in Hin. simpl in Hin. destruct Hin as [Heq|[]].
    discriminate Heq.
Defined.

Lemma deactivate_frees_servers_witness :
  let A := sample_server "A" 0 in
  let m := sample_running_monitor [A] in
  let owners : gmap string string := {[ "A"%string := "Monitor"%string ]} in
  m_state (deactivate m owners).1.1 = MONITOR_STATE_STOPPED
  ∧ (add_server (sample_monitor []) (deactivate m owners).1.2 (server A)).1.1.1 = true.
Proof.
  intros A m owners.
  destruct (deactivate_frees_servers m (sample_monitor []) owners A) as (H1 & _ & H3).
  { apply list_elem_of_In. simpl. tauto. }
  split; [exact H1|exact H3].
Defined.

(** ** The journal read path on foreign, damaged and oversized files *)

Lemma apply_server_frame n st s :
  length (apply_server n st s) = length s
  ∧ (journal_name <$> apply_server n st s) = (journal_name <$> s)
  ∧ (∀ i d, s !! i = Some d → journal_name d ≠ n → apply_server n st s !! i = Some d)
  ∧ (n ∉ journal_name <$> s → apply_server n st s = s).
Proof.
  induction s as [|d0 rest (IHl & IHn & IHi & IHs)]; [done|].
  cbn [apply_server]. fold (journal_name d0). case_bool_decide as Hn.
  - repeat split; try done.
    + intros [|i] d Hi Hne; simpl in *; [|done]. inversion Hi; subst. done.
    + intros Hnot. exfalso. apply Hnot. rewrite fmap_cons, Hn. left.
  - rewrite !fmap_cons, IHn. cbn [length]. rewrite IHl. repeat split; try done.
    + intros [|i] d Hi Hne; simpl in *; [done|]. by apply IHi.
    + intros Hnot. f_equal. apply IHs. intros Hin. apply Hnot. by right.
Qed.

Lemma find_server_foreign n s idx : n ∉ journal_name <$> s → find_server n s idx = None.
Proof.
  revert idx. induction s as [|d0 rest IH]; intros idx Hnot; [done|].
  cbn [find_server]. fold (journal_name d0). case_bool_decide as Hn.
  - exfalso. apply Hnot. rewrite fmap_cons, Hn. left.
  - apply IH. intros Hin. apply Hnot. rewrite fmap_cons. by right.
Qed.

Lemma apply_entries_frame es s master :
  let r := apply_entries (s, master) es in
  (journal_name <$> r.1) = (journal_name <$> s)
  ∧ (∀ i d, s !! i = Some d → journal_name d ∉ entry_name <$> es → r.1 !! i = Some d)
  ∧ ((∀ e, e ∈ es → entry_name e ∉ journal_name <$> s) → r = (s, master)).
Proof.
  revert s master. induction es as [|e es IH]; intros s master; [done|].
  rewrite apply_entries_cons. cbv zeta.
  destruct (IH (apply_entry (s, master) e).1 (apply_entry (s, master) e).2)
    as (IHn & IHi & IHs).
  cbv zeta in IHn, IHi, IHs.
  destruct (apply_entry (s, master) e) as [s1 m1] eqn:He. simpl in *.
  assert ((journal_name <$> s1) = (journal_name <$> s)
          ∧ (∀ i d, s !! i = Some d → journal_name d ≠ entry_name e → s1 !! i = Some d)
          ∧ (entry_name e ∉ journal_name <$> s → (s1, m1) = (s, master))) as (H1 & H2 & H3).
  { destruct e as [n st|n]; simpl in He; inversion He; subst; simpl.
    - destruct (apply_server_frame n st s) as (_ & Hn & Hi & Hs).
      repeat split; try done. intros Hnot. by rewrite Hs.
    - repeat split; try done. intros Hnot. by rewrite find_server_foreign. }
  split; [by rewrite IHn|]. split.
  - intros i d Hi Hnot. apply IHi.
    + apply H2; [done|]. intros Heq. apply Hnot. rewrite Heq. left.
    + intros Hin. apply Hnot. by right.
  - intros Hall. rewrite IHs.
    + apply H3. apply Hall. left.
    + intros e' He'. rewrite H1. apply Hall. by right.
Qed.

(** A well-formed journal is loaded whoever wrote it, and the load touches
    only the servers it names: the monitor keeps its servers in place, a
    server that no entry names is left exactly as it is, and when no entry
    names a server of the monitor nothing changes at all (and the notice
    is logged all the same). *)
Theorem load_server_journal_touches_named_servers (s0 : list MonitorServer)
    (master : option nat) (es : list journal_entry) :
  Forall entry_ok es →
  Z.of_nat (length (encode_entries es)) + 9 < 2 ^ 32 →
  ∃ s' master',
    load_server_journal s0 master (Some (journal_record (encode_entries es)))
      = Some (s', master', [NOTICE_loaded_journal])
    ∧ (journal_name <$> s') = (journal_name <$> s0)
    ∧ (∀ i d, s0 !! i = Some d → journal_name d ∉ entry_name <$> es → s' !! i = Some d)
    ∧ ((∀ e, e ∈ es → entry_name e ∉ journal_name <$> s0) → s' = s0 ∧ master' = master).
Proof.
  intros Hok Hlt.
  exists (apply_entries (s0, master) es).1, (apply_entries (s0, master) es).2.
  destruct (apply_entries_frame es s0 master) as (Hn & Hi & Hs). cbv zeta in Hn, Hi, Hs.
  split; [|split; [done|split; [done|]]].
  - rewrite (load_journal_record _ _ _ Hlt).
    rewrite (process_data_file_entries es s0 master _ 1 (1 + length (encode_entries es))
               (mxs_set_byte4 (crc32 0 ([MMB_SCHEMA_VERSION] ++ encode_entries es))));
      [|done|done|lia].
    rewrite process_data_file_unfold. rewrite bool_decide_eq_false_2 by lia. done.
  - intros Hall. rewrite (Hs Hall). done.
Qed.

Lemma load_server_journal_touches_named_servers_witness :
  let s0 := [sample_server "A" 0] in
  let es := [SERVER_ENTRY (name_bytes "B") 9; MASTER_ENTRY (name_bytes "B")] in
  load_server_journal s0 None (Some (journal_record (encode_entries es)))
  = Some (s0, None, [NOTICE_loaded_journal]).
Proof.
  intros s0 es.
  assert (Forall entry_ok es) as Hok.
  { repeat constructor; try apply name_bytes_no_nul; lia. }
  destruct (load_server_journal_touches_named_servers s0 None es Hok)
    as (s' & master' & Hload & _ & _ & Hsame).
  { vm_compute. reflexivity. }
  destruct Hsame as [-> ->]; [|exact Hload].
  intros e He. apply list_elem_of_In in He. simpl in He.
  destruct He as [<-|[<-|[]]]; vm_compute; intros Hin; apply list_elem_of_In in Hin;
    simpl in Hin; destruct Hin as [Heq|[]]; discriminate Heq.
Defined.

(** The load looks at the four bytes of the length and at as many bytes as
    the length says, and at nothing behind them: bytes that follow the
    record in the file make no difference. *)
Theorem load_server_journal_ignores_trailing_bytes (servers : list MonitorServer)
    (master : option nat) (contents : list byte) :
  load_server_journal servers master (Some contents) =
  load_server_journal servers master
    (Some (take (4 + Z.to_nat (get_byteN (take 4 contents))) contents)).
Proof.
  unfold load_server_journal. change (Z.to_nat MMB_LEN_BYTES) with 4%nat.
  set (size := get_byteN (take 4 contents)).
  assert (take 4 (take (4 + Z.to_nat size) contents) = take 4 contents) as ->
    by (rewrite take_take; f_equal; lia).
  fold size.
  assert (take (Z.to_nat size) (drop 4 (take (4 + Z.to_nat size) contents))
          = take (Z.to_nat size) (drop 4 contents)) as ->.
  { rewrite <- take_drop_commute, take_take. f_equal. lia. }
  done.
Qed.

(** A file that ends before its time changes nothing and costs one error
    line: with fewer than four bytes the length cannot be read, with fewer
    bytes behind the length than it announces the record cannot be read.
    A file that is not there is no error. *)
Theorem load_server_journal_truncated (servers : list MonitorServer)
    (master : option nat) (contents : list byte) :
  load_server_journal servers master None = Some (servers, master, [])
  ∧ ((length contents < 4)%nat →
     load_server_journal servers master (Some contents)
       = Some (servers, master, [ERROR_read_journal_length (length contents)]))
  ∧ ((4 ≤ length contents)%nat →
     Z.of_nat (length contents - 4) < get_byteN (take 4 contents) →
     load_server_journal servers master (Some contents)
       = Some (servers, master,
               [ERROR_read_journal (get_byteN (take 4 contents)) (length contents - 4)])).
Proof.
  split; [done|]. unfold load_server_journal. change (Z.to_nat MMB_LEN_BYTES) with 4%nat.
  unfold MMB_LEN_BYTES. split.
  - intros Hlen. rewrite take_ge by lia.
    rewrite bool_decide_eq_false_2 by lia. done.
  - intros Hlen Hsize. rewrite length_take, Nat.min_l by done.
    rewrite bool_decide_eq_true_2 by done.
    set (size := get_byteN (take 4 contents)) in *.
    assert (take (Z.to_nat size) (drop 4 contents) = drop 4 contents) as ->
      by (apply take_ge; rewrite length_drop; lia).
    rewrite length_drop. rewrite bool_decide_eq_false_2 by lia. done.
Qed.

Lemma load_server_journal_truncated_witness :
  let record := journal_record (encode_entries [SERVER_ENTRY (name_bytes "A") 9]) in
  load_server_journal [sample_server "A" 0] None (Some (take 12 record))
  = Some ([sample_server "A" 0], None, [ERROR_read_journal 16 8]).
Proof.
  intros record.
  destruct (load_server_journal_truncated [sample_server "A" 0] None (take 12 record))
    as (_ & _ & H3).
  apply H3; [vm_compute; lia|vm_compute; reflexivity].
Defined.

(** A record that announces fewer than four bytes sends the load out of
    the buffer: with no byte at all the version is read from an empty
    allocation, and with one to three bytes, the first being the schema
    version, the position of the checksum lies before the buffer and the
    length handed to [crc32] wraps around. The model has no result there
    (undefined behaviour). With another first byte the version error is
    logged. *)
Theorem load_server_journal_tiny_record (servers : list MonitorServer)
    (master : option nat) (size : Z) (data rest : list byte) :
  0 ≤ size < 4 →
  length data = Z.to_nat size →
  (head data = None ∨ head data = Some MMB_SCHEMA_VERSION) →
  load_server_journal servers master (Some (mxs_set_byte4 size ++ data ++ rest)) = None.
Proof.
  intros Hsize Hlen Hhead. unfold load_server_journal.
  change (Z.to_nat MMB_LEN_BYTES) with (length (mxs_set_byte4 size)).
  rewrite take_app_length, drop_app_length, length_set_byte4.
  rewrite bool_decide_eq_true_2 by done.
  rewrite get_set_byte4 by lia.
  rewrite <- Hlen, take_app_length. rewrite bool_decide_eq_true_2 by lia.
  destruct data as [|v data']; [done|]. simpl.
  destruct Hhead as [Hh|Hh]; [done|]. simpl in Hh. inversion Hh; subst v.
  rewrite bool_decide_eq_true_2 by done.
  rewrite bool_decide_eq_true_2 by (unfold MMB_LEN_CRC32; lia). done.
Qed.

Lemma load_server_journal_tiny_record_witness :
  load_server_journal [sample_server "A" 0] None (Some [x01; x00; x00; x00; x02]) = None.
Proof.
  apply (load_server_journal_tiny_record [sample_server "A" 0] None 1 [x02] []).
  - lia.
  - reflexivity.
  - right. reflexivity.
Defined.



(** ** When a tick is defined *)

Section TickDefined.
Context `{HB : ServerBits} {Hok : ServerBitsOk HB}.
Context (SHA1 : list byte → list byte).
Context (is_usable is_in_cluster : SERVER → bool).
Context (update_server_status : option nat → nat → MonitorServer → Z * option nat).

Lemma info_find_elem info path san :
  info_find info path = Some san → ∃ p, (p, san) ∈ info.
Proof.
  unfold info_find. destruct (list_find _ info) as [[i [p s]]|] eqn:Hf; [|done].
  simpl. intros Heq. inversion Heq; subst. apply list_find_Some in Hf as (Hi & _).
  exists p. by eapply list_elem_of_lookup_2.
Qed.

Lemma check_disk_space_exhausted_defined pMs path san max :
  is_Some (used_percentage san) →
  is_Some (check_disk_space_exhausted pMs path san max).
Proof. intros [p Hp]. unfold check_disk_space_exhausted. rewrite Hp. simpl. eauto. Qed.

Lemma check_limits_defined pMs info dst st :
  (∀ p san, (p, san) ∈ info → is_Some (used_percentage san)) →
  is_Some (check_limits pMs info dst st).
Proof.
  intros Hinfo. revert st. induction dst as [|[path max] rest IH]; intros st.
  - simpl. eauto.
  - simpl. case_bool_decide; [apply IH|].
    destruct (info_find info path) as [san|] eqn:Hf; [|apply IH].
    apply info_find_elem in Hf as (p & Hp).
    destruct (check_disk_space_exhausted_defined pMs path san max (Hinfo _ _ Hp)) as [r ->].
    simpl. apply IH.
Qed.

Lemma check_star_defined pMs info st :
  (∀ p san, (p, san) ∈ info → is_Some (used_percentage san)) →
  is_Some (check_star pMs info st).
Proof.
  revert st. induction info as [|[path san] rest IH]; intros st Hinfo.
  - simpl. eauto.
  - simpl.
    assert (∀ p s, (p, s) ∈ rest → is_Some (used_percentage s)) as Hrest
      by (intros p s Hin; apply (Hinfo p s); by right).
    case_bool_decide; [|by apply IH].
    destruct (check_disk_space_exhausted_defined pMs path san (star_max_percentage st)
                (Hinfo path san ltac:(left))) as [r ->].
    simpl. by apply IH.
Qed.

Lemma update_disk_space_status_defined pMs rv :
  (∀ info p san, rv = INFO_OK info → (p, san) ∈ info → is_Some (used_percentage san)) →
  is_Some (update_disk_space_status pMs rv).
Proof.
  intros Hinfo. unfold update_disk_space_status. destruct rv as [info|errno]; [|eauto].
  assert (∀ p san, (p, san) ∈ info → is_Some (used_percentage san)) as Hi
    by (intros p san; by apply Hinfo).
  destruct (check_limits_defined pMs info
              (if bool_decide (disk_space_limits (server pMs) = [])
               then monitor_limits pMs else disk_space_limits (server pMs))
              (mkDiskCheckState false (-1) ∅ []) Hi) as [st ->].
  simpl. case_bool_decide.
  - destruct (check_star_defined pMs info st Hi) as [st' ->]. simpl. eauto.
  - simpl. eauto.
Qed.

Lemma tick_server_defined env master idx d :
  (check_disk_space_this_tick env = true →
   ∀ info p san, get_info_by_path env (name (server d)) = INFO_OK info →
                 (p, san) ∈ info → is_Some (used_percentage san)) →
  is_Some (tick_server update_server_status env master idx d).
Proof.
  intros Hdisk. unfold tick_server. destruct (negb (is_in_maint (server d))); [|eauto].
  destruct d as [srv prev pend cnt req ok lim].
  cbn [server mon_prev_status pending_status mon_err_count status_request
       ok_to_check_disk_space monitor_limits with_prev_status with_pending_status] in *.
  destruct (ping_or_connect env (name srv)) as [rval errno].
  destruct (connection_is_ok rval).
  - destruct (check_disk_space_this_tick env) eqn:Hc; cbn [andb].
    + match goal with
      | |- context [if ?c then update_disk_space_status ?p ?rv else _] =>
          destruct c;
          [destruct (update_disk_space_status_defined p rv) as [[p' dlog] ->];
           [intros info pth san Hrv; by apply (Hdisk eq_refl info pth san)|]|]
      end.
      * cbn [mbind option_bind fst snd].
        destruct (update_server_status master idx p') as [pending master'].
        cbn [mbind option_bind]. eauto.
      * cbn [mbind option_bind fst snd].
        destruct (update_server_status master idx _) as [pending master'].
        cbn [mbind option_bind]. eauto.
    + cbn [mbind option_bind fst snd].
      destruct (update_server_status master idx _) as [pending master'].
      cbn [mbind option_bind]. eauto.
  - cbn [mbind option_bind]. eauto.
Qed.

Lemma tick_servers_defined env master idx servers :
  (check_disk_space_this_tick env = true →
   ∀ srv info p san, get_info_by_path env srv = INFO_OK info →
                     (p, san) ∈ info → is_Some (used_percentage san)) →
  is_Some (tick_servers update_server_status env master idx servers).
Proof.
  intros Hdisk. revert master idx. induction servers as [|d rest IH]; intros master idx.
  - simpl. eauto.
  - simpl.
    destruct (tick_server_defined env master idx d) as [r1 ->].
    { intros Hc info p san. by apply Hdisk. }
    simpl. destruct (IH r1.1.2 (S idx)) as [r2 ->]. simpl. eauto.
Qed.

Lemma tick_servers_names env master idx servers r :
  tick_servers update_server_status env master idx servers = Some r →
  server_names r.1.1 = server_names servers.
Proof.
  revert master idx r. induction servers as [|d rest IH]; intros master idx r Hrun.
  - simpl in Hrun. by inversion Hrun.
  - simpl in Hrun.
    destruct (tick_server update_server_status env master idx d) as [r1|] eqn:Hr1; [|done].
    simpl in Hrun.
    destruct (tick_servers update_server_status env r1.1.2 (S idx) rest) as [r2|] eqn:Hr2;
      [|done].
    simpl in Hrun. inversion Hrun; subst. simpl.
    apply tick_server_frame in Hr1 as (Hsrv & _). rewrite Hsrv. f_equal. by eapply IH.
Qed.

Lemma flush_server_status_names servers :
  server_names (flush_server_status servers) = server_names servers.
Proof.
  unfold server_names, flush_server_status. rewrite <- list_fmap_compose.
  apply list_fmap_ext. intros i d _. simpl. by destruct (negb _).
Qed.

Lemma detect_loop_names settings clock st servers :
  server_names (detect_loop settings clock st servers).1 = server_names servers.
Proof.
  revert st. induction servers as [|d0 rest IH]; intros st; [done|].
  simpl.
  pose proof (detect_server_frame settings clock st d0) as (Hn & _). cbv zeta in Hn.
  destruct (detect_server settings clock st d0) as [d0' st'].
  specialize (IH st'). destruct (detect_loop settings clock st' rest) as [rest' st''].
  simpl in *. by rewrite Hn, IH.
Qed.

Lemma check_maintenance_requests_names m :
  server_names (m_servers (check_maintenance_requests m)) = server_names (m_servers m).
Proof.
  unfold check_maintenance_requests. destruct (m_status_change_pending m); [|done].
  simpl. unfold server_names. rewrite <- list_fmap_compose.
  apply list_fmap_ext. intros i d _. simpl.
  unfold apply_status_request. by destruct (status_request d).
Qed.

Lemma journal_sum_names servers tail :
  foldr (λ db acc, MMB_LEN_VALUE_TYPE + Z.of_nat (length (name_bytes (name (server db))))
                   + 1 + MMB_LEN_SERVER_STATUS + acc) tail servers
  = names_size (server_names servers) + tail.
Proof.
  induction servers as [|d rest IH]; [done|].
  cbn [foldr server_names fmap list_fmap names_size]. fold (server_names rest).
  fold (names_size (server_names rest)).
  rewrite IH. unfold MMB_LEN_VALUE_TYPE, MMB_LEN_SERVER_STATUS. lia.
Qed.

Lemma names_size_elem names n :
  n ∈ names → 0 ≤ names_size names ∧ Z.of_nat (length (name_bytes n)) + 10 ≤ names_size names.
Proof.
  induction names as [|n0 rest IH]; intros Hin; [by apply not_elem_of_nil in Hin|].
  assert (0 ≤ names_size rest) as Hpos.
  { clear. induction rest as [|x r IHr]; simpl; lia. }
  cbn [names_size foldr]. fold (names_size rest).
  apply elem_of_cons in Hin as [->|Hin]; [lia|].
  destruct (IH Hin). lia.
Qed.

Lemma names_size_nonneg names : 0 ≤ names_size names.
Proof. induction names as [|x r IHr]; simpl; [done|]. fold (names_size r). lia. Qed.

(** With room for the journal the write path is defined: the buffer is
    filled exactly, as the assertion at the end of [store_data] says. *)
Lemma store_server_journal_defined m master file io :
  (∀ db, master = Some db → db ∈ m_servers m) →
  2 * names_size (server_names (m_servers m)) + 9 < 2 ^ 32 →
  is_Some (store_server_journal SHA1 m master file io)
  ∧ Z.of_nat (length (store_data (m_servers m) master (journal_size (m_servers m) master)))
    = journal_size (m_servers m) master + MMB_LEN_BYTES.
Proof.
  intros Hm Hlt.
  assert (MMB_LEN_BYTES + MMB_LEN_SCHEMA_VERSION
          + Z.of_nat (length (encode_entries (snapshot_entries (m_servers m) master)))
          + MMB_LEN_CRC32 < 2 ^ 32) as Hfit.
  { rewrite length_journal_entries, journal_sum_names.
    pose proof (names_size_nonneg (server_names (m_servers m))) as Hpos.
    unfold MMB_LEN_BYTES, MMB_LEN_SCHEMA_VERSION, MMB_LEN_CRC32, MMB_LEN_VALUE_TYPE.
    destruct master as [db|]; [|lia].
    assert (name (server db) ∈ server_names (m_servers m)) as Hin.
    { unfold server_names. apply list_elem_of_fmap. exists db. split; [done|]. by apply Hm. }
    apply names_size_elem in Hin as (_ & Hle). lia. }
  assert (Z.of_nat (length (store_data (m_servers m) master
                              (journal_size (m_servers m) master)))
          = journal_size (m_servers m) master + MMB_LEN_BYTES) as Hlen.
  { rewrite (store_data_record _ _ Hfit), (journal_size_exact _ _ Hfit),
      length_journal_record.
    unfold MMB_LEN_BYTES, MMB_LEN_SCHEMA_VERSION, MMB_LEN_CRC32. lia. }
  split; [|done]. unfold store_server_journal.
  rewrite bool_decide_eq_true_2.
  - case_bool_decide; [destruct io|]; eauto.
  - rewrite Hlen, (journal_size_exact _ _ Hfit). rewrite Z.mod_small; [done|].
    unfold MMB_LEN_BYTES, MMB_LEN_SCHEMA_VERSION, MMB_LEN_CRC32 in *. lia.
Qed.

(** A tick has a result whenever the sizes are sane: every disk usage that
    is looked at gives a percentage that fits [int32_t] (nothing to ask
    when the disks are not checked in this tick), and the journal of the
    servers fits the [uint32_t] that holds its length. *)
Theorem tick_defined (m : Monitor) (env : TickEnv) (file : option (list byte)) :
  (check_disk_space_this_tick env = true →
   ∀ srv info p san, get_info_by_path env srv = INFO_OK info →
                     (p, san) ∈ info → is_Some (used_percentage san)) →
  2 * names_size (server_names (m_servers m)) + 9 < 2 ^ 32 →
  ∃ r, tick SHA1 is_usable is_in_cluster update_server_status m env file = Some r.
Proof.
  intros Hdisk Hfit. unfold tick.
  pose proof (check_maintenance_requests_names m) as Hn0.
  set (m1 := check_maintenance_requests m) in *.
  destruct (tick_servers_defined env (m_master m1) 0 (m_servers m1) Hdisk)
    as [[[servers master] log1] Hts].
  rewrite Hts. cbn [mbind option_bind].
  pose proof (tick_servers_names _ _ _ _ _ Hts) as Hn1. simpl in Hn1.
  pose proof (flush_server_status_names servers) as Hn2.
  unfold detect_handle_state_changes.
  pose proof (detect_loop_names (m_settings m1) (mxs_clock env)
                (mkDetectState false false []) (flush_server_status servers)) as Hn3.
  destruct (detect_loop (m_settings m1) (mxs_clock env) _ (flush_server_status servers))
    as [servers2 st2].
  simpl in Hn3.
  destruct (store_server_journal_defined
              (with_master (with_servers m1 servers2) master)
              (master ≫= λ i, servers2 !! i) file (journal_io env)) as [[j Hj] _].
  - intros db Hdb. simpl. destruct master as [i|]; [|done]. simpl in Hdb.
    by eapply list_elem_of_lookup_2.
  - simpl. by rewrite Hn3, Hn2, Hn1, Hn0.
  - rewrite Hj. destruct j as [[m' file'] log4]. simpl. eauto.
Qed.
End TickDefined.

Lemma tick_defined_witness :
  let B := sample_bits in
  let m := sample_running_monitor [sample_server "A" 0; sample_server "B" 0] in
  ∃ r, tick sample_digest (λ _, true) (λ _, true) sample_update m sample_env_refused None
       = Some r.
Proof.
  intros B m.
  apply (@tick_defined B sample_digest (λ _, true) (λ _, true) sample_update m
           sample_env_refused None).
  - intros Hc. discriminate Hc.
  - vm_compute. reflexivity.
Defined.

(** ** The state change pass as a whole *)

Section DetectTheorems.
Context `{HB : ServerBits}.

Lemma detect_loop_closed settings clock st servers :
  let per ptr :=
    if changed ptr then
      NOTICE_state_change (name (server ptr)) (event_of ptr) (mon_prev_status ptr)
        (status (server ptr))
      :: (if negb (bool_decide (script settings = "")) && events settings (event_of ptr)
          then [LAUNCH_SCRIPT (name (server ptr)) (event_of ptr)] else [])
    else [] in
  (detect_loop settings clock st servers).2 =
  mkDetectState
    (master_down st
     || existsb (λ p, changed p && bool_decide (event_of p = MASTER_DOWN_EVENT)) servers)
    (master_up st
     || existsb (λ p, changed p
                      && bool_decide (event_of p = MASTER_UP_EVENT
                                      ∨ event_of p = NEW_MASTER_EVENT)) servers)
    (detect_log st ++ concat (per <$> servers)).
Proof.
  intros per. revert st. induction servers as [|d rest IH]; intros st.
  - simpl. rewrite !orb_false_r, app_nil_r. by destruct st.
  - cbn [detect_loop].
    destruct (detect_server settings clock st d) as [d' st'] eqn:Hd.
    specialize (IH st').
    destruct (detect_loop settings clock st' rest) as [rest' st'']. simpl in IH |- *.
    rewrite IH. clear IH. unfold detect_server in Hd. unfold per at 2.
    fold (changed d) (event_of d) in Hd. fold (changed d) (event_of d).
    destruct (changed d); simpl.
    + inversion Hd; subst; clear Hd. simpl.
      f_equal.
      * case_bool_decide; simpl; [by rewrite orb_true_r|done].
      * case_bool_decide as Hdown; simpl.
        -- rewrite bool_decide_eq_false_2; [done|]. rewrite Hdown. intros [?|?]; done.
        -- case_bool_decide; simpl; [by rewrite orb_true_r|done].
      * by rewrite <- !app_assoc.
    + by inversion Hd; subst.
Qed.

(** The state change pass in one piece: it logs one state change line for
    each server that counts as changed, in the order of the servers, with
    the event of the classifier; it launches the script for those of them
    whose event is selected, if a script is configured, and for no other;
    and it reports a master switch exactly when one changed server has
    [MASTER_DOWN_EVENT] and one has [MASTER_UP_EVENT] or
    [NEW_MASTER_EVENT]. It changes no status. *)
Theorem detect_handle_state_changes_report (settings : Settings) (clock : Z)
    (servers : list MonitorServer) :
  let r := detect_handle_state_changes settings clock servers in
  state_changes r.2
    = (λ p, (name (server p), event_of p)) <$> filter (λ p, changed p = true) servers
  ∧ launches r.2
    = (if bool_decide (script settings = "") then []
       else (λ p, (name (server p), event_of p))
              <$> filter (λ p, changed p = true ∧ events settings (event_of p) = true)
                    servers)
  ∧ (NOTICE_master_switch ∈ r.2 ↔
     (∃ p, p ∈ servers ∧ changed p = true ∧ event_of p = MASTER_DOWN_EVENT)
     ∧ (∃ p, p ∈ servers ∧ changed p = true
             ∧ (event_of p = MASTER_UP_EVENT ∨ event_of p = NEW_MASTER_EVENT)))
  ∧ (status ∘ server <$> r.1) = (status ∘ server <$> servers)
  ∧ (mon_prev_status <$> r.1) = (mon_prev_status <$> servers).
Proof.
  intros r. subst r. unfold detect_handle_state_changes.
  pose proof (detect_loop_closed settings clock (mkDetectState false false []) servers)
    as Hc. cbv zeta in Hc.
  assert (∀ st, (status ∘ server <$> (detect_loop settings clock st servers).1)
                = (status ∘ server <$> servers)
                ∧ (mon_prev_status <$> (detect_loop settings clock st servers).1)
                  = (mon_prev_status <$> servers)) as Hframe.
  { clear. induction servers as [|d rest IH]; intros st; [done|].
    cbn [detect_loop].
    pose proof (detect_server_frame settings clock st d) as (_ & Hs & _ & Hp & _).
    cbv zeta in Hs, Hp.
    destruct (detect_server settings clock st d) as [d' st'].
    destruct (IH st') as [IH1 IH2].
    destruct (detect_loop settings clock st' rest) as [rest' st''].
    cbn [fst snd] in *. rewrite !fmap_cons. cbn [compose] in *.
    by rewrite Hs, Hp, IH1, IH2. }
  destruct (Hframe (mkDetectState false false [])) as [Hf1 Hf2].
  destruct (detect_loop settings clock _ servers) as [servers' st]. simpl in *.
  subst st. simpl.
  set (per := λ ptr, if changed ptr then _ else _).
  assert (∀ l, state_changes (concat (per <$> l))
               = (λ p, (name (server p), event_of p)) <$> filter (λ p, changed p = true) l)
    as Hsc.
  { induction l as [|d rest IH]; [done|].
    rewrite fmap_cons, concat_cons, filter_cons.
    unfold state_changes in *. rewrite omap_app, IH. unfold per at 1.
    destruct (changed d); simpl; [|done].
    by destruct (negb _ && _). }
  assert (∀ l, launches (concat (per <$> l))
               = (if bool_decide (script settings = "") then []
                  else (λ p, (name (server p), event_of p))
                         <$> filter (λ p, changed p = true
                                          ∧ events settings (event_of p) = true) l))
    as Hla.
  { induction l as [|d rest IH]; [by case_bool_decide|].
    rewrite fmap_cons, concat_cons, filter_cons.
    unfold launches in *. rewrite omap_app, IH. unfold per at 1.
    destruct (changed d) eqn:Hch.
    - destruct (bool_decide (script settings = "")); simpl.
      + done.
      + destruct (events settings (event_of d)) eqn:He; simpl.
        * try rewrite decide_True by done. done.
        * try rewrite decide_False by (intros [? ?]; done). done.
    - simpl. case_bool_decide; [done|].
      try rewrite decide_False by (intros [? ?]; done). done. }
  split; [|split; [|split; [|done]]].
  - unfold state_changes in *. rewrite omap_app, Hsc.
    destruct (_ && _); simpl; by rewrite app_nil_r.
  - unfold launches in *. rewrite omap_app, Hla.
    destruct (_ && _); simpl; by rewrite app_nil_r.
  - assert (NOTICE_master_switch ∉ concat (per <$> servers)) as Hnot.
    { clear. induction servers as [|d rest IH]; [apply not_elem_of_nil|].
      rewrite fmap_cons, concat_cons. intros Hin.
      apply elem_of_app in Hin as [Hin|Hin]; [|done]. unfold per in Hin.
      destruct (changed d); [|by apply not_elem_of_nil in Hin].
      apply elem_of_cons in Hin as [?|Hin]; [done|].
      destruct (_ && _); [|by apply not_elem_of_nil in Hin].
      apply list_elem_of_singleton in Hin. done. }
    rewrite elem_of_app.
    assert (∀ P : MonitorServer → bool,
              existsb P servers = true ↔ ∃ p, p ∈ servers ∧ P p = true) as Hex.
    { intros P. rewrite existsb_exists. split; intros (p & Hp & HP); exists p;
        (split; [by apply list_elem_of_In|done]). }
    split.
    + intros [Hin|Hin]; [done|].
      destruct (existsb _ servers) eqn:E1; [|by apply not_elem_of_nil in Hin].
      destruct (existsb _ servers) eqn:E2 in Hin; [|by apply not_elem_of_nil in Hin].
      apply Hex in E1 as (p1 & Hp1 & HP1). apply Hex in E2 as (p2 & Hp2 & HP2).
      apply andb_true_iff in HP1 as [Hc1 He1]. apply andb_true_iff in HP2 as [Hc2 He2].
      apply bool_decide_eq_true in He1, He2.
      split; [by exists p1|by exists p2].
    + intros [(p1 & Hp1 & Hc1 & He1) (p2 & Hp2 & Hc2 & He2)]. right.
      rewrite (proj2 (Hex _)).
      2:{ exists p1. split; [done|]. rewrite Hc1. by apply bool_decide_eq_true. }
      rewrite (proj2 (Hex _)).
      2:{ exists p2. split; [done|]. rewrite Hc2. by apply bool_decide_eq_true. }
      left.
Qed.
End DetectTheorems.

(** ** The worker's timer *)

Section WorkerTheorems.
Context `{HB : ServerBits} {Hok : ServerBitsOk HB}.
Context (SHA1 : list byte → list byte).
Context (is_usable is_in_cluster : SERVER → bool).
Context (update_server_status : option nat → nat → MonitorServer → Z * option nat).

Lemma int64_sub_small a b :
  0 ≤ a < 2 ^ 62 → 0 ≤ b < 2 ^ 62 → int64_sub a b = Some (a - b).
Proof.
  intros Ha Hb. unfold int64_sub. cbv zeta.
  rewrite (proj2 (Z.leb_le _ _)) by lia. rewrite (proj2 (Z.ltb_lt _ _)) by lia. done.
Qed.

Lemma next_delay_range ms :
  1 ≤ (if (ms <=? 0) || (100 <=? ms) then 100 else ms) ≤ 100.
Proof.
  destruct (Z.leb_spec ms 0); simpl; [lia|].
  destruct (Z.leb_spec 100 ms); lia.
Qed.

(** Whenever the timer call runs to its end it arms the next call, no
    sooner than in 1 and no later than in 100 milliseconds; a cancelled
    call arms nothing and changes nothing, so the chain of calls ends
    there. *)
Theorem call_run_one_tick_delay (m : Monitor) (m_loop_called interval : Z)
    (action : action_t) (now1 now2 : Z) (immediate : bool) (env : TickEnv)
    (file : option (list byte)) (wc : worker_call) :
  call_run_one_tick SHA1 is_usable is_in_cluster update_server_status m m_loop_called
    interval action now1 now2 immediate env file = Some wc →
  match action with
  | EXECUTE => ∃ delay, wc_next_call wc = Some delay ∧ 1 ≤ delay ≤ 100
  | CANCEL => wc = mkWorkerCall m file [] m_loop_called None
  end.
Proof.
  unfold call_run_one_tick. destruct action; [|intros Heq; by inversion Heq].
  destruct (int64_sub now1 m_loop_called) as [elapsed|]; [|done]. cbn [mbind option_bind].
  match goal with
  | |- context [if ?c then ?a else ?b] =>
      destruct (if c then a else b) as [[[r loop_called] now]|]; [|done]
  end.
  cbn [mbind option_bind].
  destruct (int64_sub now loop_called) as [since|]; [|done]. cbn [mbind option_bind].
  destruct (int64_sub interval since) as [ms|]; [|done]. cbn [mbind option_bind].
  intros Heq. inversion Heq; subst. simpl. eexists. split; [done|].
  apply next_delay_range.
Qed.

(** With no request waiting and the interval not yet over, the timer call
    leaves the monitor alone: no tick is run, nothing is logged, and the
    next call is armed for the rest of the interval, but for 100
    milliseconds at most (and for 100 when no time is left). *)
Theorem call_run_one_tick_idle (m : Monitor) (m_loop_called interval now1 now2 : Z)
    (env : TickEnv) (file : option (list byte)) :
  0 ≤ m_loop_called ≤ now1 →
  now1 < 2 ^ 62 →
  0 ≤ interval < 2 ^ 62 →
  now1 - m_loop_called ≤ interval →
  m_status_change_pending m = false →
  let rest := interval - (now1 - m_loop_called) in
  call_run_one_tick SHA1 is_usable is_in_cluster update_server_status m m_loop_called
    interval EXECUTE now1 now2 false env file
  = Some (mkWorkerCall m file [] m_loop_called
            (Some (if (rest =? 0) || (100 <=? rest) then 100 else rest))).
Proof.
  intros Hloop Hnow Hint Hel Hpend rest. unfold call_run_one_tick.
  rewrite int64_sub_small by lia. cbn [mbind option_bind].
  unfold server_status_request_waiting. rewrite Hpend.
  rewrite (proj2 (Z.ltb_ge _ _)) by lia. cbn [orb mbind option_bind].
  rewrite int64_sub_small by lia. cbn [mbind option_bind].
  rewrite int64_sub_small by lia. cbn [mbind option_bind].
  fold rest. simpl. do 3 f_equal.
  destruct (Z.eqb_spec rest 0) as [->|Hne]; [done|].
  rewrite (proj2 (Z.leb_gt _ _)) by (unfold rest in *; lia). done.
Qed.

(** A waiting admin request makes the timer call run a tick at once,
    however little of the interval has passed: the call counts the tick,
    notes the time as the start of the loop, and a request to put a server
    into maintenance posted before it is in force when it returns. *)
Theorem call_run_one_tick_serves_request (m m1 : Monitor) (srv : string)
    (log : list effect) (m_loop_called interval now1 now2 : Z) (immediate : bool)
    (env : TickEnv) (file : option (list byte)) (wc : worker_call) :
  m_state m = MONITOR_STATE_RUNNING →
  set_server_status m srv SERVER_MAINT = (true, m1, log) →
  call_run_one_tick SHA1 is_usable is_in_cluster update_server_status m1 m_loop_called
    interval EXECUTE now1 now2 immediate env file = Some wc →
  m_ticks (wc_monitor wc) = m_ticks m + 1
  ∧ wc_loop_called wc = now1
  ∧ ∃ i d',
      get_monitored_server m srv = Some i
      ∧ m_servers (wc_monitor wc) !! i = Some d'
      ∧ name (server d') = srv
      ∧ is_in_maint (server d') = true.
Proof.
  intros Hst Hset Hcall.
  pose proof Hset as Hset'.
  apply set_server_status_maint in Hset' as (i & msrv & Hg & Hi & Hn & Hs1 & Hp1); [|done..].
  unfold call_run_one_tick in Hcall.
  destruct (int64_sub now1 m_loop_called) as [elapsed|]; [|done].
  cbn [mbind option_bind] in Hcall.
  unfold server_status_request_waiting in Hcall. rewrite Hp1, orb_true_r in Hcall.
  cbn [orb] in Hcall. unfold run_one_tick in Hcall.
  destruct (tick SHA1 is_usable is_in_cluster update_server_status m1 env file)
    as [r|] eqn:Hrun; [|done].
  cbn [mbind option_bind] in Hcall.
  destruct (int64_sub now2 now1) as [since|]; [|done]. cbn [mbind option_bind] in Hcall.
  destruct (int64_sub interval since) as [ms|]; [|done]. cbn [mbind option_bind] in Hcall.
  inversion Hcall; subst wc; clear Hcall. simpl.
  pose proof (tick_frame _ _ _ _ _ _ _ _ Hrun) as (_ & _ & _ & _ & _ & Ht & _).
  assert (m_ticks m1 = m_ticks m) as Hticks.
  { unfold set_server_status in Hset.
    destruct (get_monitored_server m srv ≫= _) as [[j d]|]; [|by inversion Hset].
    rewrite Hst in Hset. destruct (nonzero _); [by inversion Hset|].
    unfold post_status_request in Hset. by inversion Hset. }
  split; [by rewrite Ht, Hticks|]. split; [done|].
  set (d' := apply_status_request (with_status_request msrv MAINT_ON)).
  exists i, d'.
  assert (m_servers (check_maintenance_requests m1) !! i = Some d') as Hc.
  { unfold check_maintenance_requests. rewrite Hp1. simpl.
    rewrite list_lookup_fmap, Hs1, list_lookup_insert_eq by (by eapply lookup_lt_Some).
    done. }
  assert (is_in_maint (server d') = true) as Hm.
  { by apply (apply_status_request_maint (with_status_request msrv MAINT_ON)). }
  split; [done|]. split; [by eapply tick_maint|]. split; [|done].
  subst d'. rewrite (proj1 (proj2 (proj2 (proj2 (proj2 (apply_status_request_maint _)))))).
  done.
Qed.
End WorkerTheorems.

(** The timer theorems on inputs: an interval of two seconds, the loop
    last started at 1000. *)
Lemma call_run_one_tick_delay_witness :
  let B := sample_bits in
  let m := sample_running_monitor [sample_server "A" SERVER_RUNNING] in
  ∃ wc delay,
    call_run_one_tick sample_digest (λ _, true) (λ _, true) sample_update m 1000 2000
      EXECUTE 3500 3510 false sample_env None = Some wc
    ∧ wc_next_call wc = Some delay ∧ 1 ≤ delay ≤ 100.
Proof.
  intros B m.
  destruct (call_run_one_tick sample_digest (λ _, true) (λ _, true) sample_update m 1000 2000
              EXECUTE 3500 3510 false sample_env None) as [wc|] eqn:Hcall;
    [|exfalso; vm_compute in Hcall; discriminate].
  destruct (@call_run_one_tick_delay B sample_digest (λ _, true) (λ _, true) sample_update
              m 1000 2000 EXECUTE 3500 3510 false sample_env None wc Hcall)
    as (delay & Hd & Hr).
  exists wc, delay. split; [reflexivity|]. split; [exact Hd|exact Hr].
Defined.

Lemma call_run_one_tick_idle_witness :
  let B := sample_bits in
  let m := sample_running_monitor [sample_server "A" SERVER_RUNNING] in
  call_run_one_tick sample_digest (λ _, true) (λ _, true) sample_update m 1000 2000
    EXECUTE 2950 2950 false sample_env None
  = Some (mkWorkerCall m None [] 1000 (Some 50)).
Proof.
  intros B m.
  apply (@call_run_one_tick_idle B sample_digest (λ _, true) (λ _, true) sample_update
           m 1000 2000 2950 2950 sample_env None); try lia. reflexivity.
Defined.

Lemma call_run_one_tick_serves_request_witness :
  let B := sample_bits in
  let m := sample_running_monitor [sample_server "A" SERVER_RUNNING] in
  let m1 := (set_server_status m "A" SERVER_MAINT).1.2 in
  ∃ wc d',
    call_run_one_tick sample_digest (λ _, true) (λ _, true) sample_update m1 1000 2000
      EXECUTE 1001 1002 false sample_env None = Some wc
    ∧ m_ticks (wc_monitor wc) = 1
    ∧ m_servers (wc_monitor wc) !! 0%nat = Some d'
    ∧ is_in_maint (server d') = true.
Proof.
  intros B m m1.
  destruct (call_run_one_tick sample_digest (λ _, true) (λ _, true) sample_update m1 1000 2000
              EXECUTE 1001 1002 false sample_env None) as [wc|] eqn:Hcall;
    [|exfalso; vm_compute in Hcall; discriminate].
  destruct (@call_run_one_tick_serves_request B sample_bits_ok sample_digest (λ _, true)
              (λ _, true) sample_update m m1 "A" [] 1000 2000 1001 1002 false sample_env
              None wc eq_refl) as (Ht & _ & i & d' & Hg & Hi & _ & Hm);
    [vm_compute; reflexivity|exact Hcall|].
  assert (i = 0%nat) as -> by (vm_compute in Hg; by inversion Hg).
  exists wc, d'. split; [reflexivity|]. split; [exact Ht|]. split; [exact Hi|exact Hm].
Defined.

(** ** Connecting to a backend *)

Lemma connect_attempts_loop_ok connect i n start end_ :
  (connect_attempts_loop connect i n start end_).1.1 = true
  ↔ ∃ j, (i ≤ j < i + n)%nat ∧ (connect j).1.1 = true.
Proof.
  revert i start end_. induction n as [|n IH]; intros i start end_.
  - simpl. split; [done|]. intros (j & Hj & _). lia.
  - simpl. destruct (connect i) as [[result s] e] eqn:Hc. destruct result; simpl.
    + split; [|done]. intros _. exists i. rewrite Hc. split; [lia|done].
    + rewrite IH. split.
      * intros (j & Hj & Hok). exists j. split; [lia|done].
      * intros (j & Hj & Hok). exists j. split; [|done].
        destruct (decide (j = i)) as [->|Hne]; [|lia].
        rewrite Hc in Hok. done.
Qed.

Lemma connect_attempts_loop_none connect i start end_ :
  connect_attempts_loop connect i 0 start end_ = (false, start, end_).
Proof. done. Qed.

(** [ping_or_connect_to_db] gives one of the two OK results exactly when
    the connection at hand answers the ping, or a handle can be made and
    one of the first [connect_attempts] attempts succeeds; the connection
    at hand is preferred. With [connect_attempts] at 0 or below no attempt
    is made, and the result is a refusal, or a timeout when the timeout is
    not positive. Only when no handle can be made is the server left
    without one. *)
Theorem ping_or_connect_to_db_ok (connect_attempts connect_timeout : Z)
    (has_conn : bool) (a : ConnectAnswers) :
  let r := ping_or_connect_to_db connect_attempts connect_timeout has_conn a in
  (connection_is_ok r.1 = true ↔
     has_conn && ca_ping_ok a = true
     ∨ (ca_init_ok a = true
        ∧ ∃ j, (j < Z.to_nat connect_attempts)%nat ∧ (ca_connect a j).1.1 = true))
  ∧ (r.1 = MONITOR_CONN_EXISTING_OK ↔ has_conn && ca_ping_ok a = true)
  ∧ (connect_attempts ≤ 0 → has_conn && ca_ping_ok a = false →
     r.1 = if ca_init_ok a && (connect_timeout <=? 0)
           then MONITOR_CONN_TIMEOUT else MONITOR_CONN_REFUSED)
  ∧ (r.2 = false ↔ has_conn && ca_ping_ok a = false ∧ ca_init_ok a = false).
Proof.
  intros r. subst r. unfold ping_or_connect_to_db.
  destruct (has_conn && ca_ping_ok a) eqn:Hp.
  { simpl. repeat split; try done; try (by left); intros; lia || tauto. }
  destruct (ca_init_ok a) eqn:Hi.
  2:{ simpl. repeat split; try done; try (intros [?|[? _]]; done). }
  pose proof (connect_attempts_loop_ok (ca_connect a) 0 (Z.to_nat connect_attempts) 0 0)
    as Hloop.
  destruct (connect_attempts_loop (ca_connect a) 0 (Z.to_nat connect_attempts) 0 0)
    as [[ok s] e] eqn:Hl.
  simpl in Hloop.
  split; [|split; [|split]].
  - destruct ok; simpl.
    + split; [|done]. intros _. right. split; [done|].
      destruct (proj1 Hloop eq_refl) as (j & Hj & Hok). exists j. split; [lia|done].
    + assert (connection_is_ok
                (if connect_timeout <=? e - s
                 then (MONITOR_CONN_TIMEOUT, true) else (MONITOR_CONN_REFUSED, true)).1
              = false) as -> by (by destruct (connect_timeout <=? e - s)).
      split; [done|]. intros [?|[_ (j & Hj & Hok)]]; [done|].
      assert (false = true) as Habs; [|done].
      apply Hloop. exists j. split; [lia|done].
  - destruct ok; [|destruct (connect_timeout <=? e - s)]; simpl; split; done.
  - intros Hle _. replace (Z.to_nat connect_attempts) with 0%nat in Hl by lia.
    simpl in Hl. inversion Hl; subst. simpl. change (0 - 0) with 0.
    by destruct (connect_timeout <=? 0).
  - destruct ok; simpl; [split; [done|intros [_ ?]; done]|].
    destruct (connect_timeout <=? e - s); simpl; split; try done; intros [_ ?]; done.
Qed.

Lemma ping_or_connect_to_db_ok_witness :
  let a := mkConnectAnswers false true (λ _, (false, 0, 0)) in
  (ping_or_connect_to_db 0 3 true a).1 = MONITOR_CONN_REFUSED.
Proof.
  intros a.
  destruct (ping_or_connect_to_db_ok 0 3 true a) as (_ & _ & H3 & _).
  exact (H3 ltac:(lia) eq_refl).
Defined.

(** ** The age of the journal *)

(** The journal counts as fresh only when its path fits, the file can be
    inspected and it is younger than [journal_max_age]; in every other
    case it is stale. A file that does not exist is stale without a word,
    so a first start removes a journal that is not there; at most one
    line is logged. *)
Theorem journal_is_stale_fresh (PATH_MAX path_len : Z) (st : stat_result)
    (now max_age : Z) :
  let r := journal_is_stale PATH_MAX path_len st now max_age in
  (r.1 = false ↔
     path_len < PATH_MAX ∧ ∃ st_mtime, st = STAT_OK st_mtime ∧ now - st_mtime < max_age)
  ∧ (r.1 = false → r.2 = [])
  ∧ (length r.2 ≤ 1)%nat
  ∧ (path_len < PATH_MAX → st = STAT_ENOENT → r = (true, [])).
Proof.
  intros r. subst r. unfold journal_is_stale.
  destruct (Z.ltb_spec path_len PATH_MAX) as [Hp|Hp].
  - destruct st as [mt| |errno]; simpl;
      [destruct (Z.leb_spec max_age (now - mt)) as [Ha|Ha]; simpl|..];
      repeat split; try done; try lia;
      try (intros (_ & mt' & Heq & Hlt); inversion Heq; subst; lia).
    exists mt. done.
  - simpl. repeat split; try done; try lia; try (intros [? _]; lia).
Qed.

(** ** Server lists in the settings *)

Lemma monitored_serverlist_loop_closed m servers arr err :
  let found := omap (λ n, get_monitored_server m n ≫= λ i, m_servers m !! i) servers in
  let missing := filter (λ n, get_monitored_server m n ≫= (λ i, m_servers m !! i) = None)
                   servers in
  monitored_serverlist_loop m servers arr err
  = (arr ++ found, err || negb (bool_decide (missing = [])),
     (λ n, ERROR_server_not_monitored n (m_name m)) <$> missing).
Proof.
  revert arr err. induction servers as [|n rest IH]; intros arr err.
  - simpl. by rewrite app_nil_r, orb_false_r.
  - cbn [monitored_serverlist_loop omap list_omap]. rewrite filter_cons.
    destruct (get_monitored_server m n ≫= λ i, m_servers m !! i) as [d|] eqn:Hg.
    + rewrite decide_False by done. rewrite IH. cbv zeta. by rewrite <- app_assoc.
    + rewrite decide_True by done. rewrite IH. cbv zeta. simpl.
      by rewrite orb_true_r.
Qed.

Lemma get_monitored_server_lookup m n :
  n ∈ server_names (m_servers m) →
  ∃ d, get_monitored_server m n ≫= (λ i, m_servers m !! i) = Some d
       ∧ name (server d) = n.
Proof.
  intros Hin. unfold server_names in Hin. apply list_elem_of_fmap in Hin as (d0 & Hn & Hd).
  unfold get_monitored_server.
  destruct (list_find (λ d, name (server d) = n) (m_servers m)) as [[i d]|] eqn:Hf.
  - apply list_find_Some in Hf as (Hi & Hname & _). exists d. simpl. by rewrite Hi.
  - exfalso. apply list_find_None in Hf. rewrite Forall_forall in Hf.
    by apply (Hf d0 Hd).
Qed.

Lemma get_monitored_server_none m n :
  n ∉ server_names (m_servers m) →
  get_monitored_server m n ≫= (λ i, m_servers m !! i) = None.
Proof.
  intros Hnot. unfold get_monitored_server.
  destruct (list_find (λ d, name (server d) = n) (m_servers m)) as [[i d]|] eqn:Hf; [|done].
  apply list_find_Some in Hf as (Hi & Hname & _). exfalso. apply Hnot.
  unfold server_names. apply list_elem_of_fmap. exists d. split; [done|].
  by eapply list_elem_of_lookup_2.
Qed.

(** [get_monitored_serverlist] is all or nothing. When the key is set to a
    list of servers that the monitor all has, it returns them in the order
    of the list, logs nothing and leaves the error flag as it is. When one
    of them is not monitored the array is empty, the flag is raised and
    each such server is named in an error. A key that is not set gives the
    empty array and no error; a key whose list is empty gives the empty
    array and the error of an invalid name. The flag is never lowered. *)
Theorem get_monitored_serverlist_all_or_nothing (m : Monitor) (key : string)
    (contains : bool) (servers : list string) (name_error : string) (error_out : bool) :
  let r := get_monitored_serverlist m key contains servers name_error error_out in
  let missing := filter (λ n, n ∉ server_names (m_servers m)) servers in
  (contains = true → servers ≠ [] → missing = [] →
   server_names r.1.1 = servers ∧ r.1.2 = error_out ∧ r.2 = []
   ∧ Forall (λ d, d ∈ m_servers m) r.1.1)
  ∧ (contains = true → missing ≠ [] →
     r.1.1 = [] ∧ r.1.2 = true
     ∧ r.2 = (λ n, ERROR_server_not_monitored n (m_name m)) <$> missing)
  ∧ (contains = false → r = ([], error_out, []))
  ∧ (contains = true → servers = [] →
     r = ([], true, [ERROR_invalid_server_name key name_error]))
  ∧ (error_out = true → r.1.2 = true).
Proof.
  intros r missing. subst r. unfold get_monitored_serverlist.
  destruct contains; simpl; [|repeat split; done].
  assert (filter (λ n, get_monitored_server m n ≫= (λ i, m_servers m !! i) = None) servers
          = missing) as Hmiss.
  { unfold missing. apply list_filter_iff. intros n. split.
    - intros Hnone Hin. apply get_monitored_server_lookup in Hin as (d & Hd & _). congruence.
    - apply get_monitored_server_none. }
  rewrite monitored_serverlist_loop_closed. cbv zeta. rewrite Hmiss. simpl.
  set (found := omap (λ n, get_monitored_server m n ≫= λ i, m_servers m !! i) servers).
  assert (length found + length missing = length servers)%nat as Hlen.
  { unfold found. rewrite <- Hmiss. clear. induction servers as [|n rest IH]; [done|].
    cbn [omap list_omap]. rewrite filter_cons.
    destruct (get_monitored_server m n ≫= _) eqn:Hg.
    - rewrite decide_False by done. simpl. lia.
    - rewrite decide_True by done. simpl. lia. }
  assert (missing = [] → server_names found = servers
                         ∧ Forall (λ d, d ∈ m_servers m) found) as Hall.
  { unfold found, missing. clear. induction servers as [|n rest IH]; [done|].
    rewrite filter_cons. intros Hm. destruct (decide (n ∉ _)) as [|Hin]; [done|].
    apply dec_stable in Hin.
    destruct (get_monitored_server_lookup m n Hin) as (d & Hd & Hn).
    cbn [omap list_omap]. rewrite Hd. destruct (IH Hm) as [IH1 IH2].
    split.
    - unfold server_names in *. rewrite fmap_cons. by rewrite Hn, IH1.
    - constructor; [|done]. unfold get_monitored_server in Hd.
      destruct (list_find _ (m_servers m)) as [[i d']|]; [|done]. simpl in Hd.
      by eapply list_elem_of_lookup_2. }
  destruct servers as [|n0 rest] eqn:Hs.
  { simpl. repeat split; done. }
  rewrite <- Hs in *. rewrite bool_decide_eq_false_2 by (by rewrite Hs). simpl.
  split; [|split; [|split; [done|split]]].
  - intros _ _ Hm. rewrite Hm in *. simpl in *.
    rewrite bool_decide_eq_false_2 by lia.
    destruct (Hall eq_refl) as [H1 H2]. rewrite orb_false_r. done.
  - intros _ Hm. rewrite bool_decide_eq_true_2.
    + rewrite (bool_decide_eq_false_2 (missing = [])) by done. simpl.
      by rewrite orb_true_r.
    + destruct missing; [done|]. simpl in Hlen. lia.
  - intros _ Hcontra. by rewrite Hs in Hcontra.
  - intros ->. done.
Qed.

Lemma get_monitored_serverlist_all_or_nothing_witness :
  let m := sample_monitor [sample_server "A" 0; sample_server "B" 0] in
  (get_monitored_serverlist m "excluded" true ["B"%string; "A"%string] "" false).1
  = ([sample_server "B" 0; sample_server "A" 0], false)
  ∧ (get_monitored_serverlist m "excluded" true ["B"%string; "C"%string] "" false).1
    = ([], true).
Proof.
  intros m.
  destruct (get_monitored_serverlist_all_or_nothing m "excluded" true
              ["B"%string; "A"%string] "" false) as (H1 & _).
  destruct (get_monitored_serverlist_all_or_nothing m "excluded" true
              ["B"%string; "C"%string] "" false) as (_ & H2 & _).
  split.
  - destruct (H1 eq_refl ltac:(discriminate) eq_refl) as (_ & He & _).
    destruct (get_monitored_serverlist m _ _ _ _ _) as [[arr err] log] eqn:Hr.
    simpl in He. subst err. vm_compute in Hr. by inversion Hr.
  - destruct (H2 eq_refl) as (Ha & He & _); [vm_compute; discriminate|].
    destruct (get_monitored_serverlist m _ _ _ _ _) as [[arr err] log].
    simpl in Ha, He. by subst.
Defined.

Lemma journal_is_stale_fresh_witness :
  journal_is_stale 4096 30 STAT_ENOENT 1000 28800 = (true, []).
Proof.
  exact (proj2 (proj2 (proj2 (journal_is_stale_fresh 4096 30 STAT_ENOENT 1000 28800)))
           ltac:(lia) eq_refl).
Defined.

(** ** More on the disk space check *)

Section DiskSpaceTheorems.
Context `{HB : ServerBits}.

Lemma check_limits_name pMs pMs2 info dst st :
  name (server pMs2) = name (server pMs) →
  check_limits pMs2 info dst st = check_limits pMs info dst st.
Proof.
  intros Hn. revert st. induction dst as [|[path max] rest IH]; intros st; [done|].
  simpl. unfold check_disk_space_exhausted. rewrite Hn.
  case_bool_decide; [apply IH|].
  destruct (info_find info path) as [san|]; [|apply IH].
  destruct (used_percentage san); simpl; [apply IH|done].
Qed.

Lemma check_star_name pMs pMs2 info st :
  name (server pMs2) = name (server pMs) →
  check_star pMs2 info st = check_star pMs info st.
Proof.
  intros Hn. revert st. induction info as [|[path san] rest IH]; intros st; [done|].
  simpl. unfold check_disk_space_exhausted. rewrite Hn.
  case_bool_decide; [|apply IH].
  destruct (used_percentage san); simpl; [apply IH|done].
Qed.

(** The limits of the server and the limits of the monitor are not merged:
    when the server has limits of its own, those of the monitor play no
    part in the check, whatever they are. *)
Theorem update_disk_space_status_server_limits_first (pMs : MonitorServer)
    (limits : DiskSpaceLimits) (rv : get_info_result) :
  disk_space_limits (server pMs) ≠ [] →
  disk_verdict (update_disk_space_status (with_monitor_limits pMs limits) rv)
  = disk_verdict (update_disk_space_status pMs rv).
Proof.
  intros Hown. unfold update_disk_space_status, disk_verdict.
  destruct rv as [info|errno]; [|by destruct errno].
  cbn [with_monitor_limits server monitor_limits pending_status].
  rewrite bool_decide_eq_false_2 by done.
  rewrite (check_limits_name pMs (with_monitor_limits pMs limits)) by done.
  destruct (check_limits pMs info _ _) as [st|]; [|done]. simpl.
  rewrite (check_star_name pMs (with_monitor_limits pMs limits)) by done.
  destruct (if bool_decide (star_max_percentage st ≠ -1) then _ else _) as [st'|]; [|done].
  simpl. by destruct (disk_space_exhausted st').
Qed.

Lemma check_limits_star pMs info dst st st' :
  Forall (λ e, e.1 ≠ "*"%string) dst →
  check_limits pMs info dst st = Some st' →
  star_max_percentage st' = star_max_percentage st.
Proof.
  intros Hns. revert st. induction Hns as [|[path max] rest Hp Hrest IH]; intros st Hrun.
  - simpl in Hrun. by inversion Hrun.
  - simpl in *. rewrite bool_decide_eq_false_2 in Hrun by done.
    destruct (info_find info path) as [san|].
    + destruct (check_disk_space_exhausted pMs path san max) as [r|]; [|done].
      simpl in Hrun. by rewrite (IH _ Hrun).
    + simpl in Hrun. by rewrite (IH _ Hrun).
Qed.

Lemma check_limits_last pMs info init path max san st st' :
  path ≠ "*"%string →
  info_find info path = Some san →
  check_limits pMs info (init ++ [(path, max)]) st = Some st' →
  ∃ u, used_percentage san = Some u ∧ disk_space_exhausted st' = (max <=? u).
Proof.
  intros Hp Hf. revert st. induction init as [|[p0 m0] init IH]; intros st Hrun.
  - simpl in Hrun. rewrite bool_decide_eq_false_2 in Hrun by done. rewrite Hf in Hrun.
    unfold check_disk_space_exhausted in Hrun.
    destruct (used_percentage san) as [u|]; [|done]. simpl in Hrun.
    exists u. split; [done|]. inversion Hrun; subst; simpl. by destruct (max <=? u).
  - simpl in Hrun.
    destruct (if bool_decide (p0 = "*"%string) then _ else _) as [st1|]; [|done].
    simpl in Hrun. by eapply IH.
Qed.

Lemma check_limits_app pMs info l1 l2 st :
  check_limits pMs info (l1 ++ l2) st
  = check_limits pMs info l1 st ≫= check_limits pMs info l2.
Proof.
  revert st. induction l1 as [|[p0 m0] l1 IH]; intros st; [done|].
  cbn [app check_limits].
  destruct (if bool_decide (p0 = "*"%string) then _ else _) as [st1|]; [|done].
  cbn [mbind option_bind]. apply IH.
Qed.

Lemma check_limits_absent pMs info tail st :
  Forall (λ e, e.1 ≠ "*"%string) tail →
  Forall (λ e, info_find info e.1 = None) tail →
  ∃ st', check_limits pMs info tail st = Some st'
         ∧ disk_space_exhausted st' = disk_space_exhausted st.
Proof.
  intros Hns Habs. revert st.
  induction tail as [|[p0 m0] tail IH]; intros st; [by exists st|].
  apply Forall_cons in Hns as [Hp Hns]. apply Forall_cons in Habs as [Ha Habs].
  cbn [fst] in Hp, Ha. cbn [check_limits].
  rewrite bool_decide_eq_false_2 by done. rewrite Ha. cbn [mbind option_bind].
  destruct (IH Hns Habs
              (mkDiskCheckState (disk_space_exhausted st) (star_max_percentage st)
                 (checked_paths st)
                 (disk_log st ++ [WARNING_no_such_disk p0 (name (server pMs))])))
    as (st' & Hrun & Hex).
  exists st'. split; [done|]. by rewrite Hex.
Qed.

(** Without a wildcard the flag goes by the limit that is visited last
    among those whose path the server has, whatever limits for paths that
    the server does not have come after it: [DISK_SPACE_EXHAUSTED] is set
    in the pending status when that path has reached its limit and cleared
    otherwise, whatever the paths before it have reached. *)
Theorem update_disk_space_status_last_limit_decides (pMs pMs' : MonitorServer)
    (info : disk_info_t) (init tail : DiskSpaceLimits) (path : string) (max : Z)
    (san : SizesAndName) (log : list effect) :
  let dst := if bool_decide (disk_space_limits (server pMs) = [])
             then monitor_limits pMs else disk_space_limits (server pMs) in
  dst = init ++ (path, max) :: tail →
  Forall (λ e, e.1 ≠ "*"%string) dst →
  info_find info path = Some san →
  Forall (λ e, info_find info e.1 = None) tail →
  update_disk_space_status pMs (INFO_OK info) = Some (pMs', log) →
  ∃ u, used_percentage san = Some u
       ∧ pending_status pMs' =
         if max <=? u
         then Z.lor (pending_status pMs) SERVER_DISK_SPACE_EXHAUSTED
         else clear_bits (pending_status pMs) SERVER_DISK_SPACE_EXHAUSTED.
Proof.
  intros dst Hdst Hns Hf Habs Hrun. unfold update_disk_space_status in Hrun.
  fold dst in Hrun.
  destruct (check_limits pMs info dst _) as [st|] eqn:Hl; [|done]. simpl in Hrun.
  pose proof (check_limits_star _ _ _ _ _ Hns Hl) as Hstar. simpl in Hstar.
  rewrite Hstar in Hrun. rewrite bool_decide_eq_false_2 in Hrun by (intros Hc; by apply Hc).
  simpl in Hrun. rewrite Hdst in Hl, Hns.
  change (init ++ (path, max) :: tail) with (init ++ [(path, max)] ++ tail) in Hl, Hns.
  rewrite app_assoc in Hl, Hns.
  apply (proj1 (Forall_app _ _ _)) in Hns. destruct Hns as [Hns Htail].
  apply (proj1 (Forall_app _ _ _)) in Hns. destruct Hns as [_ Hlast].
  apply (proj1 (Forall_singleton _ _)) in Hlast. simpl in Hlast.
  rewrite check_limits_app in Hl.
  destruct (check_limits pMs info (init ++ [(path, max)]) _) as [st1|] eqn:Hl1; [|done].
  cbn [mbind option_bind] in Hl.
  destruct (check_limits_last _ _ _ _ _ _ _ _ Hlast Hf Hl1) as (u & Hu & Hex).
  destruct (check_limits_absent pMs info tail st1 Htail Habs) as (st2 & Hl2 & Hex2).
  rewrite Hl2 in Hl. injection Hl as <-.
  exists u. split; [done|]. inversion Hrun; subst. rewrite Hex2, Hex.
  by destruct (max <=? u).
Qed.
End DiskSpaceTheorems.

Lemma update_disk_space_status_server_limits_first_witness :
  let B := sample_bits in
  let pMs := mkMonitorServer (mkSERVER "A" 1 UNDEFINED_EVENT 0 [("/a"%string, 90)])
               1 1 0 NO_CHANGE true [] in
  let info := INFO_OK [("/a"%string, mkSizesAndName 100 50 50);
                       ("/b"%string, mkSizesAndName 100 99 1)] in
  disk_verdict (update_disk_space_status (with_monitor_limits pMs [("/b"%string, 10)]) info)
  = Some (1, true, []).
Proof.
  intros B pMs info.
  rewrite (@update_disk_space_status_server_limits_first B pMs [("/b"%string, 10)] info)
    by discriminate.
  vm_compute. reflexivity.
Defined.

Lemma update_disk_space_status_last_limit_decides_witness :
  let B := sample_bits in
  let pMs := sample_disk_server [("/a"%string, 90); ("/b"%string, 90); ("/zz"%string, 5)]
               SERVER_RUNNING in
  let info := [("/a"%string, mkSizesAndName 100 95 5);
               ("/b"%string, mkSizesAndName 100 10 90)] in
  ∃ pMs' log,
    update_disk_space_status pMs (INFO_OK info) = Some (pMs', log)
    ∧ pending_status pMs' = clear_bits SERVER_RUNNING SERVER_DISK_SPACE_EXHAUSTED.
Proof.
  intros B pMs info.
  destruct (update_disk_space_status pMs (INFO_OK info)) as [[pMs' log]|] eqn:Hrun;
    [|exfalso; vm_compute in Hrun; discriminate].
  exists pMs', log. split; [reflexivity|].
  destruct (@update_disk_space_status_last_limit_decides B pMs pMs' info
              [("/a"%string, 90)] [("/zz"%string, 5)] "/b" 90 (mkSizesAndName 100 10 90) log)
    as (u & Hu & Hp); [reflexivity| |reflexivity| |exact Hrun|].
  { repeat constructor; discriminate. }
  { repeat constructor. }
  vm_compute in Hu. inversion Hu; subst u. exact Hp.
Defined.

Lemma update_disk_space_status_wildcard_last_witness :
  let B := sample_bits in
  let pMs := sample_disk_server [("*"%string, 90)] SERVER_RUNNING in
  let info := [("/a"%string, mkSizesAndName 100 95 5);
               ("/b"%string, mkSizesAndName 100 10 90)] in
  ∃ pMs' log,
    update_disk_space_status pMs (INFO_OK info) = Some (pMs', log)
    ∧ pending_status pMs' = clear_bits SERVER_RUNNING SERVER_DISK_SPACE_EXHAUSTED.
Proof.
  intros B pMs info.
  destruct (update_disk_space_status pMs (INFO_OK info)) as [[pMs' log]|] eqn:Hrun;
    [|exfalso; vm_compute in Hrun; discriminate].
  exists pMs', log. split; [reflexivity|].
  destruct (@update_disk_space_status_wildcard_last B pMs 90
              [("/a"%string, mkSizesAndName 100 95 5)] "/b" (mkSizesAndName 100 10 90)
              pMs' log) as (u & Hu & Hp); [reflexivity|reflexivity|lia|exact Hrun|].
  vm_compute in Hu. inversion Hu; subst u. exact Hp.
Defined.

(** ** Node lists *)

Section NodeNamesTheorems.
Context (address : SERVER → list byte) (port : SERVER → Z).
Context (node_id master_id : SERVER → Z).
Context (monitor_user monitor_password : SERVER → list byte).
Context (format_int : Z → list byte).
Context (ARR_SIZE : nat).

Lemma append_node_names_loop_bound username password servers dest len separator
    status_bits approach :
  0 < len →
  Z.of_nat (length (append_node_names_loop address port monitor_user monitor_password
                      format_int ARR_SIZE username password servers dest len separator
                      status_bits approach))
  < Z.of_nat (length dest) + len.
Proof.
  revert dest len separator.
  induction servers as [|iter rest IH]; intros dest len separator Hlen; cbn [append_node_names_loop].
  - lia.
  - destruct (Z.eqb_spec len 0) as [->|_]; [lia|].
    destruct ((status_bits =? 0) || nonzero (Z.land (status (server iter)) status_bits)).
    + cbv zeta.
      destruct (Z.ltb_spec
                  (Z.of_nat (length (node_text address port monitor_user monitor_password
                                       format_int ARR_SIZE username password approach
                                       separator (server iter)))) len) as [Hfit|_].
      * eapply Z.lt_le_trans; [apply IH; lia|].
        rewrite length_app. lia.
      * apply IH, Hlen.
    + apply IH, Hlen.
Qed.

(** [append_node_names] never overruns the buffer: with room for [len > 0]
    bytes the text it leaves in [dest] is shorter than [len], so that the
    text and its terminator fit, whatever the servers, their addresses and
    the credentials are. An entry that does not fit is left out. *)
Theorem append_node_names_fits (m : Monitor) (username password : list byte) (len : Z)
    (status_bits : Z) (approach : credentials_approach_t) :
  0 < len →
  Z.of_nat (length (append_node_names address port monitor_user monitor_password
                      format_int ARR_SIZE m username password len status_bits approach))
  < len.
Proof.
  intros Hlen. unfold append_node_names.
  eapply Z.lt_le_trans; [apply append_node_names_loop_bound, Hlen|].
  cbn [length]. lia.
Qed.

Lemma child_nodes_loop_prefix servers parent ss have_content :
  ∃ post, child_nodes_loop address port node_id master_id format_int servers parent ss
            have_content = ss ++ post.
Proof.
  revert ss have_content.
  induction servers as [|node rest IH]; intros ss have_content; cbn [child_nodes_loop].
  - exists []. by rewrite app_nil_r.
  - case_bool_decide.
    + cbv zeta.
      match goal with |- context [child_nodes_loop _ _ _ _ _ rest parent ?s true] =>
        destruct (IH s true) as [post ->] end.
      destruct have_content; rewrite <- ?app_assoc; eauto.
    + apply IH.
Qed.

Lemma child_nodes_loop_lists servers parent ss have_content target :
  target ∈ servers →
  master_id (server target) = node_id (server parent) →
  ∃ pre post, child_nodes_loop address port node_id master_id format_int servers parent ss
                have_content = pre ++ child_text address port format_int target ++ post.
Proof.
  intros Hin Hid. revert ss have_content.
  induction servers as [|node rest IH]; intros ss have_content; [by apply elem_of_nil in Hin|].
  cbn [child_nodes_loop].
  apply elem_of_cons in Hin as [<-|Hin].
  - rewrite bool_decide_eq_true_2 by done. cbv zeta.
    match goal with |- context [child_nodes_loop _ _ _ _ _ rest parent ?s true] =>
      destruct (child_nodes_loop_prefix rest parent s true) as [post ->] end.
    exists (if have_content then ss ++ text_of "," else ss), post.
    unfold child_text. by rewrite <- !app_assoc.
  - case_bool_decide; apply IH, Hin.
Qed.

(** [find_parent_node] and [child_nodes] agree: when [find_parent_node]
    gives a monitored server [target] the parent [parent], that parent is
    a server of the monitor whose node id is the master id of [target], and
    the list [child_nodes] makes for [parent] holds the entry
    [[address]:port] of [target]. *)
Theorem find_parent_node_child_nodes (m : Monitor) (target parent : MonitorServer) :
  target ∈ m_servers m →
  find_parent_node node_id master_id m target = Some parent →
  parent ∈ m_servers m
  ∧ node_id (server parent) = master_id (server target)
  ∧ ∃ pre post, child_nodes address port node_id master_id format_int m parent
                = pre ++ child_text address port format_int target ++ post.
Proof.
  unfold find_parent_node, child_nodes. intros Hin Hfind.
  destruct (Z.ltb_spec 0 (master_id (server target))) as [Hpos|_]; [|done].
  destruct (list_find _ (m_servers m)) as [[i p]|] eqn:Hlf; [|done].
  cbn in Hfind. injection Hfind as ->.
  apply list_find_Some in Hlf as (Hlook & Hid & _).
  split; [by eapply list_elem_of_lookup_2|].
  split; [done|].
  rewrite Hid.
  destruct (Z.ltb_spec 0 (master_id (server target))) as [_|?]; [|lia].
  by apply child_nodes_loop_lists.
Qed.

(** [find_parent_node] gives the first server in the order of the monitor
    whose node id is the master id of [target]: no server before the
    parent has that id. With a master id of zero or less there is no
    parent. *)
Theorem find_parent_node_first (m : Monitor) (target parent : MonitorServer) :
  find_parent_node node_id master_id m target = Some parent →
  0 < master_id (server target)
  ∧ ∃ i, m_servers m !! i = Some parent
       ∧ ∀ j other, m_servers m !! j = Some other → (j < i)%nat →
           node_id (server other) ≠ master_id (server target).
Proof.
  unfold find_parent_node. intros Hfind.
  destruct (Z.ltb_spec 0 (master_id (server target))) as [Hpos|_]; [|done].
  split; [done|].
  destruct (list_find _ (m_servers m)) as [[i p]|] eqn:Hlf; [|done].
  cbn in Hfind. injection Hfind as ->.
  apply list_find_Some in Hlf as (Hlook & Hid & Hbefore).
  exists i. split; [done|]. intros j other Hj Hlt. by eapply Hbefore.
Qed.
End NodeNamesTheorems.

Lemma append_node_names_fits_witness :
  let m := sample_monitor [sample_server "A" 1; sample_server "B" 1] in
  0 < 12
  ∧ Z.of_nat (length (append_node_names sample_address sample_port (λ _, []) (λ _, [])
                        sample_format_int 128 m [] [] 12 0 CREDENTIALS_EXCLUDE)) < 12.
Proof.
  intros m. split; [lia|].
  apply (@append_node_names_fits sample_address sample_port (λ _, []) (λ _, [])
           sample_format_int 128 m [] [] 12 0 CREDENTIALS_EXCLUDE).
  lia.
Defined.

Lemma find_parent_node_child_nodes_witness :
  let a := sample_server "A" 1 in
  let b := sample_server "B" 1 in
  let m := sample_monitor [a; b] in
  b ∈ m_servers m
  ∧ find_parent_node sample_node_id sample_master_id m b = Some a
  ∧ a ∈ m_servers m
  ∧ sample_node_id (server a) = sample_master_id (server b)
  ∧ ∃ pre post, child_nodes sample_address sample_port sample_node_id sample_master_id
                  sample_format_int m a
                = pre ++ child_text sample_address sample_port sample_format_int b ++ post.
Proof.
  intros a b m.
  assert (Hin : b ∈ m_servers m) by (apply elem_of_cons; right; apply elem_of_cons; left; reflexivity).
  assert (Hfind : find_parent_node sample_node_id sample_master_id m b = Some a)
    by reflexivity.
  split; [exact Hin|]. split; [exact Hfind|].
  exact (@find_parent_node_child_nodes sample_address sample_port sample_node_id
           sample_master_id sample_format_int m b a Hin Hfind).
Defined.

Lemma find_parent_node_first_witness :
  let a := sample_server "A" 1 in
  let b := sample_server "B" 1 in
  let m := sample_monitor [a; b] in
  find_parent_node sample_node_id sample_master_id m b = Some a
  ∧ 0 < sample_master_id (server b)
  ∧ ∃ i, m_servers m !! i = Some a
       ∧ ∀ j other, m_servers m !! j = Some other → (j < i)%nat →
           sample_node_id (server other) ≠ sample_master_id (server b).
Proof.
  intros a b m.
  assert (Hfind : find_parent_node sample_node_id sample_master_id m b = Some a)
    by reflexivity.
  split; [exact Hfind|].
  exact (@find_parent_node_first sample_node_id sample_master_id m b a Hfind).
Defined.
(** ** The first tick *)

Section ColdStart.
Context `{HB : ServerBits} {Hok : ServerBitsOk HB}.
Context (SHA1 : list byte → list byte).
Context (is_usable is_in_cluster : SERVER → bool).
Context (update_server_status : option nat → nat → MonitorServer → Z * option nat).

Lemma reportable_zero st :
  Z.land st all_server_bits = 0 →
  Z.testbit st (Z.of_N pos_RUNNING) = false
  ∧ Z.testbit st (Z.of_N pos_MAINT) = false
  ∧ Z.testbit st (Z.of_N pos_MASTER) = false
  ∧ Z.testbit st (Z.of_N pos_SLAVE) = false
  ∧ Z.testbit st (Z.of_N pos_JOINED) = false.
Proof.
  intros Hz. rewrite all_server_bits_mask in Hz.
  assert (view reportable_positions st = view reportable_positions 0) as Hv.
  { apply land_mask_eq. by rewrite Z.land_0_l. }
  unfold view, reportable_positions in Hv. simpl in Hv. rewrite !Z.bits_0 in Hv.
  by inversion Hv.
Qed.

(** What the log says about state changes is not touched by the hang-ups,
    the disk space check and the journal write. *)
Lemma state_changes_app l1 l2 :
  state_changes (l1 ++ l2) = state_changes l1 ++ state_changes l2.
Proof. unfold state_changes. apply omap_app. Qed.

Lemma state_changes_hangup servers :
  state_changes (hangup_failed_servers is_usable is_in_cluster servers) = [].
Proof.
  unfold hangup_failed_servers, state_changes.
  induction servers as [|d rest IH]; [done|].
  simpl. destruct (_ && _); simpl; done.
Qed.

(** The disk space check logs no state change. *)
Lemma check_disk_space_exhausted_quiet pMs path san max r :
  check_disk_space_exhausted pMs path san max = Some r → state_changes r.2 = [].
Proof.
  unfold check_disk_space_exhausted. destruct (used_percentage san) as [p|]; [|done].
  simpl. intros Hr. inversion Hr; subst. by destruct (max <=? p).
Qed.

Lemma check_limits_quiet pMs info dst st st' :
  check_limits pMs info dst st = Some st' →
  state_changes (disk_log st) = [] → state_changes (disk_log st') = [].
Proof.
  revert st. induction dst as [|[path max] rest IH]; intros st Hrun Hlog.
  - simpl in Hrun. by inversion Hrun; subst.
  - simpl in Hrun. case_bool_decide.
    + simpl in Hrun. eapply IH; [done|]. done.
    + destruct (info_find info path) as [san|].
      * destruct (check_disk_space_exhausted pMs path san max) as [r|] eqn:Hc; [|done].
        simpl in Hrun. eapply IH; [done|]. simpl.
        rewrite state_changes_app, Hlog. by eapply check_disk_space_exhausted_quiet.
      * simpl in Hrun. eapply IH; [done|]. simpl.
        by rewrite state_changes_app, Hlog.
Qed.

Lemma check_star_quiet pMs info st st' :
  check_star pMs info st = Some st' →
  state_changes (disk_log st) = [] → state_changes (disk_log st') = [].
Proof.
  revert st. induction info as [|[path san] rest IH]; intros st Hrun Hlog.
  - simpl in Hrun. by inversion Hrun; subst.
  - simpl in Hrun. case_bool_decide.
    + destruct (check_disk_space_exhausted pMs path san _) as [r|] eqn:Hc; [|done].
      simpl in Hrun. eapply IH; [done|]. simpl.
      rewrite state_changes_app, Hlog. by eapply check_disk_space_exhausted_quiet.
    + simpl in Hrun. by eapply IH.
Qed.

(** Of the pending status the disk space check touches the bit
    [DISK_SPACE_EXHAUSTED] alone. *)
Lemma update_disk_space_status_pending pMs rv pMs' log :
  update_disk_space_status pMs rv = Some (pMs', log) →
  state_changes log = []
  ∧ (pending_status pMs' = pending_status pMs
     ∨ pending_status pMs' = Z.lor (pending_status pMs) SERVER_DISK_SPACE_EXHAUSTED
     ∨ pending_status pMs'
       = clear_bits (pending_status pMs) SERVER_DISK_SPACE_EXHAUSTED).
Proof.
  unfold update_disk_space_status. destruct rv as [info|errno].
  - destruct (check_limits pMs info _ _) as [st|] eqn:Hl; [|done]. simpl.
    apply check_limits_quiet in Hl; [|done].
    assert (∀ st', (if bool_decide (star_max_percentage st ≠ -1)
                    then check_star pMs info st else Some st) = Some st' →
                   state_changes (disk_log st') = []) as Hs.
    { intros st' Hst. case_bool_decide.
      - by eapply check_star_quiet.
      - by inversion Hst; subst. }
    destruct (if bool_decide (star_max_percentage st ≠ -1) then _ else _) as [st'|]; [|done].
    simpl. intros Hr. inversion Hr; subst.
    specialize (Hs st' eq_refl).
    destruct (disk_space_exhausted st'); simpl; auto.
  - intros Hr. destruct errno; inversion Hr; subst; simpl; auto.
Qed.

(** The body of the tick loop for a server whose probe succeeds. *)
Lemma tick_server_probe_ok_disk env master idx d :
  is_in_maint (server d) = false →
  connection_is_ok (ping_or_connect env (name (server d))).1 = true →
  (check_disk_space_this_tick env = true →
   ∀ srv info p san, get_info_by_path env srv = INFO_OK info →
                     (p, san) ∈ info → is_Some (used_percentage san)) →
  let probed := Z.lor (clear_bits (status (server d)) SERVER_AUTH_ERROR) SERVER_RUNNING in
  ∃ d3 log3,
    tick_server update_server_status env master idx d =
      Some (with_err_count (with_pending_status d3 (update_server_status master idx d3).1)
              (if is_down (server d) then mon_err_count d + 1 else 0),
            (update_server_status master idx d3).2, log3)
    ∧ server d3 = server d
    ∧ mon_prev_status d3 = status (server d)
    ∧ state_changes log3 = []
    ∧ (pending_status d3 = probed
       ∨ pending_status d3 = Z.lor probed SERVER_DISK_SPACE_EXHAUSTED
       ∨ pending_status d3 = clear_bits probed SERVER_DISK_SPACE_EXHAUSTED)
    ∧ (check_disk_space_this_tick env = false → pending_status d3 = probed).
Proof.
  intros Hm Hc Hdisk probed. unfold tick_server. rewrite Hm. simpl negb. cbv iota.
  destruct (ping_or_connect env (name (server d))) as [rval errno] eqn:Hp.
  simpl in Hc.
  destruct d as [srv prev pend cnt req ok lim].
  unfold stash_current_status, set_pending_status, clear_pending_status,
    with_pending_status, with_prev_status in *.
  cbn [server mon_prev_status pending_status mon_err_count status_request
       ok_to_check_disk_space monitor_limits] in *.
  rewrite Hp, Hc.
  set (d2 := mkMonitorServer srv (status srv)
               (Z.lor (clear_bits (status srv) SERVER_AUTH_ERROR) SERVER_RUNNING)
               cnt req ok lim).
  assert (∃ d3 log3,
            (if check_disk_space_this_tick env && can_update_disk_space_status d2
             then update_disk_space_status d2 (get_info_by_path env (name srv))
             else Some (d2, [])) = Some (d3, log3)
            ∧ server d3 = srv ∧ mon_prev_status d3 = status srv
            ∧ mon_err_count d3 = cnt
            ∧ state_changes log3 = []
            ∧ (pending_status d3 = probed
               ∨ pending_status d3 = Z.lor probed SERVER_DISK_SPACE_EXHAUSTED
               ∨ pending_status d3 = clear_bits probed SERVER_DISK_SPACE_EXHAUSTED)
            ∧ (check_disk_space_this_tick env = false → pending_status d3 = probed))
    as (d3 & log3 & Hstep & Hs3 & Hp3 & Hc3 & Hl3 & Hpend & Hno).
  { destruct (check_disk_space_this_tick env) eqn:Hdue; cbn [andb].
    - destruct (can_update_disk_space_status d2).
      + destruct (update_disk_space_status_defined d2 (get_info_by_path env (name srv)))
          as [[d3 log3] Hrun].
        { intros info p san Hi Hin. by eapply (Hdisk eq_refl). }
        pose proof (update_disk_space_status_frame _ _ _ _ Hrun)
          as (Hf1 & Hf2 & Hf3 & _).
        pose proof (update_disk_space_status_pending _ _ _ _ Hrun) as (Hq & Hpd).
        exists d3, log3. repeat split; try done.
      + exists d2, []. repeat split; try done. by left.
    - exists d2, []. repeat split; try done. by left. }
  exists d3, log3.
  split; [|done].
  cbv zeta. rewrite Hstep. cbn [mbind option_bind fst snd].
  destruct (update_server_status master idx d3) as [pending master'].
  cbn [fst snd]. destruct d3 as [srv3 prev3 pend3 cnt3 req3 ok3 lim3].
  cbn [server mon_prev_status pending_status mon_err_count] in Hs3, Hp3, Hc3.
  subst srv3 prev3 cnt3. unfold with_err_count.
  cbn [server mon_prev_status pending_status mon_err_count status_request
       ok_to_check_disk_space monitor_limits].
  simpl. by destruct (is_down srv).
Qed.

(** What the state change logic makes of a server that was down, after a
    successful probe, the disk space check and a module that gives it a
    role. *)
Lemma probed_events_disk st p :
  Z.land st all_server_bits = 0 →
  (p = Z.lor (clear_bits st SERVER_AUTH_ERROR) SERVER_RUNNING
   ∨ p = Z.lor (Z.lor (clear_bits st SERVER_AUTH_ERROR) SERVER_RUNNING)
           SERVER_DISK_SPACE_EXHAUSTED
   ∨ p = clear_bits (Z.lor (clear_bits st SERVER_AUTH_ERROR) SERVER_RUNNING)
           SERVER_DISK_SPACE_EXHAUSTED) →
  (status_changed st (Z.lor p SERVER_MASTER) = true
   ∧ get_event_type st (Z.lor p SERVER_MASTER) = MASTER_UP_EVENT
   ∧ Z.testbit (Z.lor p SERVER_MASTER) (Z.of_N pos_MAINT) = false)
  ∧ (status_changed st (Z.lor p SERVER_SLAVE) = true
     ∧ get_event_type st (Z.lor p SERVER_SLAVE) = SLAVE_UP_EVENT
     ∧ Z.testbit (Z.lor p SERVER_SLAVE) (Z.of_N pos_MAINT) = false).
Proof.
  intros Hz Hp. apply reportable_zero in Hz as (Hr & Hmt & Hm & Hs & Hj).
  assert ((st =? UINT64_MINUS_ONE) = false) as Hsent.
  { apply Z.eqb_neq. intros ->. rewrite sentinel_testbit in Hr; [done|].
    apply pos_lt_64. unfold all_positions. apply list_elem_of_In. simpl. tauto. }
  rewrite !status_changed_bits, !get_event_type_classify, Hsent.
  unfold reportable, view, reportable_positions. simpl fmap.
  destruct Hp as [-> | [-> | ->]]; simpl_bits; rewrite Hr, Hmt, Hm, Hs, Hj; simpl; done.
Qed.

(** The disk space check leaves the status as the probe and the module
    make it, but for the bit [DISK_SPACE_EXHAUSTED]. *)
Lemma probed_status_disk st p role :
  (p = Z.lor (clear_bits st SERVER_AUTH_ERROR) SERVER_RUNNING
   ∨ p = Z.lor (Z.lor (clear_bits st SERVER_AUTH_ERROR) SERVER_RUNNING)
           SERVER_DISK_SPACE_EXHAUSTED
   ∨ p = clear_bits (Z.lor (clear_bits st SERVER_AUTH_ERROR) SERVER_RUNNING)
           SERVER_DISK_SPACE_EXHAUSTED) →
  clear_bits (Z.lor p role) SERVER_DISK_SPACE_EXHAUSTED
  = clear_bits (probed_status st role) SERVER_DISK_SPACE_EXHAUSTED.
Proof.
  intros Hp. apply Z.bits_inj'. intros i Hi.
  destruct Hp as [-> | [-> | ->]]; unfold probed_status, clear_bits;
    repeat first [rewrite Z.land_spec | rewrite Z.lor_spec | rewrite Z.lnot_spec by done];
    destruct (Z.testbit st i), (Z.testbit SERVER_AUTH_ERROR i),
      (Z.testbit SERVER_RUNNING i), (Z.testbit SERVER_DISK_SPACE_EXHAUSTED i),
      (Z.testbit role i); done.
Qed.

(** The journal write with working file operations: the file is written
    exactly when the stored hash is not the hash of the snapshot. *)
Lemma store_server_journal_gate m master file :
  let payload := encode_entries (snapshot_entries (m_servers m) master) in
  let digest :=
    SHA1 (take (Z.to_nat (MMB_LEN_SCHEMA_VERSION + Z.of_nat (length payload)
                          + MMB_LEN_CRC32))
            (journal_record payload)) in
  MMB_LEN_BYTES + MMB_LEN_SCHEMA_VERSION + Z.of_nat (length payload) + MMB_LEN_CRC32
  < 2 ^ 32 →
  store_server_journal SHA1 m master file IO_OK =
  Some (if bool_decide (m_journal_hash m ≠ digest)
        then (with_journal_hash m digest, Some (journal_record payload),
              [FILE_OPEN_TMP; FILE_WRITE (journal_record payload); FILE_RENAME])
        else (m, file, [])).
Proof.
  intros payload digest Hlt. unfold store_server_journal.
  rewrite (store_data_record _ _ Hlt), (journal_size_exact _ _ Hlt).
  fold payload. fold digest.
  rewrite bool_decide_eq_true_2.
  - by case_bool_decide.
  - rewrite length_journal_record.
    unfold MMB_LEN_BYTES, MMB_LEN_SCHEMA_VERSION, MMB_LEN_CRC32 in *.
    rewrite Z.mod_small; lia.
Qed.

(** C3 (amended): cold start. A monitor with the two servers A and B and
    no admin request waiting, whose statuses have none of the status bits
    of the monitor (so neither [RUNNING] nor [MAINT] nor a role), runs a
    tick in which both probes succeed and the module makes A the master,
    noting it as such, and B a slave; the file operations of the journal
    work, the names are short enough for the length of the record to fit
    its [uint32_t], and every disk usage that a disk space check of the
    tick looks at gives a percentage that fits [int32_t]. Then the tick
    completes, A is the noted master, and the events of the tick are
    [MASTER_UP_EVENT] for A and [SLAVE_UP_EVENT] for B (in this order,
    and no other). The new status of A is its old status without
    [AUTH_ERROR] and with [RUNNING] and [MASTER], that of B the same with
    [SLAVE], but for the bit [DISK_SPACE_EXHAUSTED], which is as the disk
    space check leaves it (and as it was when no check is due). If the
    stored hash is not the hash of the new snapshot, the journal file
    holds afterwards the record of both servers, in the order of the
    list, with these statuses, followed by the master entry of A. *)
Theorem cold_start_events (nm : string) (settings : Settings) (hash : list byte)
    (master0 : option nat) (checked : bool) (ticks : Z) (A B : MonitorServer)
    (env : TickEnv) (file : option (list byte)) :
  let m := mkMonitor nm settings [A; B] hash false master0 MONITOR_STATE_RUNNING
                     checked ticks in
  Z.land (status (server A)) all_server_bits = 0 →
  Z.land (status (server B)) all_server_bits = 0 →
  connection_is_ok (ping_or_connect env (name (server A))).1 = true →
  connection_is_ok (ping_or_connect env (name (server B))).1 = true →
  (check_disk_space_this_tick env = true →
   ∀ srv info p san, get_info_by_path env srv = INFO_OK info →
                     (p, san) ∈ info → is_Some (used_percentage san)) →
  (∀ master d, update_server_status master 0%nat d
               = (Z.lor (pending_status d) SERVER_MASTER, Some 0%nat)) →
  (∀ master d, update_server_status master 1%nat d
               = (Z.lor (pending_status d) SERVER_SLAVE, master)) →
  journal_io env = IO_OK →
  2 * Z.of_nat (length (journal_name A)) + Z.of_nat (length (journal_name B)) + 31
  < 2 ^ 32 →
  ∃ r A' B',
    tick SHA1 is_usable is_in_cluster update_server_status m env file = Some r
    ∧ m_servers (tr_monitor r) = [A'; B']
    ∧ m_master (tr_monitor r) = Some 0%nat
    ∧ name (server A') = name (server A) ∧ name (server B') = name (server B)
    ∧ clear_bits (status (server A')) SERVER_DISK_SPACE_EXHAUSTED
      = clear_bits (probed_status (status (server A)) SERVER_MASTER)
          SERVER_DISK_SPACE_EXHAUSTED
    ∧ clear_bits (status (server B')) SERVER_DISK_SPACE_EXHAUSTED
      = clear_bits (probed_status (status (server B)) SERVER_SLAVE)
          SERVER_DISK_SPACE_EXHAUSTED
    ∧ (check_disk_space_this_tick env = false →
       status (server A') = probed_status (status (server A)) SERVER_MASTER
       ∧ status (server B') = probed_status (status (server B)) SERVER_SLAVE)
    ∧ last_event (server A') = MASTER_UP_EVENT
    ∧ last_event (server B') = SLAVE_UP_EVENT
    ∧ state_changes (tr_effects r)
      = [(name (server A), MASTER_UP_EVENT); (name (server B), SLAVE_UP_EVENT)]
    ∧ (let payload :=
         encode_entries [SERVER_ENTRY (journal_name A) (status (server A'));
                         SERVER_ENTRY (journal_name B) (status (server B'));
                         MASTER_ENTRY (journal_name A)] in
       hash ≠ SHA1 (take (Z.to_nat (MMB_LEN_SCHEMA_VERSION + Z.of_nat (length payload)
                                    + MMB_LEN_CRC32))
                      (journal_record payload)) →
       tr_journal r = Some (journal_record payload)).
Proof.
  intros m HzA HzB HcA HcB Hdisk HuA HuB Hio Hlt.
  pose proof (reportable_zero _ HzA) as (HrA & HmtA & _).
  pose proof (reportable_zero _ HzB) as (HrB & HmtB & _).
  assert (is_in_maint (server A) = false) as HimA by (by rewrite is_in_maint_testbit).
  assert (is_in_maint (server B) = false) as HimB by (by rewrite is_in_maint_testbit).
  destruct (tick_server_probe_ok_disk env master0 0 A HimA HcA Hdisk)
    as (A3 & logA & HtA & HsA & HpA & HqA & HpendA & HnoA).
  destruct (tick_server_probe_ok_disk env (Some 0%nat) 1 B HimB HcB Hdisk)
    as (B3 & logB & HtB & HsB & HpB & HqB & HpendB & HnoB).
  pose proof (probed_events_disk _ _ HzA HpendA) as ((HscA & HevA & HmA) & _).
  pose proof (probed_events_disk _ _ HzB HpendB) as (_ & (HscB & HevB & HmB)).
  pose proof (probed_status_disk _ _ SERVER_MASTER HpendA) as HdA.
  pose proof (probed_status_disk _ _ SERVER_SLAVE HpendB) as HdB.
  set (o := tick SHA1 is_usable is_in_cluster update_server_status m env file).
  assert (tick SHA1 is_usable is_in_cluster update_server_status m env file = o) as Hrun
    by reflexivity.
  clearbody o.
  unfold tick in Hrun; unfold m in Hrun.
  cbn [check_maintenance_requests m_status_change_pending with_status_change_pending
       m_servers m_master m_settings m_name m_journal_hash m_state m_checked m_ticks]
    in Hrun.
  cbn [tick_servers] in Hrun.
  rewrite HtA in Hrun. rewrite HuA in Hrun. cbn [mbind option_bind fst snd] in Hrun.
  rewrite HtB in Hrun. rewrite HuB in Hrun. cbn [mbind option_bind fst snd app] in Hrun.
  unfold journal_name in *.
  destruct A as [srvA prevA pendA cntA reqA okA limA].
  destruct B as [srvB prevB pendB cntB reqB okB limB].
  destruct A3 as [srvA3 prevA3 pendA3 cntA3 reqA3 okA3 limA3].
  destruct B3 as [srvB3 prevB3 pendB3 cntB3 reqB3 okB3 limB3].
  cbn [server mon_prev_status pending_status mon_err_count status_request
       ok_to_check_disk_space monitor_limits] in *.
  subst srvA3 srvB3 prevA3 prevB3.
  unfold flush_server_status, with_pending_status, with_err_count,
    with_server, with_status in Hrun.
  cbn [fmap list_fmap server mon_prev_status pending_status mon_err_count status_request
       ok_to_check_disk_space monitor_limits] in Hrun.
  rewrite HimA, HimB in Hrun; cbn [negb] in Hrun.
  cbn [status name last_event triggered_at disk_space_limits] in Hrun.
  unfold detect_handle_state_changes in Hrun.
  cbn [detect_loop] in Hrun; unfold detect_server in Hrun.
  cbn [server mon_prev_status pending_status mon_err_count status_request
       ok_to_check_disk_space monitor_limits status name last_event triggered_at
       disk_space_limits] in Hrun.
  rewrite HscA, HscB, HevA, HevB, Hio in Hrun.
  match type of Hrun with
  | context [hangup_failed_servers is_usable is_in_cluster ?l] =>
      pose proof (state_changes_hangup l) as Hhang;
      set (hang := hangup_failed_servers is_usable is_in_cluster l) in *;
      clearbody hang
  end.
  cbn [mbind option_bind lookup list_lookup] in Hrun.
  rewrite store_server_journal_gate in Hrun.
  2:{ unfold snapshot_entries, journal_name, with_server, with_event.
      cbn [with_master with_servers with_server with_event with_status_change_pending
           m_servers fmap list_fmap app journal_name server name].
      rewrite !encode_entries_cons, !length_app, length_encode_server,
        length_encode_server, length_encode_master.
      unfold encode_entries. cbn [fmap list_fmap concat length].
      unfold MMB_LEN_BYTES, MMB_LEN_SCHEMA_VERSION, MMB_LEN_CRC32. lia. }
  cbn [mbind option_bind] in Hrun.
  unfold snapshot_entries, journal_name, with_server, with_event in Hrun.
  cbn [with_master with_servers with_status_change_pending m_servers m_journal_hash
       fmap list_fmap app server name status] in Hrun.
  match type of Hrun with
  | context [bool_decide (?h ≠ ?d)] => destruct (bool_decide (h ≠ d)) eqn:Hgate
  end; subst o.
  all: eexists _, _, _; split; [reflexivity|].
  all: cbn [tr_monitor tr_effects tr_journal with_journal_hash with_master with_servers
            with_status_change_pending m_servers m_master fst snd].
  all: split; [reflexivity|]; split; [reflexivity|].
  all: cbn [server name status last_event].
  all: split; [reflexivity|]; split; [reflexivity|].
  all: split; [exact HdA|]; split; [exact HdB|].
  all: split; [intros Hno; by rewrite (HnoA Hno), (HnoB Hno)|].
  all: split; [reflexivity|]; split; [reflexivity|].
  all: split.
  1,3: rewrite (state_changes_app (logA ++ logB ++ [])), (state_changes_app logA),
      (state_changes_app logB), HqA, HqB;
    change (state_changes []) with (@nil (string * mxs_monitor_event_t));
    cbn [app];
    destruct (negb (bool_decide (script settings = "")) && events settings MASTER_UP_EVENT),
      (negb (bool_decide (script settings = "")) && events settings SLAVE_UP_EVENT);
    cbn [app]; unfold state_changes; cbn [omap list_omap]; fold state_changes;
    do 2 f_equal; rewrite ?state_changes_app, Hhang; reflexivity.
  - cbv zeta. intros Hne. reflexivity.
  - cbv zeta. intros Hne. exfalso. apply bool_decide_eq_false in Hgate. by apply Hgate.
Qed.
End ColdStart.

(** The cold start at the sample layout with a disk space check due: two
    servers of status 0, a limit of 90% on every mount and one mount that
    is 95% full. Both servers end with [DISK_SPACE_EXHAUSTED] on top of
    [RUNNING] and their role. *)
Lemma cold_start_events_witness :
  let B := sample_bits in
  ∃ r A' B',
    tick sample_digest (λ _, true) (λ _, true) cold_start_update
         (sample_running_monitor [sample_limited_server "A" 0; sample_limited_server "B" 0])
         sample_env_disk None = Some r
    ∧ m_servers (tr_monitor r) = [A'; B']
    ∧ m_master (tr_monitor r) = Some 0%nat
    ∧ status (server A') = 73 ∧ status (server B') = 81
    ∧ state_changes (tr_effects r) = [("A", MASTER_UP_EVENT); ("B", SLAVE_UP_EVENT)]
    ∧ tr_journal r
      = Some (journal_record
                (encode_entries [SERVER_ENTRY [x41] 73; SERVER_ENTRY [x42] 81;
                                 MASTER_ENTRY [x41]])).
Proof.
  intros B.
  destruct (@cold_start_events B sample_bits_ok sample_digest (λ _, true) (λ _, true)
              cold_start_update "Monitor" sample_settings (replicate 20 x00) None false 0
              (sample_limited_server "A" 0) (sample_limited_server "B" 0)
              sample_env_disk None)
    as (r & A' & B' & Hrun & Hs & Hm & _ & _ & _ & _ & _ & _ & _ & Hev & Hj);
    try reflexivity.
  - intros _ srv info p san Hi Hin. vm_compute in Hi. injection Hi as <-.
    apply list_elem_of_singleton in Hin. injection Hin as _ ->.
    vm_compute. eauto.
  - assert (status (server A') = 73 ∧ status (server B') = 81) as [HstA HstB].
    { pose proof Hrun as Hc. vm_compute in Hc. injection Hc as Hc. subst r.
      vm_compute in Hs. injection Hs as <- <-. split; reflexivity. }
    exists r, A', B'. rewrite HstA, HstB in Hj.
    repeat split; try assumption.
    apply Hj. vm_compute. discriminate.
Defined.

(** C3 as stated fails: the events of the cold start are the [*_UP] events,
    not [NEW_MASTER_EVENT] and [NEW_SLAVE_EVENT]. *)
Lemma cold_start_reports_up_events :
  let B := sample_bits in
  (λ r, state_changes (tr_effects r))
    <$> tick sample_digest (λ _, true) (λ _, true) cold_start_update
             (sample_running_monitor [sample_server "A" 0; sample_server "B" 0])
             sample_env None
  = Some [("A", MASTER_UP_EVENT); ("B", SLAVE_UP_EVENT)].
Proof. vm_compute. reflexivity. Qed.
